(** * Wiki-Summarizer: the summarization core of [src/summarizer.py] and
      the driver of [src/pipeline.py], embedded and verified.

    The Python program is embedded shallowly.  Python [str] values are
    sequences of Unicode code points; dictionaries are insertion-ordered
    association lists; the effects of the program (HTTP calls, sleeps,
    console output, files) are threaded through an explicit world, in a
    state-and-exception monad in which the effects performed before an
    exception is raised are kept, as in Python. *)

From Stdlib Require Import ZArith List String Ascii Bool Lia QArith.
Import ListNotations.
Local Open Scope Z_scope.

(** ** Python strings *)

Module Py.

(** A character is a Unicode code point, a string a sequence of them,
    so that [len] counts code points as Python's does. *)
Definition char := N.
Definition str := list char.

Definition lit (s : string) : str :=
  map N_of_ascii (list_ascii_of_string s).

Definition len (s : str) : Z := Z.of_nat (List.length s).

(** [str.isspace] on one character: the code points CPython lists in
    [_PyUnicode_IsWhitespace]. *)
Definition isspace (c : char) : bool :=
  (((9 <=? c) && (c <=? 13)) || ((28 <=? c) && (c <=? 32))
   || (c =? 133) || (c =? 160) || (c =? 5760)
   || ((8192 <=? c) && (c <=? 8202))
   || (c =? 8232) || (c =? 8233) || (c =? 8239) || (c =? 8287)
   || (c =? 12288))%N.

Fixpoint lstrip (s : str) : str :=
  match s with
  | [] => []
  | c :: s' => if isspace c then lstrip s' else s
  end.

Fixpoint rstrip (s : str) : str :=
  match s with
  | [] => []
  | c :: s' =>
      match rstrip s' with
      | [] => if isspace c then [] else [c]
      | r => c :: r
      end
  end.

(** [s.strip()] *)
Definition strip (s : str) : str := rstrip (lstrip s).

(** [sep.join(xs)] *)
Fixpoint join (sep : str) (xs : list str) : str :=
  match xs with
  | [] => []
  | [x] => x
  | x :: rest => x ++ sep ++ join sep rest
  end.

Fixpoint startswith (s p : str) : bool :=
  match p, s with
  | [], _ => true
  | _ :: _, [] => false
  | a :: p', b :: s' => (a =? b)%N && startswith s' p'
  end.

(** [sub in s] for strings: substring search. *)
Fixpoint contains (sub s : str) : bool :=
  startswith s sub
  || match s with
     | [] => false
     | _ :: s' => contains sub s'
     end.

Definition eqb (a b : str) : bool :=
  if list_eq_dec N.eq_dec a b then true else false.

(** Truth value of a string: the empty string is false. *)
Definition truthy (s : str) : bool :=
  match s with [] => false | _ :: _ => true end.

End Py.

Import Py.

Arguments lit s%_string.

(** ** Python dictionaries: insertion-ordered, one entry per key *)

Module Dict.

Definition t (V : Type) := list (str * V).

Fixpoint get {V} (d : t V) (k : str) : option V :=
  match d with
  | [] => None
  | (k', v) :: d' => if Py.eqb k' k then Some v else get d' k
  end.

(** [d[k] = v]: an existing key keeps its position, a new one goes last. *)
Fixpoint set {V} (d : t V) (k : str) (v : V) : t V :=
  match d with
  | [] => [(k, v)]
  | (k', v') :: d' =>
      if Py.eqb k' k then (k', v) :: d' else (k', v') :: set d' k v
  end.

Definition keys {V} (d : t V) : list str := map fst d.

Definition truthy {V} (d : t V) : bool :=
  match d with [] => false | _ :: _ => true end.

(** What makes an association list a dictionary. *)
Definition wf {V} (d : t V) : Prop := NoDup (keys d).

End Dict.

(** ** Values decoded from JSON, exceptions, results *)

(** What [response.json()] can give back.  Numbers are kept as integers:
    every number, integral or not, behaves alike under the operations
    below. *)
#[warnings="-register-all"]
Inductive json :=
| JNull
| JBool (b : bool)
| JNum (n : Z)
| JStr (s : str)
| JList (l : list json)
| JDict (d : list (str * json)).

(** The exceptions met in the program.  [Timeout] and [JSONDecodeError]
    are the ones of [requests.exceptions], both subclasses of
    [RequestException]; [FileNotFoundError] and [IsADirectoryError] are
    subclasses of [OSError]; all of them are subclasses of [Exception].
    [ExceptionFrom msg cause] is [Exception(f"{msg}{cause}")], an
    [Exception] whose message ends in the text of another one. *)
Inductive exn :=
| KeyError
| IndexError
| TypeError
| AttributeError
| ValueError
| Timeout
| JSONDecodeError
| RequestException (msg : str)
| FileNotFoundError
| IsADirectoryError
| Exception (msg : str)
| ExceptionFrom (msg : str) (cause : exn).

Inductive result (A : Type) :=
| Ok (a : A)
| Raise (e : exn).
Arguments Ok {A} a.
Arguments Raise {A} e.

(** [v[k]] for a string key [k]. *)
Definition getitem (v : json) (k : str) : result json :=
  match v with
  | JDict d =>
      match Dict.get d k with
      | Some x => Ok x
      | None => Raise KeyError
      end
  | _ => Raise TypeError
  end.

(** [v[0]] *)
Definition getitem0 (v : json) : result json :=
  match v with
  | JList (x :: _) => Ok x
  | JList [] => Raise IndexError
  | JStr (c :: _) => Ok (JStr [c])
  | JStr [] => Raise IndexError
  | JDict _ => Raise KeyError
  | _ => Raise TypeError
  end.

(** [v.strip()] *)
Definition call_strip (v : json) : result str :=
  match v with
  | JStr s => Ok (strip s)
  | _ => Raise AttributeError
  end.

(** ** The world: console, network, clock and files *)

(** An HTTP response, with what its [.json()] decodes to ([None] when the
    body is not JSON). *)
Record response := {
  status_code : Z;
  text : str;
  body : option json
}.

Inductive http_outcome :=
| Responds (r : response)
| TimesOut
| Fails (msg : str).

(** Console lines; banners, separators and previews are left out. *)
Inductive line :=
| LLoaded (filepath : str) (sections : Z)
| LProcessing (index total : Z) (section_name : str)
| LSkipping (section_name : str) (chars : Z)
| LCalling (section_name : str)
| LSummarized (section_name : str)
| LFailedToSummarize (section_name : str)
| LRateLimited (wait_time : Z)
| LApiError (status : Z) (text : str)
| LRetrying (wait_time : Z)
| LTimeout (attempt max_retries : Z)
| LRequestError (e : exn)
| LProcessed (processed total : Z)
| LSaved (filepath : str)
| LCompleted (processed : Z) (characters : Z)
| LNoSections
| LError (e : exn)
| LScrapingDone (sections : Z)
| LScrapingFailed (e : exn)
| LKeyLoaded
| LKeyFailed (e : exn)
| LSummarizationDone (sections : Z)
| LNoSummaries
| LSummarizationFailed (e : exn)
| LUnexpected (e : exn)
| LReport (success : bool).

Inductive event :=
| EPost (url : str) (messages : list (str * str))
| EGet (url : str)
| ESleep (seconds : Q)
| EPrint (l : line).

(** A file is known by what it holds: the JSON serialization of a section
    mapping, or some other text (taken not to be JSON).

    The file system is idealised.  Files are known by their paths as
    written; a directory that a path asks for is there or can be made,
    and a file can be created and written.  The failures embedded are
    those that the path alone decides: no directory part to make, a NUL
    character, a last component that names a directory.  What the state
    of a real disk can add (a regular file where a directory is asked
    for, as when [Path("data").mkdir(exist_ok=True)] finds a file named
    [data]; missing permissions; a full disk) is outside the embedding,
    and no statement below says that such a run ends well. *)
Inductive file :=
| FJson (content : Dict.t (list str))
| FText (content : str).

Record world := {
  trace : list event;
  files : Dict.t file
}.

Definition is_post (e : event) : bool :=
  match e with EPost _ _ => true | _ => false end.

Definition is_network (e : event) : bool :=
  match e with EPost _ _ | EGet _ => true | _ => false end.

Definition posts (t : list event) : nat := List.length (filter is_post t).

(** ** The monad of the program *)

Definition M (A : Type) := world -> result A * world.

Definition ret {A} (a : A) : M A := fun w => (Ok a, w).

Definition bind {A B} (m : M A) (k : A -> M B) : M B :=
  fun w =>
    match m w with
    | (Ok a, w') => k a w'
    | (Raise e, w') => (Raise e, w')
    end.

Definition raise {A} (e : exn) : M A := fun w => (Raise e, w).

(** [try: m  except ...: h e]; a handler that does not handle [e]
    raises it again. *)
Definition try_except {A} (m : M A) (h : exn -> M A) : M A :=
  fun w =>
    match m w with
    | (Ok a, w') => (Ok a, w')
    | (Raise e, w') => h e w'
    end.

Definition lift {A} (r : result A) : M A := fun w => (r, w).

Declare Scope m_scope.
Delimit Scope m_scope with m.
Notation "x <- c ;; k" := (bind c (fun x => k))
  (at level 100, c at next level, right associativity) : m_scope.
Notation "c ;; k" := (bind c (fun _ => k))
  (at level 100, right associativity) : m_scope.
Local Open Scope m_scope.

Definition emit (e : event) : M unit :=
  fun w => (Ok tt, {| trace := trace w ++ [e]; files := files w |}).

Definition print (l : line) : M unit := emit (EPrint l).

(** [time.sleep(d)]: a negative duration is a [ValueError]. *)
Definition time_sleep (d : Q) : M unit :=
  if (Qnum d <? 0)%Z then raise ValueError else emit (ESleep d).

Definition write_file (filepath : str) (f : file) : M unit :=
  fun w => (Ok tt, {| trace := trace w; files := Dict.set (files w) filepath f |}).

Definition read_file (filepath : str) : M (option file) :=
  fun w => (Ok (Dict.get (files w) filepath), w).

(** [range(n)] *)
Definition range (n : Z) : list Z := map Z.of_nat (seq 0 (Z.to_nat n)).

(** ** Paths, directories and files *)

Definition sep : char := 47%N.

(** [p[:p.rfind('/') + 1]] and [p[p.rfind('/') + 1:]] *)
Fixpoint upto_last_sep (p : str) : str :=
  match p with
  | [] => []
  | c :: rest =>
      if contains [sep] rest then c :: upto_last_sep rest
      else if (c =? sep)%N then [c] else []
  end.

Fixpoint after_last_sep (p : str) : str :=
  match p with
  | [] => []
  | c :: rest =>
      if contains [sep] rest then after_last_sep rest
      else if (c =? sep)%N then rest else c :: rest
  end.

(** [s.rstrip('/')] *)
Fixpoint rstrip_sep (s : str) : str :=
  match s with
  | [] => []
  | c :: s' =>
      match rstrip_sep s' with
      | [] => if (c =? sep)%N then [] else [c]
      | r => c :: r
      end
  end.

(** [os.path.dirname] and [os.path.basename] of [posixpath]. *)
Definition dirname (p : str) : str :=
  let head := upto_last_sep p in
  if truthy head && negb (forallb (N.eqb sep) head) then rstrip_sep head else head.

Definition basename (p : str) : str := after_last_sep p.

(** [os.makedirs(name, exist_ok=True)]: the empty name has nothing to
    make, and [os.mkdir] raises [FileNotFoundError] on it; a NUL
    character is a [ValueError]. *)
Definition os_makedirs (name : str) : M unit :=
  if negb (truthy name) then raise FileNotFoundError
  else if contains [0%N] name then raise ValueError
  else ret tt.

(** [Path(name).mkdir(exist_ok=True)], for a name of one component. *)
Definition path_mkdir (name : str) : M unit :=
  if contains [0%N] name then raise ValueError else ret tt.

(** [with open(filepath, 'w', encoding='utf-8') as f: f.write(content)]:
    a path with a NUL character is a [ValueError]; a path whose last
    component is empty, [.] or [..] names a directory. *)
Definition open_write (filepath content : str) : M unit :=
  if contains [0%N] filepath then raise ValueError
  else if Py.eqb (basename filepath) []
          || Py.eqb (basename filepath) (lit ".")
          || Py.eqb (basename filepath) (lit "..")
  then raise IsADirectoryError
  else write_file filepath (FText content).

(** ** [summarizer.py] *)

Record GroqSummarizer := {
  api_key : str;
  model : str;
  base_url : str;
  min_section_length : Z;
  max_retries : Z;
  base_delay : Z
}.

(** [GroqSummarizer.__init__] *)
Definition init (key : str) : GroqSummarizer := {|
  api_key := key;
  model := lit "llama-3.1-8b-instant";
  base_url := lit "https://api.groq.com/openai/v1/chat/completions";
  min_section_length := 50;
  max_retries := 3;
  base_delay := 1
|}.

Definition nl : str := [10%N].

Definition prepare_section_text (paragraphs : list str) : str :=
  strip (join (nl ++ nl) paragraphs).

Definition is_section_valid (self : GroqSummarizer) (section_text : str) : bool :=
  min_section_length self <=? len (strip section_text).

Definition create_prompt (section_text : str) : list (str * str) :=
  [ (lit "system",
     lit "You are a helpful summarizer. Provide concise, accurate summaries that capture the key information and main points.");
    (lit "user",
     lit "Summarize the following text in 2" ++ [8218; 196; 236]%N
       ++ lit "4 concise, coherent sentences. Focus on the main points and key information:"
       ++ nl ++ nl ++ section_text) ].

(** [format_markdown_output]: the lines appended for one entry, the list
    of all lines, and the joined text. *)
Definition entry_lines (entry : str * str) : list str :=
  let '(section_name, summary) := entry in
  [ (if contains (lit ">") section_name
     then lit "### " ++ section_name ++ nl
     else lit "## " ++ section_name ++ nl);
    summary ++ nl ].

Definition output_lines (summaries : Dict.t str) : list str :=
  flat_map entry_lines summaries.

Definition format_markdown_output (self : GroqSummarizer) (summaries : Dict.t str) : str :=
  strip (join nl (output_lines summaries)).

Section Summarizer.

(** The completion service: what the [k]-th POST of the run (counting
    from 0) comes to, given the messages sent. *)
Variable groq : nat -> list (str * str) -> http_outcome.

(** [requests.post(self.base_url, ..., timeout=30)] *)
Definition requests_post (url : str) (messages : list (str * str)) : M response :=
  fun w =>
    let w' := {| trace := trace w ++ [EPost url messages]; files := files w |} in
    match groq (posts (trace w)) messages with
    | Responds r => (Ok r, w')
    | TimesOut => (Raise Timeout, w')
    | Fails msg => (Raise (RequestException msg), w')
    end.

(** [response.json()] *)
Definition response_json (r : response) : M json :=
  match body r with
  | Some v => ret v
  | None => raise JSONDecodeError
  end.

(** [result['choices'][0]['message']['content'].strip()] *)
Definition message_content (v : json) : result str :=
  match getitem v (lit "choices") with
  | Raise e => Raise e
  | Ok choices =>
      match getitem0 choices with
      | Raise e => Raise e
      | Ok choice =>
          match getitem choice (lit "message") with
          | Raise e => Raise e
          | Ok message =>
              match getitem message (lit "content") with
              | Raise e => Raise e
              | Ok content => call_strip content
              end
          end
      end
  end.

Definition backoff (self : GroqSummarizer) (attempt : Z) : Z :=
  base_delay self * 2 ^ attempt.

(** The sleep taken after a failure that is not a rate limit: none
    after the last attempt. *)
Definition sleep_unless_last (self : GroqSummarizer) (attempt : Z) (announce : bool) : M unit :=
  if attempt <? max_retries self - 1
  then (if announce then print (LRetrying (backoff self attempt)) else ret tt);;
       time_sleep (inject_Z (backoff self attempt))
  else ret tt.

(** One turn of the retry loop of [call_groq_api]: [Some s] when the
    function returns [s], [None] when the loop goes on. *)
Definition attempt_body (self : GroqSummarizer) (messages : list (str * str))
    (attempt : Z) : M (option str) :=
  try_except
    (r <- requests_post (base_url self) messages;;
     if status_code r =? 200 then
       v <- response_json r;;
       s <- lift (message_content v);;
       ret (Some s)
     else if status_code r =? 429 then
       print (LRateLimited (backoff self attempt));;
       time_sleep (inject_Z (backoff self attempt));;
       ret None
     else
       print (LApiError (status_code r) (text r));;
       sleep_unless_last self attempt true;;
       ret None)
    (fun e =>
       match e with
       | Timeout =>
           print (LTimeout (attempt + 1) (max_retries self));;
           sleep_unless_last self attempt false;;
           ret None
       | JSONDecodeError | RequestException _ =>
           print (LRequestError e);;
           sleep_unless_last self attempt false;;
           ret None
       | _ => raise e
       end).

Fixpoint retry_loop (self : GroqSummarizer) (messages : list (str * str))
    (attempts : list Z) : M (option str) :=
  match attempts with
  | [] => ret None
  | attempt :: rest =>
      r <- attempt_body self messages attempt;;
      match r with
      | Some s => ret (Some s)
      | None => retry_loop self messages rest
      end
  end.

Definition call_groq_api (self : GroqSummarizer) (messages : list (str * str))
    : M (option str) :=
  retry_loop self messages (range (max_retries self)).

Definition summarize_section (self : GroqSummarizer) (section_name : str)
    (paragraphs : list str) : M (option str) :=
  let section_text := prepare_section_text paragraphs in
  if negb (is_section_valid self section_text) then
    print (LSkipping section_name (len section_text));;
    ret None
  else
    let messages := create_prompt section_text in
    print (LCalling section_name);;
    summary <- call_groq_api self messages;;
    match summary with
    | Some s =>
        if truthy s then print (LSummarized section_name);; ret (Some s)
        else print (LFailedToSummarize section_name);; ret None
    | None => print (LFailedToSummarize section_name);; ret None
    end.

Definition load_json_data (filepath : str) : M (Dict.t (list str)) :=
  f <- read_file filepath;;
  match f with
  | Some (FJson data) =>
      print (LLoaded filepath (Z.of_nat (List.length data)));;
      ret data
  | Some (FText _) => raise (Exception (lit "Invalid JSON format"))
  | None => raise (Exception (lit "JSON file not found: " ++ filepath))
  end.

(** [save_markdown]: the directory is made before the [try]; what
    opening or writing the file raises is raised again as an
    [Exception] that quotes it. *)
Definition save_markdown (content filepath : str) : M unit :=
  os_makedirs (dirname filepath);;
  try_except
    (open_write filepath content;;
     print (LSaved filepath))
    (fun e => raise (ExceptionFrom (lit "Failed to save markdown file: ") e)).

(** The loop over [data.items()] of [process_all_sections], with its
    two accumulators. *)
Fixpoint sections_loop (self : GroqSummarizer) (total : Z)
    (items : list (str * list str)) (summaries : Dict.t str) (processed : Z)
    : M (Dict.t str * Z) :=
  match items with
  | [] => ret (summaries, processed)
  | (section_name, paragraphs) :: rest =>
      print (LProcessing (processed + 1) total section_name);;
      summary <- summarize_section self section_name paragraphs;;
      let '(summaries', processed') :=
        match summary with
        | Some s =>
            if truthy s then (Dict.set summaries section_name s, processed + 1)
            else (summaries, processed)
        | None => (summaries, processed)
        end in
      time_sleep (1 # 2);;
      sections_loop self total rest summaries' processed'
  end.

Definition process_all_sections (self : GroqSummarizer) (input_file output_file : str)
    : M (Dict.t str) :=
  data <- load_json_data input_file;;
  let total_sections := Z.of_nat (List.length data) in
  sp <- sections_loop self total_sections data [] 0;;
  let '(summaries, processed) := sp in
  print (LProcessed processed total_sections);;
  (if Dict.truthy summaries then
     let markdown_content := format_markdown_output self summaries in
     save_markdown markdown_content output_file;;
     print (LCompleted processed (len markdown_content))
   else
     print LNoSections);;
  ret summaries.

(** The credential, as [os.getenv('GROQ_API_KEY')] finds it once
    [load_dotenv()] has run. *)
Variable GROQ_API_KEY : option str.

Definition load_environment : M str :=
  match GROQ_API_KEY with
  | Some key =>
      if truthy key then ret key
      else raise (Exception (lit "GROQ_API_KEY not found in environment variables. Please create a .env file with: GROQ_API_KEY=your_api_key_here"))
  | None =>
      raise (Exception (lit "GROQ_API_KEY not found in environment variables. Please create a .env file with: GROQ_API_KEY=your_api_key_here"))
  end.

(** [main] of [summarizer.py]; every exception of the model is an
    [Exception], so the handler takes them all. *)
Definition main : M Z :=
  try_except
    (key <- load_environment;;
     let summarizer := init key in
     let input_file := lit "data/raw_wiki_content.json" in
     let output_file := lit "data/summarized_output.md" in
     summaries <- process_all_sections summarizer input_file output_file;;
     ret (if Dict.truthy summaries then 0 else 1))
    (fun e => print (LError e);; ret 1).

End Summarizer.

(** ** [scraper.py], as far as the driver needs it, and [pipeline.py] *)

(** A fetched page: it has no content area, or it has one from which
    [extract_content] gets the mapping [content] (HTML parsing itself is
    not embedded). *)
Inductive soup :=
| NoContentArea
| ContentArea (content : Dict.t (list str)).

Inductive fetch_result :=
| FetchFails (msg : str)
| Fetched (page : soup).

(** [WikipediaScraper.format_output] *)
Definition section_block (entry : str * list str) : list str :=
  let '(section, paragraphs) := entry in
  match paragraphs with
  | [] => []
  | _ :: _ =>
      let header_prefix :=
        if contains (lit ">") section then lit "###" else lit "##" in
      (nl ++ header_prefix ++ lit " " ++ section)
        :: map (fun para => nl ++ para) paragraphs ++ [ [] ]
  end.

Definition format_output (content_dict : Dict.t (list str)) : str :=
  strip (join nl (flat_map section_block content_dict)).

Definition json_file : str := lit "data/raw_wiki_content.json".
Definition txt_file : str := lit "data/raw_wiki_content.txt".
Definition markdown_file : str := lit "data/summarized_output.md".

Section Pipeline.

Variable groq : nat -> list (str * str) -> http_outcome.
Variable GROQ_API_KEY : option str.

(** What [requests.get] on the article's address comes to. *)
Variable wikipedia : str -> fetch_result.

Definition fetch_page (url : str) : M soup :=
  emit (EGet url);;
  match wikipedia url with
  | Fetched page => ret page
  | FetchFails msg => raise (Exception (lit "Failed to fetch page: " ++ msg))
  end.

Definition extract_content (page : soup) : M (Dict.t (list str)) :=
  match page with
  | ContentArea content => ret content
  | NoContentArea => raise (Exception (lit "Could not find main content area"))
  end.

(** [WikipediaScraper.scrape]; the mapping it leaves in
    [self.content_dict] is returned along with the text. *)
Definition scrape (url : str) : M (Dict.t (list str) * str) :=
  page <- fetch_page url;;
  content_dict <- extract_content page;;
  let formatted_content := format_output content_dict in
  write_file txt_file (FText formatted_content);;
  write_file json_file (FJson content_dict);;
  ret (content_dict, formatted_content).

Definition convert_txt_to_json (content_dict : Dict.t (list str)) : M unit :=
  write_file json_file (FJson content_dict).

Definition step_1_scraping (url : str) : M bool :=
  try_except
    (sc <- scrape url;;
     convert_txt_to_json (fst sc);;
     print (LScrapingDone (Z.of_nat (List.length (fst sc))));;
     ret true)
    (fun e => print (LScrapingFailed e);; ret false).

Definition step_2_load_api_key : M str :=
  try_except
    (key <- load_environment GROQ_API_KEY;;
     print LKeyLoaded;;
     ret key)
    (fun e => print (LKeyFailed e);; raise e).

Definition step_3_summarization (key : str) : M bool :=
  try_except
    (f <- read_file json_file;;
     match f with
     | None => raise (Exception (lit "JSON file not found: " ++ json_file))
     | Some _ =>
         let summarizer := init key in
         summaries <- process_all_sections groq summarizer json_file markdown_file;;
         if Dict.truthy summaries then
           print (LSummarizationDone (Z.of_nat (List.length summaries)));;
           ret true
         else
           print LNoSummaries;;
           ret false
     end)
    (fun e => print (LSummarizationFailed e);; ret false).

Definition generate_pipeline_report (success : bool) : M unit :=
  print (LReport success).

(** [WikiPipeline.__init__]: the paths are the constants above; what is
    left of it is the making of the data directory. *)
Definition WikiPipeline (url : str) : M unit :=
  path_mkdir (lit "data").

(** [run_pipeline]: the pipeline object is built before the [try], so
    what its constructor raises is not handled here. *)
Definition run_pipeline (url : str) : M bool :=
  WikiPipeline url;;
  try_except
    (scraped <- step_1_scraping url;;
     if negb scraped then
       generate_pipeline_report false;;
       ret false
     else
       time_sleep (inject_Z 1);;
       key <- step_2_load_api_key;;
       time_sleep (inject_Z 1);;
       success <- step_3_summarization key;;
       generate_pipeline_report success;;
       ret success)
    (fun e =>
       print (LUnexpected e);;
       generate_pipeline_report false;;
       ret false).

End Pipeline.

(** ** Reading a run *)

Definition sleeps (t : list event) : list Q :=
  flat_map (fun e => match e with ESleep d => [d] | _ => [] end) t.

(** The sections the orchestrator announced, from the console. *)
Definition visited (t : list event) : list str :=
  flat_map (fun e => match e with EPrint (LProcessing _ _ n) => [n] | _ => [] end) t.

(** The sections reported as summarized, from the console. *)
Definition summarized (t : list event) : list str :=
  flat_map (fun e => match e with EPrint (LSummarized n) => [n] | _ => [] end) t.

Definition mem (k : str) (l : list str) : bool := existsb (Py.eqb k) l.

(** How the retry loop takes one outcome of the service: it returns the
    trimmed content, goes on to the next attempt, or lets an exception
    out of [call_groq_api]. *)
Inductive verdict :=
| Returns (s : str)
| NextAttempt
| Escapes (e : exn).

Definition verdict_of (o : http_outcome) : verdict :=
  match o with
  | Responds r =>
      if status_code r =? 200 then
        match body r with
        | None => NextAttempt
        | Some v =>
            match message_content v with
            | Ok s => Returns s
            | Raise e => Escapes e
            end
        end
      else NextAttempt
  | TimesOut | Fails _ => NextAttempt
  end.

Definition escapes (o : http_outcome) : bool :=
  match verdict_of o with Escapes _ => true | _ => false end.

Definition gives_summary (o : http_outcome) : bool :=
  match verdict_of o with Returns s => truthy s | _ => false end.

(** The outcome leaves the caller without a summary and without an
    exception. *)
Definition fails_quietly (o : http_outcome) : bool :=
  match verdict_of o with
  | NextAttempt => true
  | Returns s => negb (truthy s)
  | Escapes _ => false
  end.

Definition status_of (o : http_outcome) : option Z :=
  match o with Responds r => Some (status_code r) | _ => None end.

(** The events of the retry loop: none of them is a line of the
    orchestrator, a fetch of the article or a file. *)
Definition is_retry_event (e : event) : bool :=
  match e with
  | EPost _ _ | ESleep _ => true
  | EPrint (LRateLimited _) | EPrint (LApiError _ _) | EPrint (LRetrying _)
  | EPrint (LTimeout _ _) | EPrint (LRequestError _) => true
  | _ => false
  end.

Definition too_short (self : GroqSummarizer) (entry : str * list str) : bool :=
  negb (is_section_valid self (prepare_section_text (snd entry))).

(** The section cannot be summarized: it is too short to be sent, or
    whatever call carries its prompt is answered without a summary and
    without an exception. *)
Definition hopeless (groq : nat -> list (str * str) -> http_outcome)
    (self : GroqSummarizer) (entry : str * list str) : Prop :=
  too_short self entry = true
  \/ forall k,
       fails_quietly (groq k (create_prompt (prepare_section_text (snd entry)))) = true.

(** The summary of a section when the service answers by the prompt
    alone: that of the first answer, if the section is sent at all. *)
Definition summary_by_prompt (self : GroqSummarizer)
    (answer : list (str * str) -> http_outcome) (entry : str * list str)
    : option str :=
  if too_short self entry then None
  else if max_retries self <? 1 then None
  else match verdict_of (answer (create_prompt (prepare_section_text (snd entry)))) with
       | Returns s => if truthy s then Some s else None
       | _ => None
       end.

Definition summaries_by_prompt (self : GroqSummarizer)
    (answer : list (str * str) -> http_outcome) (data : Dict.t (list str))
    : Dict.t str :=
  flat_map (fun entry =>
              match summary_by_prompt self answer entry with
              | Some s => [(fst entry, s)]
              | None => []
              end) data.

Definition key_absent (key : option str) : bool :=
  match key with Some k => negb (truthy k) | None => true end.

Definition missing_key_error : exn :=
  Exception (lit "GROQ_API_KEY not found in environment variables. Please create a .env file with: GROQ_API_KEY=your_api_key_here").

(** What [save_markdown] raises for a path, if anything: the exception
    of making the directory, as it is, or that of opening the file,
    quoted. *)
Definition save_failure (filepath : str) : option exn :=
  if negb (truthy (dirname filepath)) then Some FileNotFoundError
  else if contains [0%N] (dirname filepath) then Some ValueError
  else if contains [0%N] filepath then
    Some (ExceptionFrom (lit "Failed to save markdown file: ") ValueError)
  else if Py.eqb (basename filepath) []
          || Py.eqb (basename filepath) (lit ".")
          || Py.eqb (basename filepath) (lit "..")
  then Some (ExceptionFrom (lit "Failed to save markdown file: ") IsADirectoryError)
  else None.

(** The events of one turn of the retry loop, by the outcome of its
    call. *)
Definition unless_last (self : GroqSummarizer) (attempt : Z) (announce : bool)
    : list event :=
  if attempt <? max_retries self - 1
  then (if announce then [EPrint (LRetrying (backoff self attempt))] else [])
       ++ [ESleep (inject_Z (backoff self attempt))]
  else [].

Definition attempt_events (self : GroqSummarizer) (messages : list (str * str))
    (attempt : Z) (o : http_outcome) : list event :=
  EPost (base_url self) messages ::
  match o with
  | Responds r =>
      if status_code r =? 200 then
        match body r with
        | Some _ => []
        | None =>
            EPrint (LRequestError JSONDecodeError) :: unless_last self attempt false
        end
      else if status_code r =? 429 then
        [EPrint (LRateLimited (backoff self attempt));
         ESleep (inject_Z (backoff self attempt))]
      else
        EPrint (LApiError (status_code r) (text r)) :: unless_last self attempt true
  | TimesOut =>
      EPrint (LTimeout (attempt + 1) (max_retries self))
        :: unless_last self attempt false
  | Fails msg =>
      EPrint (LRequestError (RequestException msg))
        :: unless_last self attempt false
  end.

Definition result_of (v : verdict) : result (option str) :=
  match v with
  | Returns s => Ok (Some s)
  | NextAttempt => Ok None
  | Escapes e => Raise e
  end.

(** [w'] is [w] with the events [evs] added and the same files. *)
Definition after (w : world) (evs : list event) : world :=
  {| trace := trace w ++ evs; files := files w |}.

(** ** Sample inputs *)

Module Sample.

Definition world0 : world := {| trace := []; files := [] |}.

Definition reply (status : Z) (v : option json) : http_outcome :=
  Responds {| status_code := status; text := []; body := v |}.

Definition completion (content : str) : json :=
  JDict [(lit "choices",
          JList [JDict [(lit "message", JDict [(lit "content", JStr content)])]])].

Definition always (o : http_outcome) : nat -> list (str * str) -> http_outcome :=
  fun _ _ => o.

(** Rate-limited twice, then a completion. *)
Definition twice_429 : nat -> list (str * str) -> http_outcome :=
  fun k _ =>
    match k with
    | 0%nat | 1%nat => reply 429 None
    | _ => reply 200 (Some (completion (lit " A summary. ")))
    end.

(** A completion on the first call, server errors afterwards. *)
Definition first_only : nat -> list (str * str) -> http_outcome :=
  fun k _ =>
    match k with
    | 0%nat => reply 200 (Some (completion (lit "First.")))
    | 1%nat | 2%nat | 3%nat => reply 500 None
    | _ => reply 200 (Some (completion (lit "Third.")))
    end.

Definition long_text : str :=
  lit "This paragraph is certainly longer than fifty characters in total.".

Definition two_sections : Dict.t (list str) :=
  [(lit "A", [long_text]); (lit "B", [long_text])].

Definition three_sections : Dict.t (list str) :=
  [(lit "S1", [long_text]); (lit "S2", [long_text]); (lit "S3", [long_text])].

(** A section too short to be sent, then one long enough. *)
Definition short_then_long : Dict.t (list str) :=
  [(lit "A", [lit "Short."]); (lit "B", [long_text])].

(** A completion on the first call, then 200 answers with the body [{}]. *)
Definition second_malformed : nat -> list (str * str) -> http_outcome :=
  fun k _ =>
    match k with
    | 0%nat => reply 200 (Some (completion (lit "First.")))
    | _ => reply 200 (Some (JDict []))
    end.

(** Three sections of which the second has a text of its own, and a
    service that answers by the prompt: a server error when the text
    sent speaks of a second section, a completion otherwise. *)
Definition three_texts : Dict.t (list str) :=
  [(lit "S1", [long_text]);
   (lit "S2", [lit "The second section has a text that is long enough as well."]);
   (lit "S3", [long_text])].

Definition by_prompt (messages : list (str * str)) : http_outcome :=
  match messages with
  | [_; (_, user)] =>
      if contains (lit "second") user then reply 500 None
      else reply 200 (Some (completion (lit " Done. ")))
  | _ => TimesOut
  end.

(** The 200 answer with the body [{"choices": []}]. *)
Definition no_choices : http_outcome :=
  reply 200 (Some (JDict [(lit "choices", JList [])])).

Definition with_input (data : Dict.t (list str)) : world :=
  {| trace := []; files := [(json_file, FJson data)] |}.

Definition article : str := lit "https://en.wikipedia.org/wiki/Alexander_the_Great".

End Sample.

(** ** [scraper.py]: cleaning the text and extracting the sections *)

(** [d.setdefault(k, [])]: a key already there keeps its list. *)
Definition setdefault {V} (d : Dict.t V) (k : str) (v : V) : Dict.t V :=
  match Dict.get d k with
  | Some _ => d
  | None => d ++ [(k, v)]
  end.

(** [d.setdefault(k, []).append(x)] *)
Fixpoint setdefault_append (d : Dict.t (list str)) (k : str) (x : str)
    : Dict.t (list str) :=
  match d with
  | [] => [(k, [x])]
  | (k', l) :: d' =>
      if Py.eqb k' k then (k', l ++ [x]) :: d'
      else (k', l) :: setdefault_append d' k x
  end.

(** [s.replace(old, '')] for a non-empty [old]: the occurrences are taken
    from the left and do not overlap; [skip] counts the characters of
    the occurrence being dropped that are still to come. *)
Fixpoint remove_all (old : str) (skip : nat) (s : str) : str :=
  match s with
  | [] => []
  | c :: s' =>
      match skip with
      | S n => remove_all old n s'
      | O =>
          if startswith s old then remove_all old (List.length old - 1) s'
          else c :: remove_all old O s'
      end
  end.

(** [s.split()]: the maximal runs of characters that are not whitespace;
    [cur] is the run being read. *)
Fixpoint split_from (cur : str) (s : str) : list str :=
  match s with
  | [] => match cur with [] => [] | _ :: _ => [cur] end
  | c :: s' =>
      if isspace c then
        match cur with
        | [] => split_from [] s'
        | _ :: _ => cur :: split_from [] s'
        end
      else split_from (cur ++ [c]) s'
  end.

Definition split (s : str) : list str := split_from [] s.

Definition SKIP_SECTIONS : list str :=
  [lit "Contents"; lit "References"; lit "External links"; lit "See also";
   lit "Further reading"; lit "Notes"].

Definition boilerplate_marks : list str :=
  [lit "coordinates:"; lit "wikimedia commons"; lit "category:"; lit "this article"].

(** [is_content_significant(text)] with its default [min_length=50]. *)
Definition is_content_significant (text : str) : bool :=
  50 <=? len (strip text).

(** The elements [find_all(['h2', 'h3', 'p'])] gives, in document order,
    each with the text the loop reads from it: [get_text(strip=True)]
    for a heading, [get_text()] for a paragraph. *)
Inductive element :=
| H2 (text : str)
| H3 (text : str)
| P (text : str).

Record extraction := {
  current_h2 : option str;
  current_h3 : option str;
  content_dict : Dict.t (list str)
}.

Section Unicode.

(** Python's tables, not embedded: [\d] of the regular expressions (the
    decimal digits of Unicode) and [str.lower]. *)
Variable is_decimal : char -> bool.
Variable lower : str -> str.

(** [re.sub(r'\[\d+\]', '', s)], read from the left: [pending] is [None]
    outside a candidate, and [Some ds] once an opening bracket and the
    digits [ds] have been read.  A closing bracket after at least one
    digit drops the candidate; anything else gives it back to the
    output, an opening bracket starting the next candidate.  The
    brackets are no digits, so the order of the three tests is
    immaterial. *)
Fixpoint remove_citations_from (pending : option str) (s : str) : str :=
  match s with
  | [] => match pending with None => [] | Some ds => 91%N :: ds end
  | c :: s' =>
      match pending with
      | None =>
          if (c =? 91)%N then remove_citations_from (Some []) s'
          else c :: remove_citations_from None s'
      | Some ds =>
          if (c =? 93)%N then
            match ds with
            | [] => 91%N :: 93%N :: remove_citations_from None s'
            | _ :: _ => remove_citations_from None s'
            end
          else if (c =? 91)%N then 91%N :: ds ++ remove_citations_from (Some []) s'
          else if is_decimal c then remove_citations_from (Some (ds ++ [c])) s'
          else 91%N :: ds ++ c :: remove_citations_from None s'
      end
  end.

Definition remove_citations (s : str) : str := remove_citations_from None s.

Definition clean_text (text : str) : str :=
  strip (join (lit " ") (split (remove_citations text))).

Definition is_boilerplate (para_text : str) : bool :=
  existsb (fun skip => contains skip (lower para_text)) boilerplate_marks.

(** One turn of the loop of [extract_content]. *)
Definition extract_step (st : extraction) (el : element) : extraction :=
  match el with
  | H2 text =>
      let heading_text := remove_all (lit "[edit]") 0 text in
      if mem heading_text SKIP_SECTIONS then
        {| current_h2 := None; current_h3 := None; content_dict := content_dict st |}
      else
        {| current_h2 := Some (clean_text heading_text);
           current_h3 := None;
           content_dict := setdefault (content_dict st) (clean_text heading_text) [] |}
  | H3 text =>
      let heading_text := remove_all (lit "[edit]") 0 text in
      {| current_h2 := current_h2 st;
         current_h3 := Some (clean_text heading_text);
         content_dict := content_dict st |}
  | P text =>
      let para_text := clean_text text in
      if negb (is_content_significant para_text) then st
      else if is_boilerplate para_text then st
      else
        match current_h2 st with
        | None => st
        | Some h2 =>
            let section_key :=
              match current_h3 st with
              | Some h3 => if truthy h3 then h2 ++ lit " > " ++ h3 else h2
              | None => h2
              end in
            {| current_h2 := current_h2 st;
               current_h3 := current_h3 st;
               content_dict := setdefault_append (content_dict st) section_key para_text |}
        end
  end.

Definition extraction0 : extraction :=
  {| current_h2 := Some (lit "Introduction"); current_h3 := None; content_dict := [] |}.

(** [extract_content] on a page that has a content area with the
    elements [elements]. *)
Definition extract_elements (elements : list element) : Dict.t (list str) :=
  content_dict (fold_left extract_step elements extraction0).

End Unicode.

(** ** [main] of [pipeline.py] *)

Section PipelineMain.

Variable groq : nat -> list (str * str) -> http_outcome.
Variable GROQ_API_KEY : option str.
Variable wikipedia : str -> fetch_result.

(** [main], given the address [--url] parses to (its default is the
    article on Alexander the Great).  The first of the two lines printed
    for a rejected address is the one kept. *)
Definition pipeline_main (url : str) : M Z :=
  if negb (startswith url (lit "https://en.wikipedia.org/wiki/")) then
    print (LError (Exception (lit "URL must be a valid English Wikipedia article")));;
    ret 1
  else
    success <- run_pipeline groq GROQ_API_KEY wikipedia url;;
    ret (if success : bool then 0 else 1).

End PipelineMain.

(** ** What the further properties speak of *)

(** The calls to the completion service, with what was sent. *)
Definition requests (t : list event) : list (str * list (str * str)) :=
  flat_map (fun e => match e with EPost u m => [(u, m)] | _ => [] end) t.

Definition sum_of (zs : list Z) : Z := fold_right Z.add 0 zs.

(** The pauses of half a second that the orchestrator takes. *)
Definition is_throttle (e : event) : bool :=
  match e with ESleep d => Qeq_bool d (1 # 2) | _ => false end.

Definition throttles (t : list event) : nat := List.length (filter is_throttle t).

(** No whitespace in [s]. *)
Definition spaceless (s : str) : bool := forallb (fun c => negb (isspace c)) s.

(** A paragraph as the extraction keeps them, for the elements [all] of
    the page: the cleaned text of one of its paragraphs, significant
    and without the marks of boilerplate. *)
Definition kept_paragraph (is_decimal : char -> bool) (lower : str -> str)
    (all : list element) (p : str) : Prop :=
  is_content_significant p = true
  /\ is_boilerplate lower p = false
  /\ exists text, In (P text) all /\ p = clean_text is_decimal text.

Definition extraction_ok (is_decimal : char -> bool) (lower : str -> str)
    (all : list element) (st : extraction) : Prop :=
  Dict.wf (content_dict st)
  /\ forall key ps p,
       In (key, ps) (content_dict st) -> In p ps ->
       kept_paragraph is_decimal lower all p.

Definition is_h2 (el : element) : bool :=
  match el with H2 _ => true | _ => false end.

(** A word: not empty, and without whitespace. *)
Definition word (w : str) : Prop := w <> [] /\ spaceless w = true.

(** A summary as the orchestrator keeps them: not empty, and trimmed. *)
Definition kept_summary (s : str) : Prop := truthy s = true /\ strip s = s.

(** The text [format_markdown_output] aims at: heading, blank line,
    summary, with a blank line between entries. *)
Definition heading (section_name : str) : str :=
  if contains (lit ">") section_name
  then lit "### " ++ section_name
  else lit "## " ++ section_name.

Definition layout (summaries : Dict.t str) : str :=
  join (nl ++ nl) (flat_map (fun e => [heading (fst e); snd e]) summaries).

(** The heading as C10 words it: of level 3 when the character '>'
    (code point 62) is one of the characters of the key, of level 2
    otherwise. *)
Definition has_gt (section_name : str) : bool :=
  existsb (N.eqb 62) section_name.

Definition heading_by_gt (section_name : str) : str :=
  (if has_gt section_name then lit "### " else lit "## ") ++ section_name.

Module Page.

Definition ascii_digit (c : char) : bool := ((48 <=? c) && (c <=? 57))%N.

Definition ascii_lower (s : str) : str :=
  map (fun c => if ((65 <=? c) && (c <=? 90))%N then (c + 32)%N else c) s.

Definition early_life : str :=
  lit "  Alexander was born in Pella,[1] the capital of the Kingdom of
 Macedon,[23]   in 356 BC. ".

Definition campaigns : str :=
  lit "He spent most of his ruling years on a military campaign throughout Asia.".

Definition elements : list element :=
  [P early_life; H2 (lit "Early life[edit]"); P campaigns; H3 (lit "Youth");
   P early_life; H2 (lit "References"); P campaigns; H2 (lit "Legacy")].

End Page.

(** * Properties *)

(** ** Strings and dictionaries *)

Section StringFacts.

Lemma lstrip_head (s : str) :
  lstrip s = [] \/ exists c r, lstrip s = c :: r /\ isspace c = false.
Proof.
  induction s as [|c s IH]; simpl; [now left|].
  destruct (isspace c) eqn:E; [exact IH|].
  right. now exists c, s.
Qed.

Lemma rstrip_head (c : char) (s : str) :
  isspace c = false -> exists r, rstrip (c :: s) = c :: r.
Proof.
  intros E. simpl. destruct (rstrip s) as [|a r].
  - rewrite E. now exists [].
  - now exists (a :: r).
Qed.

Lemma rstrip_idem (s : str) : rstrip (rstrip s) = rstrip s.
Proof.
  induction s as [|c s IH]; simpl; [reflexivity|].
  destruct (rstrip s) as [|a r] eqn:E.
  - destruct (isspace c) eqn:Ec; simpl; [reflexivity|now rewrite Ec].
  - change (rstrip (c :: a :: r)) with
      (match rstrip (a :: r) with
       | [] => if isspace c then [] else [c]
       | x :: r' => c :: x :: r'
       end).
    now rewrite IH.
Qed.

Lemma lstrip_rstrip_lstrip (s : str) :
  lstrip (rstrip (lstrip s)) = rstrip (lstrip s).
Proof.
  destruct (lstrip_head s) as [E | (c & r & E & Hc)]; rewrite E.
  - reflexivity.
  - destruct (rstrip_head c r Hc) as [r' E']. rewrite E'.
    simpl. now rewrite Hc.
Qed.

Lemma strip_idem (s : str) : strip (strip s) = strip s.
Proof.
  unfold strip. rewrite lstrip_rstrip_lstrip. apply rstrip_idem.
Qed.

Lemma eqb_eq (a b : str) : Py.eqb a b = true <-> a = b.
Proof.
  unfold Py.eqb. destruct (list_eq_dec N.eq_dec a b); split; congruence.
Qed.

Lemma eqb_refl (a : str) : Py.eqb a a = true.
Proof. now apply eqb_eq. Qed.

(** A one-character needle is found exactly when the character occurs. *)
Lemma contains_char (c : char) (s : str) :
  contains [c] s = true <-> In c s.
Proof.
  induction s as [|a s IH]; simpl.
  - split; [discriminate|tauto].
  - rewrite orb_true_iff, IH. destruct s; simpl;
      rewrite andb_true_r, N.eqb_eq; intuition congruence.
Qed.

Lemma mem_In (k : str) (l : list str) : mem k l = true <-> In k l.
Proof.
  unfold mem. rewrite existsb_exists. split.
  - intros (x & Hx & E). apply eqb_eq in E. now subst.
  - intros H. exists k. split; [exact H|apply eqb_refl].
Qed.

Lemma keys_set_fresh {V} (d : Dict.t V) (k : str) (v : V) :
  ~ In k (Dict.keys d) -> Dict.keys (Dict.set d k v) = Dict.keys d ++ [k].
Proof.
  induction d as [|[k' v'] d IH]; simpl; intros H; [reflexivity|].
  destruct (Py.eqb k' k) eqn:E.
  - apply eqb_eq in E. tauto.
  - simpl. f_equal. apply IH. tauto.
Qed.

End StringFacts.

(** ** Traces *)

Section TraceFacts.

Lemma posts_app (a b : list event) : posts (a ++ b) = (posts a + posts b)%nat.
Proof. unfold posts. now rewrite filter_app, length_app. Qed.

Lemma sleeps_app (a b : list event) : sleeps (a ++ b) = sleeps a ++ sleeps b.
Proof. apply flat_map_app. Qed.

Lemma visited_app (a b : list event) : visited (a ++ b) = visited a ++ visited b.
Proof. apply flat_map_app. Qed.

Lemma summarized_app (a b : list event) :
  summarized (a ++ b) = summarized a ++ summarized b.
Proof. apply flat_map_app. Qed.

Lemma retry_events_quiet (evs : list event) :
  forallb is_retry_event evs = true ->
  visited evs = [] /\ summarized evs = []
  /\ filter is_network evs = filter is_post evs.
Proof.
  induction evs as [|e evs IH]; simpl; [auto|].
  rewrite andb_true_iff. intros [He H]. destruct (IH H) as (V & S & F).
  destruct e as [u m|u|d|l]; simpl in *; try discriminate;
    try (destruct l; try discriminate); rewrite ?V, ?S, ?F; auto.
Qed.

Lemma visited_processing (i total : Z) (n : str) (evs : list event) :
  visited (EPrint (LProcessing i total n) :: evs) = n :: visited evs.
Proof. reflexivity. Qed.

Lemma summarized_processing (i total : Z) (n : str) (evs : list event) :
  summarized (EPrint (LProcessing i total n) :: evs) = summarized evs.
Proof. reflexivity. Qed.

Lemma visited_sleep (d : Q) (evs : list event) :
  visited (ESleep d :: evs) = visited evs.
Proof. reflexivity. Qed.

Lemma summarized_sleep (d : Q) (evs : list event) :
  summarized (ESleep d :: evs) = summarized evs.
Proof. reflexivity. Qed.

Lemma after_nil (w : world) : after w [] = w.
Proof. destruct w. unfold after. simpl. now rewrite app_nil_r. Qed.

Lemma after_after (w : world) (a b : list event) :
  after (after w a) b = after w (a ++ b).
Proof. unfold after. simpl. now rewrite app_assoc. Qed.

Lemma emit_after (e : event) (w : world) : emit e w = (Ok tt, after w [e]).
Proof. reflexivity. Qed.

Lemma print_after (l : line) (w : world) : print l w = (Ok tt, after w [EPrint l]).
Proof. reflexivity. Qed.

Lemma time_sleep_after (z : Z) (w : world) :
  0 <= z -> time_sleep (inject_Z z) w = (Ok tt, after w [ESleep (inject_Z z)]).
Proof.
  intros H. unfold time_sleep. simpl.
  destruct (Z.ltb_spec z 0); [lia|reflexivity].
Qed.

End TraceFacts.

(** ** The retry loop *)

Section RetryLoop.

Variable groq : nat -> list (str * str) -> http_outcome.
Variable self : GroqSummarizer.
Hypothesis delay_nonneg : 0 <= base_delay self.

Lemma backoff_nonneg (attempt : Z) : 0 <= backoff self attempt.
Proof.
  unfold backoff. apply Z.mul_nonneg_nonneg; [exact delay_nonneg|].
  apply Z.pow_nonneg. lia.
Qed.

Lemma sleep_unless_last_after (attempt : Z) (announce : bool) (w : world) :
  sleep_unless_last self attempt announce w
  = (Ok tt, after w (unless_last self attempt announce)).
Proof.
  unfold sleep_unless_last, unless_last.
  destruct (attempt <? max_retries self - 1).
  - unfold bind. destruct announce.
    + rewrite print_after, time_sleep_after by apply backoff_nonneg.
      now rewrite after_after.
    + unfold ret. now rewrite time_sleep_after by apply backoff_nonneg.
  - unfold ret. now rewrite after_nil.
Qed.

(** What parsing the body of a 200 response raises is none of the
    exceptions the loop handles. *)
Lemma message_content_raises (v : json) (e : exn) :
  message_content v = Raise e ->
  e = KeyError \/ e = IndexError \/ e = TypeError \/ e = AttributeError.
Proof.
  assert (G : forall x k e', getitem x k = Raise e' ->
              e' = KeyError \/ e' = TypeError).
  { intros x k e'. unfold getitem. destruct x; try (intros [= <-]; auto).
    destruct (Dict.get d k); intros [= <-]; auto. }
  assert (G0 : forall x e', getitem0 x = Raise e' ->
               e' = KeyError \/ e' = IndexError \/ e' = TypeError).
  { intros x e'. unfold getitem0.
    destruct x as [| | |[|]|[|]|]; intros [= <-]; auto. }
  unfold message_content.
  destruct (getitem v _) as [choices|e1] eqn:E1;
    [|intros [= <-]; destruct (G _ _ _ E1) as [-> | ->]; auto].
  destruct (getitem0 choices) as [choice|e2] eqn:E2;
    [|intros [= <-]; destruct (G0 _ _ E2) as [-> | [-> | ->]]; auto].
  destruct (getitem choice _) as [message|e3] eqn:E3;
    [|intros [= <-]; destruct (G _ _ _ E3) as [-> | ->]; auto].
  destruct (getitem message _) as [content|e4] eqn:E4;
    [|intros [= <-]; destruct (G _ _ _ E4) as [-> | ->]; auto].
  unfold call_strip. destruct content; intros [= <-]; auto.
Qed.

Lemma attempt_body_after (messages : list (str * str)) (attempt : Z) (w : world) :
  let o := groq (posts (trace w)) messages in
  attempt_body groq self messages attempt w
  = (result_of (verdict_of o), after w (attempt_events self messages attempt o)).
Proof.
  intros o. subst o.
  unfold attempt_body, try_except, bind, requests_post, attempt_events, verdict_of.
  destruct (groq (posts (trace w)) messages) as [r| |msg].
  - destruct (status_code r =? 200).
    + unfold response_json. destruct (body r) as [v|].
      * unfold ret, lift. destruct (message_content v) as [s|e] eqn:E.
        -- reflexivity.
        -- destruct (message_content_raises v e E) as [-> | [-> | [-> | ->]]];
             reflexivity.
      * unfold raise, bind. rewrite print_after, sleep_unless_last_after.
        unfold ret, after. simpl. now rewrite <- !app_assoc.
    + destruct (status_code r =? 429).
      * rewrite print_after, time_sleep_after by apply backoff_nonneg.
        unfold ret, after. simpl. now rewrite <- !app_assoc.
      * rewrite print_after, sleep_unless_last_after.
        unfold ret, after. simpl. now rewrite <- !app_assoc.
  - unfold bind. rewrite print_after, sleep_unless_last_after.
    unfold ret, after. simpl. now rewrite <- !app_assoc.
  - unfold bind. rewrite print_after, sleep_unless_last_after.
    unfold ret, after. simpl. now rewrite <- !app_assoc.
Qed.

Lemma unless_last_retry (attempt : Z) (announce : bool) :
  forallb is_retry_event (unless_last self attempt announce) = true.
Proof.
  unfold unless_last. destruct (attempt <? max_retries self - 1), announce; reflexivity.
Qed.

Lemma attempt_events_retry (messages : list (str * str)) (attempt : Z)
    (o : http_outcome) :
  forallb is_retry_event (attempt_events self messages attempt o) = true.
Proof.
  unfold attempt_events. simpl.
  destruct o as [r| |msg];
    [destruct (status_code r =? 200);
     [destruct (body r)|destruct (status_code r =? 429)]| |];
    simpl; auto using unless_last_retry.
Qed.

Lemma attempt_events_posts (messages : list (str * str)) (attempt : Z)
    (o : http_outcome) :
  posts (attempt_events self messages attempt o) = 1%nat.
Proof.
  unfold attempt_events, posts.
  assert (U : forall b, filter is_post (unless_last self attempt b) = []).
  { intros b. unfold unless_last.
    destruct (attempt <? max_retries self - 1), b; reflexivity. }
  simpl.
  destruct o as [r| |msg];
    [destruct (status_code r =? 200);
     [destruct (body r)|destruct (status_code r =? 429)]| |];
    simpl; rewrite ?U; reflexivity.
Qed.

End RetryLoop.

Section RetryLoopRuns.

Variable groq : nat -> list (str * str) -> http_outcome.
Variable self : GroqSummarizer.
Variable messages : list (str * str).
Hypothesis delay_nonneg : 0 <= base_delay self.

Lemma length_range (n : Z) : List.length (range n) = Z.to_nat n.
Proof. unfold range. now rewrite length_map, length_seq. Qed.

Lemma range_three (n : Z) :
  3 <= n -> exists rest, range n = 0 :: 1 :: 2 :: rest.
Proof.
  intros H. unfold range.
  destruct (Z.to_nat n) as [|[|[|m]]] eqn:E; try lia.
  simpl. eauto.
Qed.

Lemma status_of_inv (o : http_outcome) (s : Z) :
  status_of o = Some s -> exists r, o = Responds r /\ status_code r = s.
Proof.
  destruct o as [r| |msg]; simpl; intros [= <-] || discriminate. eauto.
Qed.

(** One turn of the loop, by the verdict on its call. *)
Lemma retry_loop_cons (attempt : Z) (rest : list Z) (w : world) :
  retry_loop groq self messages (attempt :: rest) w
  = match verdict_of (groq (posts (trace w)) messages) with
    | Returns s =>
        (Ok (Some s),
         after w (attempt_events self messages attempt (groq (posts (trace w)) messages)))
    | NextAttempt =>
        retry_loop groq self messages rest
          (after w (attempt_events self messages attempt (groq (posts (trace w)) messages)))
    | Escapes e =>
        (Raise e,
         after w (attempt_events self messages attempt (groq (posts (trace w)) messages)))
    end.
Proof.
  simpl. unfold bind. rewrite attempt_body_after by assumption. cbv zeta.
  destruct (verdict_of (groq (posts (trace w)) messages)); reflexivity.
Qed.

Lemma posts_after_attempt (attempt : Z) (o : http_outcome) (w : world) :
  posts (trace (after w (attempt_events self messages attempt o)))
  = (posts (trace w) + 1)%nat.
Proof. simpl. now rewrite posts_app, attempt_events_posts. Qed.

(** A service that answers 500 to everything sends the loop through
    all its attempts, one call each. *)
Lemma retry_loop_all_500 :
  (forall k, status_of (groq k messages) = Some 500) ->
  forall attempts w,
  exists evs,
    retry_loop groq self messages attempts w = (Ok None, after w evs)
    /\ posts evs = List.length attempts
    /\ sleeps evs
       = map (fun a => inject_Z (backoff self a))
           (filter (fun a => a <? max_retries self - 1) attempts).
Proof.
  intros H500. induction attempts as [|a rest IH]; intros w.
  - exists []. simpl. unfold ret. now rewrite after_nil.
  - simpl. unfold bind. rewrite attempt_body_after by assumption. cbv zeta.
    destruct (status_of_inv _ _ (H500 (posts (trace w)))) as (r & E & Hr).
    rewrite E. unfold verdict_of. rewrite Hr. simpl result_of. cbv iota.
    destruct (IH (after w (attempt_events self messages a (Responds r))))
      as (evs & Hrun & Hposts & Hsleeps).
    exists (attempt_events self messages a (Responds r) ++ evs).
    rewrite Hrun, after_after. split; [reflexivity|]. split.
    + rewrite posts_app, attempt_events_posts, Hposts. reflexivity.
    + rewrite sleeps_app, Hsleeps. unfold attempt_events. rewrite Hr.
      simpl. unfold unless_last.
      destruct (a <? max_retries self - 1); reflexivity.
Qed.

End RetryLoopRuns.

(** ** Claims *)

(** C2. A section whose paragraphs, joined by blank lines and trimmed,
    have fewer characters than [min_section_length] (50 by default) is
    skipped: [summarize_section] returns [None], prints the too-short
    line and makes no remote call, whatever the service would answer. *)
Theorem summarize_section_too_short :
  forall groq self section_name paragraphs w,
    len (prepare_section_text paragraphs) < min_section_length self ->
    summarize_section groq self section_name paragraphs w
    = (Ok None,
       after w [EPrint (LSkipping section_name (len (prepare_section_text paragraphs)))])
    /\ posts (trace (snd (summarize_section groq self section_name paragraphs w)))
       = posts (trace w).
Proof.
  intros groq self name ps w H.
  assert (E : summarize_section groq self name ps w
              = (Ok None, after w [EPrint (LSkipping name (len (prepare_section_text ps)))])).
  { unfold summarize_section, is_section_valid.
    replace (strip (prepare_section_text ps)) with (prepare_section_text ps)
      by (unfold prepare_section_text; now rewrite strip_idem).
    destruct (Z.leb_spec (min_section_length self) (len (prepare_section_text ps)));
      [lia|reflexivity]. }
  split; [exact E|]. rewrite E. simpl. rewrite posts_app. unfold posts. simpl. lia.
Qed.

Lemma summarize_section_too_short_witness :
  len (prepare_section_text [lit "Short."]) < min_section_length (init (lit "key"))
  /\ summarize_section (Sample.always (Sample.reply 200 None)) (init (lit "key"))
       (lit "History > Early Life") [lit "Short."] Sample.world0
     = (Ok None, after Sample.world0 [EPrint (LSkipping (lit "History > Early Life") 6)]).
Proof.
  split; [reflexivity|].
  apply (summarize_section_too_short (Sample.always (Sample.reply 200 None))
           (init (lit "key")) (lit "History > Early Life") [lit "Short."]
           Sample.world0).
  reflexivity.
Defined.

(** C3. When every call is answered with HTTP 500, [call_groq_api] makes
    exactly [max_retries] calls (3 by default) and returns [None]; it
    sleeps for the backoff after each attempt but the last. *)
Theorem call_groq_api_all_500 :
  forall groq self messages w,
    0 <= base_delay self ->
    (forall k, status_of (groq k messages) = Some 500) ->
    exists w',
      call_groq_api groq self messages w = (Ok None, w')
      /\ posts (trace w') = (posts (trace w) + Z.to_nat (max_retries self))%nat
      /\ sleeps (trace w')
         = sleeps (trace w)
           ++ map (fun a => inject_Z (backoff self a))
                (filter (fun a => a <? max_retries self - 1) (range (max_retries self)))
      /\ files w' = files w.
Proof.
  intros groq self messages w Hd H500.
  destruct (retry_loop_all_500 groq self messages Hd H500
              (range (max_retries self)) w) as (evs & Hrun & Hposts & Hsleeps).
  exists (after w evs). unfold call_groq_api. rewrite Hrun.
  split; [reflexivity|]. simpl. rewrite posts_app, sleeps_app, Hposts, Hsleeps.
  now rewrite length_range.
Qed.

Lemma call_groq_api_all_500_witness :
  exists w',
    call_groq_api (Sample.always (Sample.reply 500 None)) (init (lit "key")) []
      Sample.world0 = (Ok None, w')
    /\ posts (trace w') = 3%nat
    /\ sleeps (trace w') = [inject_Z 1; inject_Z 2]
    /\ files w' = [].
Proof.
  apply (call_groq_api_all_500 (Sample.always (Sample.reply 500 None))
           (init (lit "key")) [] Sample.world0).
  - simpl. lia.
  - intros k. reflexivity.
Defined.

(** C4. Rate-limited (HTTP 429) on the first two calls and answered with
    a completion on the third, [call_groq_api] makes exactly three calls,
    sleeps [base_delay * 2^0] after the first and [base_delay * 2^1]
    after the second, and returns the trimmed content of the first
    choice's message. *)
Theorem call_groq_api_429_429_200 :
  forall groq self messages w r v choice others message content,
    0 <= base_delay self ->
    3 <= max_retries self ->
    status_of (groq (posts (trace w)) messages) = Some 429 ->
    status_of (groq (posts (trace w) + 1)%nat messages) = Some 429 ->
    groq (posts (trace w) + 2)%nat messages = Responds r ->
    status_code r = 200 ->
    body r = Some v ->
    getitem v (lit "choices") = Ok (JList (choice :: others)) ->
    getitem choice (lit "message") = Ok message ->
    getitem message (lit "content") = Ok (JStr content) ->
    call_groq_api groq self messages w
    = (Ok (Some (strip content)),
       after w
         [EPost (base_url self) messages;
          EPrint (LRateLimited (base_delay self * 2 ^ 0));
          ESleep (inject_Z (base_delay self * 2 ^ 0));
          EPost (base_url self) messages;
          EPrint (LRateLimited (base_delay self * 2 ^ 1));
          ESleep (inject_Z (base_delay self * 2 ^ 1));
          EPost (base_url self) messages]).
Proof.
  intros groq self messages w r v choice others message content
    Hd Hn H1 H2 H3 Hr Hb Hc Hm Hk.
  destruct (status_of_inv _ _ H1) as (r1 & E1 & S1).
  destruct (status_of_inv _ _ H2) as (r2 & E2 & S2).
  destruct (range_three _ Hn) as (rest & Erange).
  assert (Hv : message_content v = Ok (strip content)).
  { unfold message_content. rewrite Hc. simpl. now rewrite Hm, Hk. }
  unfold call_groq_api. rewrite Erange.
  rewrite retry_loop_cons by assumption. rewrite E1.
  unfold verdict_of at 1. rewrite S1. cbv iota beta. simpl (429 =? 200).
  cbv iota.
  rewrite retry_loop_cons by assumption.
  rewrite posts_after_attempt by assumption. rewrite E2.
  unfold verdict_of at 1. rewrite S2. simpl (429 =? 200). cbv iota.
  rewrite retry_loop_cons by assumption.
  rewrite !posts_after_attempt by assumption.
  replace (posts (trace w) + 1 + 1)%nat with (posts (trace w) + 2)%nat by lia.
  rewrite H3. unfold verdict_of, attempt_events. rewrite Hr, Hb, Hv, S1, S2.
  simpl. rewrite !after_after. reflexivity.
Qed.

Lemma call_groq_api_429_429_200_witness :
  call_groq_api Sample.twice_429 (init (lit "key")) [] Sample.world0
  = (Ok (Some (lit "A summary.")),
     after Sample.world0
       [EPost (base_url (init (lit "key"))) [];
        EPrint (LRateLimited 1); ESleep (inject_Z 1);
        EPost (base_url (init (lit "key"))) [];
        EPrint (LRateLimited 2); ESleep (inject_Z 2);
        EPost (base_url (init (lit "key"))) []]).
Proof.
  apply (call_groq_api_429_429_200 Sample.twice_429 (init (lit "key")) []
           Sample.world0
           {| status_code := 200; text := [];
              body := Some (Sample.completion (lit " A summary. ")) |}
           (Sample.completion (lit " A summary. "))
           (JDict [(lit "message", JDict [(lit "content", JStr (lit " A summary. "))])])
           []
           (JDict [(lit "content", JStr (lit " A summary. "))])
           (lit " A summary. "));
    try reflexivity; simpl; lia.
Defined.

(** ** One section, then all of them *)

Section Orchestrator.

Variable groq : nat -> list (str * str) -> http_outcome.
Variable self : GroqSummarizer.
Hypothesis delay_nonneg : 0 <= base_delay self.

(** However the service answers, the loop ends, having added only
    events of its own; what it returns or raises is the verdict on one
    of its calls. *)
Lemma retry_loop_cases (messages : list (str * str)) :
  forall attempts w,
  exists res evs,
    retry_loop groq self messages attempts w = (res, after w evs)
    /\ forallb is_retry_event evs = true
    /\ match res with
       | Ok None => True
       | Ok (Some s) => exists k, verdict_of (groq k messages) = Returns s
       | Raise e => exists k, verdict_of (groq k messages) = Escapes e
       end.
Proof.
  induction attempts as [|a rest IH]; intros w.
  - exists (Ok None), []. simpl. unfold ret. now rewrite after_nil.
  - rewrite retry_loop_cons by assumption.
    set (o := groq (posts (trace w)) messages).
    destruct (verdict_of o) as [s| |e] eqn:V.
    + exists (Ok (Some s)), (attempt_events self messages a o).
      split; [reflexivity|]. split; [apply attempt_events_retry|].
      now exists (posts (trace w)).
    + destruct (IH (after w (attempt_events self messages a o)))
        as (res & evs & Hrun & Hq & Hres).
      exists res, (attempt_events self messages a o ++ evs).
      rewrite Hrun, after_after. split; [reflexivity|].
      split; [|exact Hres].
      rewrite forallb_app, Hq. now rewrite attempt_events_retry.
    + exists (Raise e), (attempt_events self messages a o).
      split; [reflexivity|]. split; [apply attempt_events_retry|].
      now exists (posts (trace w)).
Qed.

(** [summarize_section], whatever the service answers. *)
Lemma summarize_section_cases (section_name : str) (paragraphs : list str) (w : world) :
  exists res evs,
    summarize_section groq self section_name paragraphs w = (res, after w evs)
    /\ visited evs = []
    /\ match res with
       | Ok (Some s) =>
           truthy s = true /\ summarized evs = [section_name]
           /\ too_short self (section_name, paragraphs) = false
           /\ exists k,
                verdict_of (groq k (create_prompt (prepare_section_text paragraphs)))
                = Returns s
       | Ok None => summarized evs = []
       | Raise e =>
           summarized evs = []
           /\ too_short self (section_name, paragraphs) = false
           /\ exists k,
                verdict_of (groq k (create_prompt (prepare_section_text paragraphs)))
                = Escapes e
       end.
Proof.
  unfold summarize_section, too_short. simpl snd.
  destruct (is_section_valid self (prepare_section_text paragraphs)) eqn:V;
    cbn [negb].
  2:{ exists (Ok None), [EPrint (LSkipping section_name
                                 (len (prepare_section_text paragraphs)))].
      repeat split; reflexivity. }
  unfold bind. rewrite print_after. unfold call_groq_api.
  destruct (retry_loop_cases (create_prompt (prepare_section_text paragraphs))
              (range (max_retries self)) (after w [EPrint (LCalling section_name)]))
    as (res & evs & Hrun & Hq & Hres).
  rewrite Hrun. destruct (retry_events_quiet evs Hq) as (Hv & Hs & _).
  destruct res as [[s|]|e].
  - destruct (truthy s) eqn:T.
    + rewrite print_after. unfold ret. rewrite !after_after.
      exists (Ok (Some s)), ([EPrint (LCalling section_name)] ++ evs
                             ++ [EPrint (LSummarized section_name)]).
      split; [reflexivity|].
      rewrite !visited_app, !summarized_app, Hv, Hs. simpl.
      destruct Hres as [k Hk]. repeat split; eauto.
    + rewrite print_after. unfold ret. rewrite !after_after.
      exists (Ok None), ([EPrint (LCalling section_name)] ++ evs
                         ++ [EPrint (LFailedToSummarize section_name)]).
      split; [reflexivity|].
      rewrite !visited_app, !summarized_app, Hv, Hs. now simpl.
  - rewrite print_after. unfold ret. rewrite !after_after.
    exists (Ok None), ([EPrint (LCalling section_name)] ++ evs
                       ++ [EPrint (LFailedToSummarize section_name)]).
    split; [reflexivity|].
    rewrite !visited_app, !summarized_app, Hv, Hs. now simpl.
  - rewrite after_after.
    exists (Raise e), ([EPrint (LCalling section_name)] ++ evs).
    split; [reflexivity|].
    rewrite !visited_app, !summarized_app, Hv, Hs. simpl.
    destruct Hres as [k Hk]. repeat split; eauto.
Qed.

(** One turn of the loop over the sections. *)
Lemma sections_loop_cons (total : Z) (section_name : str) (paragraphs : list str)
    (rest : list (str * list str)) (summaries : Dict.t str) (processed : Z) (w : world) :
  sections_loop groq self total ((section_name, paragraphs) :: rest) summaries processed w
  = match summarize_section groq self section_name paragraphs
            (after w [EPrint (LProcessing (processed + 1) total section_name)]) with
    | (Ok (Some s), w1) =>
        if truthy s
        then sections_loop groq self total rest
               (Dict.set summaries section_name s) (processed + 1)
               (after w1 [ESleep (1 # 2)])
        else sections_loop groq self total rest summaries processed
               (after w1 [ESleep (1 # 2)])
    | (Ok None, w1) =>
        sections_loop groq self total rest summaries processed
          (after w1 [ESleep (1 # 2)])
    | (Raise e, w1) => (Raise e, w1)
    end.
Proof.
  simpl. unfold bind at 1. rewrite print_after. unfold bind at 1.
  destruct (summarize_section groq self section_name paragraphs _)
    as [[[s|]|e] w1]; [destruct (truthy s)| |]; reflexivity.
Qed.

Lemma load_json_data_found (filepath : str) (data : Dict.t (list str)) (w : world) :
  Dict.get (files w) filepath = Some (FJson data) ->
  load_json_data filepath w
  = (Ok data, after w [EPrint (LLoaded filepath (Z.of_nat (List.length data)))]).
Proof.
  intros H. unfold load_json_data, bind, read_file. rewrite H.
  now rewrite print_after.
Qed.

Lemma mem_cons (k n : str) (l : list str) :
  mem k (n :: l) = Py.eqb k n || mem k l.
Proof. reflexivity. Qed.

Lemma filter_mem_hit (n : str) (succ l : list str) :
  ~ In n l ->
  succ = filter (fun k => mem k succ) l ->
  n :: succ = filter (fun k => mem k (n :: succ)) (n :: l).
Proof.
  intros Hn Hs. cbn [filter]. rewrite mem_cons, eqb_refl. cbn [orb]. f_equal.
  rewrite Hs at 1. apply filter_ext_in. intros k Hk.
  rewrite mem_cons. destruct (Py.eqb k n) eqn:E; [|reflexivity].
  apply eqb_eq in E. subst. tauto.
Qed.

Lemma filter_mem_miss (n : str) (succ l : list str) :
  ~ In n l ->
  succ = filter (fun k => mem k succ) l ->
  succ = filter (fun k => mem k succ) (n :: l).
Proof.
  intros Hn Hs. cbn [filter]. destruct (mem n succ) eqn:E; [|exact Hs].
  apply mem_In in E. rewrite Hs in E. apply filter_In in E. tauto.
Qed.

(** The loop over the sections when no answer of the service lets an
    exception out: every section is announced, in order, and the keys
    added to the summaries are the sections reported as summarized. *)
Lemma sections_loop_order (total : Z) :
  (forall k m, escapes (groq k m) = false) ->
  forall items summaries processed w,
    NoDup (Dict.keys items) ->
    (forall k, In k (Dict.keys summaries) -> ~ In k (Dict.keys items)) ->
    exists sm p evs,
      sections_loop groq self total items summaries processed w
      = (Ok (sm, p), after w evs)
      /\ visited evs = Dict.keys items
      /\ Dict.keys sm = Dict.keys summaries ++ summarized evs
      /\ summarized evs = filter (fun k => mem k (summarized evs)) (Dict.keys items)
      /\ p = processed + Z.of_nat (List.length (summarized evs)).
Proof.
  intros Hesc. induction items as [|[n ps] rest IH]; intros sm0 p0 w Hnd Hfresh.
  - exists sm0, p0, []. simpl. unfold ret.
    rewrite after_nil, app_nil_r, Z.add_0_r. auto.
  - rewrite sections_loop_cons by assumption.
    simpl in Hnd. apply NoDup_cons_iff in Hnd. destruct Hnd as [Hn Hnd].
    destruct (summarize_section_cases n ps
                (after w [EPrint (LProcessing (p0 + 1) total n)]))
      as (res & evs1 & Hrun & Hv1 & Hres).
    rewrite Hrun. destruct res as [[s|]|e].
    + destruct Hres as (T & Hs1 & _). rewrite T.
      assert (Hn0 : ~ In n (Dict.keys sm0)).
      { intros Hin. apply (Hfresh n Hin). simpl. now left. }
      destruct (IH (Dict.set sm0 n s) (p0 + 1)
                  (after (after (after w [EPrint (LProcessing (p0 + 1) total n)]) evs1)
                     [ESleep (1 # 2)]) Hnd)
        as (sm & p & evs & Hloop & Hv & Hk & Hf & Hp).
      { intros k. rewrite keys_set_fresh by assumption.
        rewrite in_app_iff. simpl. intros [Hin|[<-|[]]]; [|exact Hn].
        intros Hr. apply (Hfresh k Hin). simpl. now right. }
      exists sm, p,
        ([EPrint (LProcessing (p0 + 1) total n)] ++ evs1 ++ [ESleep (1 # 2)] ++ evs).
      rewrite Hloop, !after_after.
      cbn [app]. rewrite visited_processing, summarized_processing.
      rewrite !visited_app, !summarized_app, Hv1, Hs1.
      rewrite visited_sleep, summarized_sleep, Hv. cbn [app].
      split; [reflexivity|].
      split; [reflexivity|].
      split; [rewrite Hk, keys_set_fresh by assumption; now rewrite <- app_assoc|].
      split; [now apply filter_mem_hit|].
      rewrite Hp. cbn [List.length]. lia.
    + destruct (IH sm0 p0
                  (after (after (after w [EPrint (LProcessing (p0 + 1) total n)]) evs1)
                     [ESleep (1 # 2)]) Hnd)
        as (sm & p & evs & Hloop & Hv & Hk & Hf & Hp).
      { intros k Hin Hr. apply (Hfresh k Hin). simpl. now right. }
      exists sm, p,
        ([EPrint (LProcessing (p0 + 1) total n)] ++ evs1 ++ [ESleep (1 # 2)] ++ evs).
      rewrite Hloop, !after_after.
      cbn [app]. rewrite visited_processing, summarized_processing.
      rewrite !visited_app, !summarized_app, Hv1, Hres.
      rewrite visited_sleep, summarized_sleep, Hv. cbn [app].
      split; [reflexivity|].
      split; [reflexivity|].
      split; [exact Hk|].
      split; [now apply filter_mem_miss|exact Hp].
    + destruct Hres as (_ & _ & k & Hk).
      specialize (Hesc k (create_prompt (prepare_section_text ps))).
      unfold escapes in Hesc. rewrite Hk in Hesc. discriminate.
Qed.

(** The loop over the sections when no section can succeed: nothing
    is added to the summaries. *)
Lemma sections_loop_none (total : Z) :
  forall items summaries processed w,
    Forall (hopeless groq self) items ->
    exists evs,
      sections_loop groq self total items summaries processed w
      = (Ok (summaries, processed), after w evs)
      /\ visited evs = Dict.keys items
      /\ summarized evs = [].
Proof.
  induction items as [|[n ps] rest IH]; intros sm0 p0 w H.
  - exists []. simpl. unfold ret. now rewrite after_nil.
  - rewrite sections_loop_cons by assumption.
    destruct (summarize_section_cases n ps
                (after w [EPrint (LProcessing (p0 + 1) total n)]))
      as (res & evs1 & Hrun & Hv1 & Hres).
    rewrite Hrun.
    apply Forall_cons_iff in H. destruct H as [H Hrest].
    destruct res as [[s|]|e].
    + exfalso. destruct Hres as (T & _ & Hts & k & Hk).
      destruct H as [H|H].
      * rewrite H in Hts. discriminate.
      * specialize (H k). cbn [snd] in H. unfold fails_quietly in H.
        rewrite Hk, T in H. discriminate.
    + destruct (IH sm0 p0
                  (after (after (after w [EPrint (LProcessing (p0 + 1) total n)]) evs1)
                     [ESleep (1 # 2)]) Hrest)
        as (evs & Hloop & Hv & Hs).
      exists ([EPrint (LProcessing (p0 + 1) total n)] ++ evs1 ++ [ESleep (1 # 2)] ++ evs).
      rewrite Hloop, !after_after.
      cbn [app]. rewrite visited_processing, summarized_processing.
      rewrite !visited_app, !summarized_app, Hv1, Hres.
      rewrite visited_sleep, summarized_sleep, Hv, Hs. cbn [app].
      split; [reflexivity|]. split; reflexivity.
    + exfalso. destruct Hres as (_ & Hts & k & Hk).
      destruct H as [H|H].
      * rewrite H in Hts. discriminate.
      * specialize (H k). cbn [snd] in H. unfold fails_quietly in H.
        rewrite Hk in H. discriminate.
Qed.

End Orchestrator.

Section Batch.

Variable groq : nat -> list (str * str) -> http_outcome.
Variable self : GroqSummarizer.

(** [save_markdown], by its path. *)
Lemma save_markdown_cases (content filepath : str) (w : world) :
  save_markdown content filepath w
  = match save_failure filepath with
    | Some e => (Raise e, w)
    | None =>
        (Ok tt,
         {| trace := trace w ++ [EPrint (LSaved filepath)];
            files := Dict.set (files w) filepath (FText content) |})
    end.
Proof.
  unfold save_markdown, save_failure, os_makedirs, open_write, try_except, bind.
  destruct (truthy (dirname filepath)); cbn [negb]; [|reflexivity].
  destruct (contains [0%N] (dirname filepath)); [reflexivity|]. unfold ret.
  destruct (contains [0%N] filepath); [reflexivity|].
  destruct (Py.eqb (basename filepath) [] || Py.eqb (basename filepath) (lit ".")
            || Py.eqb (basename filepath) (lit "..")); reflexivity.
Qed.

(** [process_all_sections] once its loop has gone through. *)
Lemma process_all_sections_after_loop (input_file output_file : str)
    (data : Dict.t (list str)) (w : world) (sm : Dict.t str) (p : Z)
    (evs : list event) :
  Dict.get (files w) input_file = Some (FJson data) ->
  sections_loop groq self (Z.of_nat (List.length data)) data [] 0
    (after w [EPrint (LLoaded input_file (Z.of_nat (List.length data)))])
  = (Ok (sm, p),
     after w (EPrint (LLoaded input_file (Z.of_nat (List.length data))) :: evs)) ->
  process_all_sections groq self input_file output_file w
  = if Dict.truthy sm then
      match save_failure output_file with
      | Some e =>
          (Raise e,
           after w (EPrint (LLoaded input_file (Z.of_nat (List.length data))) :: evs
                    ++ [EPrint (LProcessed p (Z.of_nat (List.length data)))]))
      | None =>
          (Ok sm,
           {| trace :=
                trace w
                ++ EPrint (LLoaded input_file (Z.of_nat (List.length data))) :: evs
                ++ [EPrint (LProcessed p (Z.of_nat (List.length data)));
                    EPrint (LSaved output_file);
                    EPrint (LCompleted p (len (format_markdown_output self sm)))];
              files := Dict.set (files w) output_file
                         (FText (format_markdown_output self sm)) |})
      end
    else
      (Ok sm,
       after w (EPrint (LLoaded input_file (Z.of_nat (List.length data))) :: evs
                ++ [EPrint (LProcessed p (Z.of_nat (List.length data)));
                    EPrint LNoSections])).
Proof.
  intros Hfile Hloop. unfold process_all_sections. unfold bind at 1.
  rewrite (load_json_data_found _ _ _ Hfile). unfold bind at 1.
  rewrite Hloop. unfold bind at 1. rewrite print_after, after_after.
  destruct (Dict.truthy sm).
  - unfold bind at 1. unfold bind at 1. rewrite save_markdown_cases.
    destruct (save_failure output_file) as [e|].
    + cbn [app]. reflexivity.
    + unfold bind, print, emit, ret, after. simpl.
      rewrite <- !app_assoc. cbn [app]. now rewrite <- !app_assoc.
  - unfold bind. rewrite print_after, after_after. unfold ret.
    cbn [app]. now rewrite <- ?app_assoc.
Qed.

End Batch.

(** C5. On the input [S1, S2, S3], with a service whose first answer is
    a completion and whose second is a 200 with the body [{}], the
    orchestrator announces S1 and S2 and never S3: the [KeyError] of
    reading the second answer leaves [process_all_sections], so that no
    mapping is returned, S1's summary included, and no file is written.
    With the second section failing on 500 answers instead, the same
    input gives the mapping of S1 and S3, in that order. *)
Theorem malformed_answer_cuts_the_visit :
  (let '(res, w') :=
     process_all_sections Sample.second_malformed (init (lit "key"))
       json_file markdown_file (Sample.with_input Sample.three_sections) in
   res = Raise KeyError
   /\ visited (trace w') = [lit "S1"; lit "S2"]
   /\ summarized (trace w') = [lit "S1"]
   /\ posts (trace w') = 2%nat
   /\ files w' = files (Sample.with_input Sample.three_sections))
  /\ (let '(res, w') :=
        process_all_sections Sample.first_only (init (lit "key"))
          json_file markdown_file (Sample.with_input Sample.three_sections) in
      res = Ok [(lit "S1", lit "First."); (lit "S3", lit "Third.")]
      /\ visited (trace w') = Dict.keys Sample.three_sections).
Proof. vm_compute. repeat split. Qed.

(** The run of the example: of S1, S2, S3, the second fails after three
    attempts, and the output has S1 and S3, in that order. *)
Example three_sections_middle_fails :
  let '(res, w') :=
    process_all_sections Sample.first_only (init (lit "key")) json_file markdown_file
      (Sample.with_input Sample.three_sections) in
  res = Ok [(lit "S1", lit "First."); (lit "S3", lit "Third.")]
  /\ visited (trace w') = [lit "S1"; lit "S2"; lit "S3"]
  /\ posts (trace w') = 5%nat.
Proof. vm_compute. repeat split. Qed.

(** C7. On an input of a section too short to be sent and a section
    whose call is answered by a 200 with the body [{"choices": []}], no
    section is summarized and no file is written, and the run is
    unsuccessful: [main] returns 1 and step 3 of the pipeline returns
    [False].  But [process_all_sections] returns no mapping: the
    [IndexError] of reading the answer leaves it, and is stopped only by
    its two callers. *)
Theorem zero_summaries_by_malformed_answer :
  let groq := Sample.always Sample.no_choices in
  let w := Sample.with_input Sample.short_then_long in
  let '(res, w') :=
    process_all_sections groq (init (lit "key")) json_file markdown_file w in
  res = Raise IndexError
  /\ visited (trace w') = [lit "A"; lit "B"]
  /\ summarized (trace w') = []
  /\ posts (trace w') = 1%nat
  /\ files w' = files w
  /\ main groq (Some (lit "key")) w = (Ok 1, after w' [EPrint (LError IndexError)])
  /\ step_3_summarization groq (lit "key") w
     = (Ok false, after w' [EPrint (LSummarizationFailed IndexError)]).
Proof. vm_compute. repeat split. Qed.

(** The empty input: nothing is visited, nothing is written, the run is
    unsuccessful. *)
Example empty_input_unsuccessful :
  main (Sample.always (Sample.reply 200 (Some (Sample.completion (lit "Fine.")))))
    (Some (lit "key")) (Sample.with_input [])
  = (Ok 1,
     after (Sample.with_input [])
       [EPrint (LLoaded json_file 0); EPrint (LProcessed 0 0); EPrint LNoSections]).
Proof. reflexivity. Qed.

(** C1. A 200 answer whose body has no ["choices"] makes the subscript
    raise [KeyError] inside the retry loop, where no handler takes it:
    it leaves [call_groq_api], [summarize_section] and
    [process_all_sections], the section B is never visited, and only
    [main] stops it, returning 1. *)
Theorem malformed_completion_aborts_batch :
  exists w',
    process_all_sections (Sample.always (Sample.reply 200 (Some (JDict []))))
      (init (lit "key")) json_file markdown_file (Sample.with_input Sample.two_sections)
    = (Raise KeyError, w')
    /\ visited (trace w') = [lit "A"]
    /\ posts (trace w') = 1%nat
    /\ files w' = files (Sample.with_input Sample.two_sections)
    /\ main (Sample.always (Sample.reply 200 (Some (JDict []))))
         (Some (lit "key")) (Sample.with_input Sample.two_sections)
       = (Ok 1, after w' [EPrint (LError KeyError)]).
Proof.
  eexists. split; [vm_compute; reflexivity|]. vm_compute. repeat split.
Qed.

(** ** The formatter *)

Section Formatter.

Lemma output_lines_cons (entry : str * str) (rest : Dict.t str) :
  output_lines (entry :: rest) = entry_lines entry ++ output_lines rest.
Proof. reflexivity. Qed.

Lemma rstrip_app (a s : str) :
  rstrip s <> [] -> rstrip (a ++ s) = a ++ rstrip s.
Proof.
  intros H. induction a as [|c a IH]; [reflexivity|].
  simpl. rewrite IH. destruct (a ++ rstrip s) eqn:E; [|reflexivity].
  apply app_eq_nil in E. tauto.
Qed.

End Formatter.

(** C6. The key "A>B" is a top-level key: it does not hold the path
    separator " > ".  The formatter gives it a level-3 heading all the
    same, where the branch it takes is the one commented as the
    subsection's. *)
Theorem top_level_key_with_gt_gets_level_3 :
  contains (lit " > ") (lit "A>B") = false
  /\ format_markdown_output (init (lit "key")) [(lit "A>B", lit "Summary text.")]
     = lit "### A>B" ++ nl ++ nl ++ lit "Summary text.".
Proof. split; reflexivity. Qed.

(** C9. The formatter is a function of the mapping alone: it reads
    nothing of the summarizer it is called on and nothing of the world,
    so two applications to one mapping give the same text. *)
Theorem format_markdown_output_deterministic :
  forall self self' summaries,
    format_markdown_output self summaries = format_markdown_output self' summaries.
Proof. intros self self' summaries. reflexivity. Qed.

(** ** The credential *)

Section Credential.

Variable groq : nat -> list (str * str) -> http_outcome.

(** The pipeline object is built without an event. *)
Lemma WikiPipeline_built (url : str) (w : world) : WikiPipeline url w = (Ok tt, w).
Proof. reflexivity. Qed.

Lemma load_environment_absent (key : option str) (w : world) :
  key_absent key = true ->
  load_environment key w = (Raise missing_key_error, w).
Proof.
  destruct key as [[|c k]|]; simpl; intros H; try discriminate; reflexivity.
Qed.

Lemma step_2_absent (key : option str) (w : world) :
  key_absent key = true ->
  step_2_load_api_key key w
  = (Raise missing_key_error, after w [EPrint (LKeyFailed missing_key_error)]).
Proof.
  intros H. unfold step_2_load_api_key, try_except, bind.
  rewrite (load_environment_absent key w H). now rewrite print_after.
Qed.

(** Step 1 makes no call to the completion service and does not raise. *)
Lemma step_1_no_post (wikipedia : str -> fetch_result) (url : str) (w : world) :
  exists b w',
    step_1_scraping wikipedia url w = (Ok b, w')
    /\ posts (trace w') = posts (trace w)
    /\ (forall content,
          wikipedia url = Fetched (ContentArea content) ->
          b = true
          /\ trace w'
             = trace w
               ++ [EGet url; EPrint (LScrapingDone (Z.of_nat (List.length content)))]).
Proof.
  unfold step_1_scraping, try_except, bind, scrape, fetch_page, bind.
  rewrite emit_after.
  destruct (wikipedia url) as [msg|[|content]] eqn:E.
  - eexists _, _. split; [reflexivity|]. split.
    + simpl. rewrite !posts_app. unfold posts. simpl. lia.
    + intros c [=].
  - eexists _, _. split; [reflexivity|]. split.
    + simpl. rewrite !posts_app. unfold posts. simpl. lia.
    + intros c [=].
  - eexists _, _. split; [reflexivity|]. split.
    + simpl. rewrite !posts_app. unfold posts. simpl. lia.
    + intros c [= <-]. split; [reflexivity|]. simpl.
      now rewrite <- app_assoc.
Qed.

End Credential.

(** C8, as stated, fails on the pipeline: with the key absent, the
    article is fetched (a network call) before the credential is looked
    up. *)
Lemma pipeline_fetches_before_key_check :
  trace (snd (run_pipeline (Sample.always TimesOut) None
                (fun _ => Fetched (ContentArea Sample.two_sections))
                Sample.article Sample.world0))
  = [EGet Sample.article; EPrint (LScrapingDone 2); ESleep (inject_Z 1);
     EPrint (LKeyFailed missing_key_error); EPrint (LUnexpected missing_key_error);
     EPrint (LReport false)]
  /\ ~ (forall groq wikipedia url w,
          filter is_network (trace (snd (run_pipeline groq None wikipedia url w)))
          = filter is_network (trace w)).
Proof.
  split; [reflexivity|]. intros H.
  specialize (H (Sample.always TimesOut)
                (fun _ => Fetched (ContentArea Sample.two_sections))
                Sample.article Sample.world0).
  vm_compute in H. discriminate.
Qed.

(** C8, amended.  With the key absent (unset or empty), no call to the
    completion service is ever made.  [main] of the summarizer reports
    the missing key, by its message, before any network activity and
    returns 1.  The pipeline returns [False]; it fetches the article
    first (step 1), and when that succeeds it reports the missing key
    right after the pause that follows. *)
Theorem missing_key_no_completion_call :
  forall groq key wikipedia url w,
    key_absent key = true ->
    main groq key w = (Ok 1, after w [EPrint (LError missing_key_error)])
    /\ fst (run_pipeline groq key wikipedia url w) = Ok false
    /\ posts (trace (snd (run_pipeline groq key wikipedia url w))) = posts (trace w)
    /\ (forall content,
          wikipedia url = Fetched (ContentArea content) ->
          trace (snd (run_pipeline groq key wikipedia url w))
          = trace w
            ++ [EGet url; EPrint (LScrapingDone (Z.of_nat (List.length content)));
                ESleep (inject_Z 1);
                EPrint (LKeyFailed missing_key_error);
                EPrint (LUnexpected missing_key_error);
                EPrint (LReport false)]).
Proof.
  intros groq key wikipedia url w Habs.
  split.
  { unfold main, try_except, bind.
    rewrite (load_environment_absent key w Habs). now rewrite print_after. }
  destruct (step_1_no_post wikipedia url w) as (b & w1 & H1 & Hp & Hc).
  assert (R : run_pipeline groq key wikipedia url w
              = (Ok false,
                 if b then
                   after w1 [ESleep (inject_Z 1);
                             EPrint (LKeyFailed missing_key_error);
                             EPrint (LUnexpected missing_key_error);
                             EPrint (LReport false)]
                 else after w1 [EPrint (LReport false)])).
  { unfold run_pipeline. unfold bind at 1. rewrite WikiPipeline_built.
    unfold try_except. unfold bind at 1. rewrite H1.
    destruct b; cbn [negb].
    - unfold bind at 1.
      change (time_sleep (inject_Z 1) w1) with (Ok tt, after w1 [ESleep (inject_Z 1)]).
      unfold bind at 1. rewrite (step_2_absent key _ Habs).
      unfold bind, generate_pipeline_report. rewrite !print_after, !after_after.
      reflexivity.
    - unfold bind, generate_pipeline_report. rewrite print_after. reflexivity. }
  rewrite R. cbn [fst snd]. split; [reflexivity|]. split.
  - destruct b; cbn [after trace]; rewrite posts_app, Hp; unfold posts at 2;
      simpl; lia.
  - intros content Hw. destruct (Hc content Hw) as [-> Ht].
    cbn [after trace]. rewrite Ht. now rewrite <- app_assoc.
Qed.

Lemma missing_key_no_completion_call_witness :
  key_absent None = true
  /\ main (Sample.always TimesOut) None Sample.world0
     = (Ok 1, after Sample.world0 [EPrint (LError missing_key_error)]).
Proof.
  split; [reflexivity|].
  apply (missing_key_no_completion_call (Sample.always TimesOut) None
           (fun _ => Fetched (ContentArea Sample.two_sections))
           Sample.article Sample.world0).
  reflexivity.
Defined.


(** * Further properties *)

(** ** The retry loop, whatever the service answers *)

Section RetryLoopBounds.

Variable groq : nat -> list (str * str) -> http_outcome.
Variable self : GroqSummarizer.
Variable messages : list (str * str).
Hypothesis delay_nonneg : 0 <= base_delay self.

Lemma requests_app (a b : list event) : requests (a ++ b) = requests a ++ requests b.
Proof. apply flat_map_app. Qed.

Lemma unless_last_quiet (attempt : Z) (announce : bool) :
  requests (unless_last self attempt announce) = []
  /\ (sleeps (unless_last self attempt announce) = []
      \/ sleeps (unless_last self attempt announce)
         = [inject_Z (backoff self attempt)]).
Proof.
  unfold unless_last.
  destruct (attempt <? max_retries self - 1), announce; simpl; auto.
Qed.

Lemma attempt_events_requests (attempt : Z) (o : http_outcome) :
  requests (attempt_events self messages attempt o) = [(base_url self, messages)].
Proof.
  unfold attempt_events.
  change (requests (?e :: ?l)) with (requests [e] ++ requests l).
  destruct o as [r| |msg];
    [destruct (status_code r =? 200);
     [destruct (body r)|destruct (status_code r =? 429)]| |];
    simpl; rewrite ?(proj1 (unless_last_quiet attempt _)); reflexivity.
Qed.

(** One turn sleeps once for the backoff of its attempt, or not at all. *)
Lemma attempt_events_sleeps (attempt : Z) (o : http_outcome) :
  sleeps (attempt_events self messages attempt o) = []
  \/ sleeps (attempt_events self messages attempt o)
     = [inject_Z (backoff self attempt)].
Proof.
  unfold attempt_events.
  destruct o as [r| |msg];
    [destruct (status_code r =? 200);
     [destruct (body r)|destruct (status_code r =? 429)]| |];
    simpl; auto; apply unless_last_quiet.
Qed.

Lemma sum_of_app (a b : list Z) : sum_of (a ++ b) = sum_of a + sum_of b.
Proof. induction a as [|x a IH]; simpl; [reflexivity|]. rewrite IH. lia. Qed.

Lemma retry_loop_general :
  forall attempts w,
  exists res evs zs,
    retry_loop groq self messages attempts w = (res, after w evs)
    /\ forallb is_retry_event evs = true
    /\ requests evs = repeat (base_url self, messages) (posts evs)
    /\ (posts evs <= List.length attempts)%nat
    /\ (attempts <> [] -> (1 <= posts evs)%nat)
    /\ (res = Ok None -> posts evs = List.length attempts)
    /\ sleeps evs = map inject_Z zs
    /\ Forall (fun z => 0 <= z) zs
    /\ sum_of zs <= sum_of (map (backoff self) attempts)
    /\ match res with
       | Ok None => True
       | Ok (Some s) =>
           exists k, (posts (trace w) <= k)%nat
                     /\ verdict_of (groq k messages) = Returns s
       | Raise e =>
           exists k, (posts (trace w) <= k)%nat
                     /\ verdict_of (groq k messages) = Escapes e
       end.
Proof.
  induction attempts as [|a rest IH]; intros w.
  - exists (Ok None), [], []. simpl. unfold ret. rewrite after_nil.
    repeat split; auto; try lia. congruence.
  - rewrite retry_loop_cons by assumption.
    set (o := groq (posts (trace w)) messages).
    pose proof (attempt_events_retry self messages a o) as Hq.
    pose proof (attempt_events_posts self messages a o) as Hp.
    pose proof (attempt_events_requests a o) as Hr.
    pose proof (backoff_nonneg self delay_nonneg a) as Hb.
    assert (Hs : exists zs, sleeps (attempt_events self messages a o) = map inject_Z zs
                            /\ Forall (fun z => 0 <= z) zs
                            /\ sum_of zs <= backoff self a).
    { destruct (attempt_events_sleeps a o) as [E|E]; rewrite E.
      - exists []. simpl. auto.
      - exists [backoff self a]. simpl. repeat split; auto. lia. }
    destruct Hs as (zs1 & Hs1 & Hz1 & Hsum1).
    assert (Hrest : 0 <= sum_of (map (backoff self) rest)).
    { clear - delay_nonneg. induction rest as [|x l IHl]; simpl; [lia|].
      pose proof (backoff_nonneg self delay_nonneg x). lia. }
    destruct (verdict_of o) as [s| |e] eqn:V.
    + exists (Ok (Some s)), (attempt_events self messages a o), zs1.
      rewrite Hp, Hr. simpl.
      repeat split; auto; try lia; try discriminate.
      exists (posts (trace w)). auto.
    + destruct (IH (after w (attempt_events self messages a o)))
        as (res & evs & zs & Hrun & Hq' & Hr' & Hle & Hge & Hnone & Hs' & Hz' & Hsum & Hres).
      exists res, (attempt_events self messages a o ++ evs), (zs1 ++ zs).
      rewrite Hrun, after_after, forallb_app, Hq, Hq', requests_app, Hr, Hr'.
      rewrite posts_app, Hp, sleeps_app, Hs1, Hs', map_app, sum_of_app.
      simpl. repeat split; auto; try lia.
      * apply Forall_app. auto.
      * rewrite posts_after_attempt in Hres by assumption.
        destruct res as [[s|]|e]; auto;
          destruct Hres as (k & Hk & Hv); exists k; split; auto; lia.
    + exists (Raise e), (attempt_events self messages a o), zs1.
      rewrite Hp, Hr. simpl.
      repeat split; auto; try lia; try discriminate.
      exists (posts (trace w)). auto.
Qed.

(** The backoffs of all the attempts together. *)
Lemma backoff_range (n : nat) :
  sum_of (map (backoff self) (map Z.of_nat (seq 0 n)))
  = base_delay self * (2 ^ Z.of_nat n - 1).
Proof.
  induction n as [|n IH]; [simpl; lia|].
  rewrite seq_S, !map_app, sum_of_app, IH.
  change (sum_of (map (backoff self) (map Z.of_nat [(0 + n)%nat])))
    with (backoff self (Z.of_nat n) + 0).
  unfold backoff. rewrite Nat2Z.inj_succ, Z.pow_succ_r by lia. lia.
Qed.

(** A turn that fails before the last attempt sleeps for its backoff. *)
Lemma attempt_events_sleeps_retry (attempt : Z) (o : http_outcome) :
  verdict_of o = NextAttempt ->
  attempt < max_retries self - 1 ->
  sleeps (attempt_events self messages attempt o)
  = [inject_Z (backoff self attempt)].
Proof.
  intros V Ha. unfold attempt_events, unless_last.
  destruct (Z.ltb_spec attempt (max_retries self - 1)); [|lia].
  unfold verdict_of in V.
  destruct o as [r| |msg]; [|reflexivity|reflexivity].
  destruct (status_code r =? 200).
  - destruct (body r) as [v|]; [|reflexivity].
    destruct (message_content v); discriminate.
  - destruct (status_code r =? 429); reflexivity.
Qed.

(** The loop when the calls fail [j] times and then succeed. *)
Lemma retry_loop_first_success (s : str) :
  forall j attempts w,
    (j < List.length attempts)%nat ->
    Forall (fun a => a < max_retries self - 1) (firstn j attempts) ->
    (forall i, (i < j)%nat ->
               verdict_of (groq (posts (trace w) + i) messages) = NextAttempt) ->
    verdict_of (groq (posts (trace w) + j) messages) = Returns s ->
    exists evs,
      retry_loop groq self messages attempts w = (Ok (Some s), after w evs)
      /\ posts evs = S j
      /\ sleeps evs = map (fun a => inject_Z (backoff self a)) (firstn j attempts).
Proof.
  induction j as [|j IH]; intros [|a rest] w Hlen Hlast Hfail Hok;
    simpl in Hlen; try lia; rewrite retry_loop_cons by assumption.
  - rewrite Nat.add_0_r in Hok. rewrite Hok.
    eexists. split; [reflexivity|]. split; [apply attempt_events_posts|].
    unfold attempt_events, verdict_of in *.
    destruct (groq (posts (trace w)) messages) as [r| |msg]; try discriminate.
    destruct (status_code r =? 200); [|discriminate].
    destruct (body r); [reflexivity|discriminate].
  - specialize (Hfail 0%nat ltac:(lia)) as H0. rewrite Nat.add_0_r in H0.
    rewrite H0. cbn [firstn] in Hlast. apply Forall_cons_iff in Hlast.
    destruct Hlast as [Ha Hlast].
    destruct (IH rest (after w (attempt_events self messages a
                                  (groq (posts (trace w)) messages))))
      as (evs & Hrun & Hp & Hs).
    + lia.
    + exact Hlast.
    + intros i Hi. rewrite posts_after_attempt by assumption.
      replace (posts (trace w) + 1 + i)%nat with (posts (trace w) + S i)%nat by lia.
      apply Hfail. lia.
    + rewrite posts_after_attempt by assumption.
      replace (posts (trace w) + 1 + j)%nat with (posts (trace w) + S j)%nat by lia.
      exact Hok.
    + eexists. rewrite Hrun, after_after. split; [reflexivity|]. split.
      * rewrite posts_app, attempt_events_posts, Hp. reflexivity.
      * rewrite sleeps_app, Hs, (attempt_events_sleeps_retry a _ H0 Ha).
        reflexivity.
Qed.

(** The loop when every call is rate-limited. *)
Lemma retry_loop_all_429 :
  (forall k, status_of (groq k messages) = Some 429) ->
  forall attempts w,
  exists evs,
    retry_loop groq self messages attempts w = (Ok None, after w evs)
    /\ posts evs = List.length attempts
    /\ sleeps evs = map (fun a => inject_Z (backoff self a)) attempts.
Proof.
  intros H429. induction attempts as [|a rest IH]; intros w.
  - exists []. simpl. unfold ret. now rewrite after_nil.
  - rewrite retry_loop_cons by assumption.
    destruct (status_of_inv _ _ (H429 (posts (trace w)))) as (r & E & Hr).
    rewrite E. unfold verdict_of. rewrite Hr. simpl (429 =? 200). cbv iota.
    destruct (IH (after w (attempt_events self messages a (Responds r))))
      as (evs & Hrun & Hposts & Hsleeps).
    exists (attempt_events self messages a (Responds r) ++ evs).
    rewrite Hrun, after_after. split; [reflexivity|]. split.
    + rewrite posts_app, attempt_events_posts, Hposts. reflexivity.
    + rewrite sleeps_app, Hsleeps. unfold attempt_events. rewrite Hr.
      reflexivity.
Qed.

End RetryLoopBounds.

Lemma verdict_escapes_kind (o : http_outcome) (e : exn) :
  verdict_of o = Escapes e ->
  e = KeyError \/ e = IndexError \/ e = TypeError \/ e = AttributeError.
Proof.
  unfold verdict_of. destruct o as [r| |msg]; try discriminate.
  destruct (status_code r =? 200); [|discriminate].
  destruct (body r) as [v|]; [|discriminate].
  destruct (message_content v) as [s|e'] eqn:E; [discriminate|].
  intros [= <-]. exact (message_content_raises v e' E).
Qed.

Lemma firstn_seq_le (j : nat) :
  forall start len, (j <= len)%nat -> firstn j (seq start len) = seq start j.
Proof.
  induction j as [|j IH]; intros start [|len] H; simpl; try reflexivity; try lia.
  f_equal. apply IH. lia.
Qed.

Lemma range_prefix (j : nat) (n : Z) :
  Z.of_nat j < n ->
  (j < List.length (range n))%nat
  /\ firstn j (range n) = range (Z.of_nat j)
  /\ Forall (fun a => a < n - 1) (range (Z.of_nat j)).
Proof.
  intros H. rewrite length_range. split; [lia|]. unfold range. split.
  - rewrite firstn_map, firstn_seq_le, Nat2Z.id by lia. reflexivity.
  - rewrite Nat2Z.id. apply Forall_forall. intros a Ha.
    apply in_map_iff in Ha. destruct Ha as (i & <- & Hi).
    apply in_seq in Hi. lia.
Qed.

(** X1. Whatever the service answers, [call_groq_api] makes at most
    [max_retries] calls (and at least one when [max_retries] is
    positive), every one of them to [base_url] with the messages it was
    given; it returns [None] only after all [max_retries] calls; and
    the only exceptions it lets out are those of reading a 200 body of
    an unexpected shape. *)
Theorem call_groq_api_bounded :
  forall groq self messages w,
    0 <= base_delay self ->
    exists res evs,
      call_groq_api groq self messages w = (res, after w evs)
      /\ (posts evs <= Z.to_nat (max_retries self))%nat
      /\ (1 <= max_retries self -> (1 <= posts evs)%nat)
      /\ requests evs = repeat (base_url self, messages) (posts evs)
      /\ (res = Ok None -> posts evs = Z.to_nat (max_retries self))
      /\ (forall e, res = Raise e ->
            e = KeyError \/ e = IndexError \/ e = TypeError \/ e = AttributeError).
Proof.
  intros groq self messages w Hd.
  destruct (retry_loop_general groq self messages Hd (range (max_retries self)) w)
    as (res & evs & zs & Hrun & _ & Hreq & Hle & Hge & Hnone & _ & _ & _ & Hres).
  rewrite length_range in *.
  exists res, evs. unfold call_groq_api. rewrite Hrun.
  repeat split; auto.
  - intros Hn. apply Hge. intros E.
    apply (f_equal (@List.length Z)) in E. rewrite length_range in E.
    simpl in E. lia.
  - intros e ->. destruct Hres as (k & _ & Hk).
    exact (verdict_escapes_kind _ _ Hk).
Qed.

Lemma call_groq_api_bounded_witness :
  exists res evs,
    call_groq_api Sample.twice_429 (init (lit "key")) [] Sample.world0
    = (res, after Sample.world0 evs)
    /\ (posts evs <= 3)%nat
    /\ (1 <= 3 -> (1 <= posts evs)%nat)
    /\ requests evs = repeat (base_url (init (lit "key")), []) (posts evs)
    /\ (res = Ok None -> posts evs = 3%nat)
    /\ (forall e, res = Raise e ->
          e = KeyError \/ e = IndexError \/ e = TypeError \/ e = AttributeError).
Proof.
  apply (call_groq_api_bounded Sample.twice_429 (init (lit "key")) [] Sample.world0).
  simpl. lia.
Defined.

(** X2. Whatever the service answers, the sleeps of [call_groq_api] are
    whole numbers of seconds, none negative, and together they last at
    most [base_delay * (2 ^ max_retries - 1)] seconds. *)
Theorem call_groq_api_backoff_bound :
  forall groq self messages w,
    0 <= base_delay self ->
    0 <= max_retries self ->
    exists zs,
      sleeps (trace (snd (call_groq_api groq self messages w)))
      = sleeps (trace w) ++ map inject_Z zs
      /\ Forall (fun z => 0 <= z) zs
      /\ sum_of zs <= base_delay self * (2 ^ max_retries self - 1).
Proof.
  intros groq self messages w Hd Hn.
  destruct (retry_loop_general groq self messages Hd (range (max_retries self)) w)
    as (res & evs & zs & Hrun & _ & _ & _ & _ & _ & Hs & Hz & Hsum & _).
  exists zs. unfold call_groq_api. rewrite Hrun. simpl.
  rewrite sleeps_app, Hs. repeat split; auto.
  unfold range in Hsum. rewrite backoff_range, Z2Nat.id in Hsum by assumption.
  exact Hsum.
Qed.

Lemma call_groq_api_backoff_bound_witness :
  exists zs,
    sleeps (trace (snd (call_groq_api (Sample.always TimesOut) (init (lit "key")) []
                          Sample.world0)))
    = sleeps (trace Sample.world0) ++ map inject_Z zs
    /\ Forall (fun z => 0 <= z) zs
    /\ sum_of zs <= 1 * (2 ^ 3 - 1).
Proof.
  apply (call_groq_api_backoff_bound (Sample.always TimesOut) (init (lit "key")) []
           Sample.world0); simpl; lia.
Defined.

(** X3. When every call fails in a way the loop retries (a status other
    than 200, a timeout, a transport error, a 200 whose body is not
    JSON), in any mixture, [call_groq_api] makes exactly [max_retries]
    calls and returns [None]. *)
Theorem call_groq_api_exhausts :
  forall groq self messages w,
    0 <= base_delay self ->
    (forall k, verdict_of (groq k messages) = NextAttempt) ->
    exists evs,
      call_groq_api groq self messages w = (Ok None, after w evs)
      /\ posts evs = Z.to_nat (max_retries self).
Proof.
  intros groq self messages w Hd Hall.
  destruct (retry_loop_general groq self messages Hd (range (max_retries self)) w)
    as (res & evs & zs & Hrun & _ & _ & _ & _ & Hnone & _ & _ & _ & Hres).
  assert (E : res = Ok None).
  { destruct res as [[s|]|e]; [| reflexivity |];
      destruct Hres as (k & _ & Hk); rewrite Hall in Hk; discriminate. }
  subst res. exists evs. unfold call_groq_api. rewrite Hrun.
  split; [reflexivity|]. rewrite (Hnone eq_refl). apply length_range.
Qed.

Lemma call_groq_api_exhausts_witness :
  exists evs,
    call_groq_api
      (fun k _ => match k with
                  | 0%nat => TimesOut
                  | 1%nat => Sample.reply 200 None
                  | _ => Fails (lit "connection reset")
                  end)
      (init (lit "key")) [] Sample.world0
    = (Ok None, after Sample.world0 evs)
    /\ posts evs = 3%nat.
Proof.
  apply (call_groq_api_exhausts
           (fun k _ => match k with
                       | 0%nat => TimesOut
                       | 1%nat => Sample.reply 200 None
                       | _ => Fails (lit "connection reset")
                       end)
           (init (lit "key")) [] Sample.world0).
  - simpl. lia.
  - intros [|[|k]]; reflexivity.
Defined.

(** X4. When the first [j] calls fail in a way the loop retries and the
    next one, still within [max_retries], is a 200 with a readable
    completion, [call_groq_api] returns its trimmed content after
    exactly [j + 1] calls, having slept [base_delay * 2 ^ i] after the
    failed attempt [i], for each [i] below [j]. *)
Theorem call_groq_api_first_success :
  forall groq self messages w j s,
    0 <= base_delay self ->
    Z.of_nat j < max_retries self ->
    (forall i, (i < j)%nat ->
               verdict_of (groq (posts (trace w) + i)%nat messages) = NextAttempt) ->
    verdict_of (groq (posts (trace w) + j)%nat messages) = Returns s ->
    exists evs,
      call_groq_api groq self messages w = (Ok (Some s), after w evs)
      /\ posts evs = S j
      /\ sleeps evs = map (fun a => inject_Z (backoff self a)) (range (Z.of_nat j)).
Proof.
  intros groq self messages w j s Hd Hj Hfail Hok.
  destruct (range_prefix j (max_retries self) Hj) as (Hlen & Hfirst & Hlast).
  destruct (retry_loop_first_success groq self messages Hd s j
              (range (max_retries self)) w Hlen) as (evs & Hrun & Hp & Hs); auto.
  - rewrite Hfirst. exact Hlast.
  - exists evs. unfold call_groq_api. rewrite Hrun, Hs, Hfirst. auto.
Qed.

Lemma call_groq_api_first_success_witness :
  exists evs,
    call_groq_api Sample.twice_429 (init (lit "key")) [] Sample.world0
    = (Ok (Some (lit "A summary.")), after Sample.world0 evs)
    /\ posts evs = 3%nat
    /\ sleeps evs
       = map (fun a => inject_Z (backoff (init (lit "key")) a)) (range (Z.of_nat 2)).
Proof.
  apply (call_groq_api_first_success Sample.twice_429 (init (lit "key")) []
           Sample.world0 2 (lit "A summary.")).
  - simpl. lia.
  - simpl. lia.
  - intros [|[|i]] Hi; try reflexivity. lia.
  - reflexivity.
Defined.

(** X5. When every call is rate-limited (HTTP 429), [call_groq_api]
    makes [max_retries] calls, returns [None], and sleeps for the backoff
    after every attempt, the last one included: [base_delay * 2 ^ i]
    after attempt [i], for each [i] below [max_retries]. *)
Theorem call_groq_api_all_429 :
  forall groq self messages w,
    0 <= base_delay self ->
    (forall k, status_of (groq k messages) = Some 429) ->
    exists evs,
      call_groq_api groq self messages w = (Ok None, after w evs)
      /\ posts evs = Z.to_nat (max_retries self)
      /\ sleeps evs
         = map (fun a => inject_Z (backoff self a)) (range (max_retries self)).
Proof.
  intros groq self messages w Hd H429.
  destruct (retry_loop_all_429 groq self messages Hd H429
              (range (max_retries self)) w) as (evs & Hrun & Hp & Hs).
  exists evs. unfold call_groq_api. rewrite Hrun, Hp, Hs, length_range. auto.
Qed.

Lemma call_groq_api_all_429_witness :
  exists evs,
    call_groq_api (Sample.always (Sample.reply 429 None)) (init (lit "key")) []
      Sample.world0
    = (Ok None, after Sample.world0 evs)
    /\ posts evs = 3%nat
    /\ sleeps evs = [inject_Z 1; inject_Z 2; inject_Z 4].
Proof.
  apply (call_groq_api_all_429 (Sample.always (Sample.reply 429 None))
           (init (lit "key")) [] Sample.world0).
  - simpl. lia.
  - intros k. reflexivity.
Defined.

(** ** One section and the batch, whatever the service answers *)

Section BatchGeneral.

Variable groq : nat -> list (str * str) -> http_outcome.
Variable self : GroqSummarizer.
Hypothesis delay_nonneg : 0 <= base_delay self.

Lemma message_content_trimmed (v : json) (s : str) :
  message_content v = Ok s -> strip s = s.
Proof.
  unfold message_content.
  destruct (getitem v _) as [choices|]; [|discriminate].
  destruct (getitem0 choices) as [choice|]; [|discriminate].
  destruct (getitem choice _) as [message|]; [|discriminate].
  destruct (getitem message _) as [content|]; [|discriminate].
  unfold call_strip. destruct content; try discriminate.
  intros [= <-]. apply strip_idem.
Qed.

Lemma verdict_returns_trimmed (o : http_outcome) (s : str) :
  verdict_of o = Returns s -> strip s = s.
Proof.
  unfold verdict_of. destruct o as [r| |msg]; try discriminate.
  destruct (status_code r =? 200); [|discriminate].
  destruct (body r) as [v|]; [|discriminate].
  destruct (message_content v) as [s'|] eqn:E; [|discriminate].
  intros [= <-]. exact (message_content_trimmed v s' E).
Qed.

(** [summarize_section], whatever the service answers. *)
Lemma summarize_section_general (section_name : str) (paragraphs : list str) (w : world) :
  exists res evs,
    summarize_section groq self section_name paragraphs w = (res, after w evs)
    /\ visited evs = []
    /\ (posts evs <= Z.to_nat (max_retries self))%nat
    /\ requests evs
       = repeat (base_url self, create_prompt (prepare_section_text paragraphs))
           (posts evs)
    /\ match res with
       | Ok (Some s) =>
           kept_summary s /\ too_short self (section_name, paragraphs) = false
       | Ok None => True
       | Raise e =>
           e = KeyError \/ e = IndexError \/ e = TypeError \/ e = AttributeError
       end.
Proof.
  unfold summarize_section, too_short. simpl snd.
  destruct (is_section_valid self (prepare_section_text paragraphs)) eqn:V;
    cbn [negb].
  2:{ exists (Ok None), [EPrint (LSkipping section_name
                                 (len (prepare_section_text paragraphs)))].
      repeat split; try reflexivity. unfold posts. simpl. lia. }
  unfold bind. rewrite print_after. unfold call_groq_api.
  destruct (retry_loop_general groq self
              (create_prompt (prepare_section_text paragraphs)) delay_nonneg
              (range (max_retries self)) (after w [EPrint (LCalling section_name)]))
    as (res & evs & zs & Hrun & Hq & Hreq & Hle & _ & _ & _ & _ & _ & Hres).
  rewrite length_range in Hle.
  rewrite Hrun. destruct (retry_events_quiet evs Hq) as (Hv & _ & _).
  assert (Hfront : forall tail,
             visited tail = [] -> requests tail = [] -> posts tail = 0%nat ->
             visited ([EPrint (LCalling section_name)] ++ evs ++ tail) = []
             /\ (posts ([EPrint (LCalling section_name)] ++ evs ++ tail)
                 <= Z.to_nat (max_retries self))%nat
             /\ requests ([EPrint (LCalling section_name)] ++ evs ++ tail)
                = repeat (base_url self, create_prompt (prepare_section_text paragraphs))
                    (posts ([EPrint (LCalling section_name)] ++ evs ++ tail))).
  { intros tail T1 T2 T3.
    rewrite !visited_app, !requests_app, !posts_app, Hv, T1, T2, T3, Hreq.
    change (posts [EPrint (LCalling section_name)]) with 0%nat.
    simpl. rewrite Nat.add_0_r, app_nil_r. repeat split; auto. }
  destruct res as [[s|]|e].
  - destruct Hres as (k & _ & Hk). destruct (truthy s) eqn:T.
    + rewrite print_after. unfold ret. rewrite !after_after.
      exists (Ok (Some s)), ([EPrint (LCalling section_name)] ++ evs
                             ++ [EPrint (LSummarized section_name)]).
      split; [reflexivity|].
      destruct (Hfront [EPrint (LSummarized section_name)] eq_refl eq_refl eq_refl)
        as (F1 & F2 & F3).
      repeat split; auto. exact (verdict_returns_trimmed _ _ Hk).
    + rewrite print_after. unfold ret. rewrite !after_after.
      exists (Ok None), ([EPrint (LCalling section_name)] ++ evs
                         ++ [EPrint (LFailedToSummarize section_name)]).
      split; [reflexivity|].
      destruct (Hfront [EPrint (LFailedToSummarize section_name)]
                  eq_refl eq_refl eq_refl) as (F1 & F2 & F3).
      repeat split; auto.
  - rewrite print_after. unfold ret. rewrite !after_after.
    exists (Ok None), ([EPrint (LCalling section_name)] ++ evs
                       ++ [EPrint (LFailedToSummarize section_name)]).
    split; [reflexivity|].
    destruct (Hfront [EPrint (LFailedToSummarize section_name)]
                eq_refl eq_refl eq_refl) as (F1 & F2 & F3).
    repeat split; auto.
  - rewrite after_after.
    exists (Raise e), ([EPrint (LCalling section_name)] ++ evs).
    split; [reflexivity|].
    destruct (Hfront [] eq_refl eq_refl eq_refl) as (F1 & F2 & F3).
    rewrite app_nil_r in F1, F2, F3.
    repeat split; auto. destruct Hres as (k & _ & Hk).
    exact (verdict_escapes_kind _ _ Hk).
Qed.

Lemma set_In {V} (d : Dict.t V) (k k' : str) (v v' : V) :
  In (k, v) (Dict.set d k' v') -> (k, v) = (k', v') \/ In (k, v) d.
Proof.
  induction d as [|[k0 v0] d IH]; simpl.
  - intros [H|[]]. left. congruence.
  - destruct (Py.eqb k0 k') eqn:E; simpl.
    + apply eqb_eq in E. subst. intros [H|H]; [left; congruence|auto].
    + intros [H|H]; [auto|]. destruct (IH H); auto.
Qed.

Lemma keys_set {V} (d : Dict.t V) (k : str) (v : V) :
  Dict.keys (Dict.set d k v) = Dict.keys d
  \/ (~ In k (Dict.keys d) /\ Dict.keys (Dict.set d k v) = Dict.keys d ++ [k]).
Proof.
  induction d as [|[k0 v0] d IH]; simpl.
  - right. tauto.
  - destruct (Py.eqb k0 k) eqn:E; simpl; [now left|].
    destruct IH as [IH|[Hn IH]]; rewrite IH; [now left|].
    right. split; [|reflexivity]. intros [H|H]; [|tauto].
    subst. rewrite eqb_refl in E. discriminate.
Qed.

Lemma set_wf {V} (d : Dict.t V) (k : str) (v : V) :
  Dict.wf d -> Dict.wf (Dict.set d k v).
Proof.
  unfold Dict.wf. intros H. destruct (keys_set d k v) as [E|[Hn E]]; rewrite E.
  - exact H.
  - apply NoDup_app; [exact H|repeat constructor; simpl; tauto|].
    intros x Hx [<-|[]]. tauto.
Qed.

Lemma set_length {V} (d : Dict.t V) (k : str) (v : V) :
  (List.length (Dict.set d k v) <= S (List.length d))%nat.
Proof.
  induction d as [|[k0 v0] d IH]; simpl; [lia|].
  destruct (Py.eqb k0 k); simpl; lia.
Qed.

(** The loop over the sections, whatever the service answers. *)
Lemma sections_loop_general (total : Z) :
  forall items sm0 p0 w,
  exists res evs,
    sections_loop groq self total items sm0 p0 w = (res, after w evs)
    /\ (posts evs <= List.length items * Z.to_nat (max_retries self))%nat
    /\ match res with
       | Ok (sm, p) =>
           (forall k v,
               In (k, v) sm ->
               In (k, v) sm0
               \/ (kept_summary v
                   /\ exists ps, In (k, ps) items /\ too_short self (k, ps) = false))
           /\ (Dict.wf sm0 -> Dict.wf sm)
           /\ (List.length sm <= List.length sm0 + List.length items)%nat
           /\ visited evs = Dict.keys items
       | Raise e =>
           e = KeyError \/ e = IndexError \/ e = TypeError \/ e = AttributeError
       end.
Proof.
  induction items as [|[n ps] rest IH]; intros sm0 p0 w.
  - exists (Ok (sm0, p0)), []. simpl. unfold ret. rewrite after_nil.
    repeat split; auto. lia.
  - rewrite sections_loop_cons by assumption.
    destruct (summarize_section_general n ps
                (after w [EPrint (LProcessing (p0 + 1) total n)]))
      as (res1 & evs1 & Hrun & Hv1 & Hp1 & _ & Hres1).
    rewrite Hrun.
    assert (Hstep : forall sm1 p1,
               (forall k v, In (k, v) sm1 ->
                            In (k, v) sm0
                            \/ (kept_summary v
                                /\ exists ps', In (k, ps') ((n, ps) :: rest)
                                               /\ too_short self (k, ps') = false)) ->
               (Dict.wf sm0 -> Dict.wf sm1) ->
               (List.length sm1 <= S (List.length sm0))%nat ->
               exists res evs,
                 sections_loop groq self total rest sm1 p1
                   (after (after (after w [EPrint (LProcessing (p0 + 1) total n)]) evs1)
                      [ESleep (1 # 2)])
                 = (res, after w evs)
                 /\ (posts evs
                     <= List.length ((n, ps) :: rest) * Z.to_nat (max_retries self))%nat
                 /\ match res with
                    | Ok (sm, p) =>
                        (forall k v,
                            In (k, v) sm ->
                            In (k, v) sm0
                            \/ (kept_summary v
                                /\ exists ps', In (k, ps') ((n, ps) :: rest)
                                               /\ too_short self (k, ps') = false))
                        /\ (Dict.wf sm0 -> Dict.wf sm)
                        /\ (List.length sm
                            <= List.length sm0 + List.length ((n, ps) :: rest))%nat
                        /\ visited evs = Dict.keys ((n, ps) :: rest)
                    | Raise e =>
                        e = KeyError \/ e = IndexError \/ e = TypeError
                        \/ e = AttributeError
                    end).
    { intros sm1 p1 Hin Hwf Hlen.
      destruct (IH sm1 p1
                  (after (after (after w [EPrint (LProcessing (p0 + 1) total n)]) evs1)
                     [ESleep (1 # 2)]))
        as (res & evs & Hloop & Hp & Hres).
      exists res,
        ([EPrint (LProcessing (p0 + 1) total n)] ++ evs1 ++ [ESleep (1 # 2)] ++ evs).
      rewrite Hloop, !after_after. split; [now rewrite <- ?app_assoc|]. split.
      - rewrite !posts_app.
        change (posts [EPrint (LProcessing (p0 + 1) total n)]) with 0%nat.
        change (posts [ESleep (1 # 2)]) with 0%nat.
        cbn [List.length]. lia.
      - destruct res as [[sm p]|e]; [|exact Hres].
        destruct Hres as (Hin' & Hwf' & Hlen' & Hv').
        split; [|split; [|split]].
        + intros k v Hkv. destruct (Hin' k v Hkv) as [H|(Hk & ps' & Hps & Hts)].
          * auto.
          * right. split; [exact Hk|]. exists ps'. split; [now right|exact Hts].
        + auto.
        + cbn [List.length]. lia.
        + cbn [app]. rewrite visited_processing, !visited_app, Hv1, visited_sleep, Hv'.
          reflexivity. }
    destruct res1 as [[s|]|e].
    + destruct Hres1 as ((T & Hstrip) & Hts). rewrite T.
      apply Hstep.
      * intros k v Hkv. destruct (set_In _ _ _ _ _ Hkv) as [[= -> ->]|H]; [|auto].
        right. split; [split; assumption|]. exists ps. split; [now left|exact Hts].
      * intros H. now apply set_wf.
      * apply set_length.
    + apply Hstep; auto.
    + exists (Raise e), ([EPrint (LProcessing (p0 + 1) total n)] ++ evs1).
      rewrite after_after. split; [reflexivity|]. split; [|exact Hres1].
      rewrite posts_app.
      change (posts [EPrint (LProcessing (p0 + 1) total n)]) with 0%nat.
      cbn [List.length]. lia.
Qed.

(** [process_all_sections] on an input file that holds a mapping. *)
Lemma process_all_sections_general (input_file output_file : str)
    (data : Dict.t (list str)) (w : world) :
  Dict.get (files w) input_file = Some (FJson data) ->
  exists res w' evs,
    process_all_sections groq self input_file output_file w = (res, w')
    /\ trace w' = trace w ++ evs
    /\ (posts evs <= List.length data * Z.to_nat (max_retries self))%nat
    /\ match res with
       | Ok sm =>
           (forall k v,
               In (k, v) sm ->
               kept_summary v
               /\ exists ps, In (k, ps) data /\ too_short self (k, ps) = false)
           /\ Dict.wf sm
           /\ (List.length sm <= List.length data)%nat
           /\ visited evs = Dict.keys data
           /\ files w'
              = (if Dict.truthy sm
                 then Dict.set (files w) output_file
                        (FText (format_markdown_output self sm))
                 else files w)
           /\ (Dict.truthy sm = true -> save_failure output_file = None)
       | Raise e =>
           files w' = files w
           /\ ((e = KeyError \/ e = IndexError \/ e = TypeError \/ e = AttributeError)
               \/ save_failure output_file = Some e)
       end.
Proof.
  intros Hfile.
  set (loaded := EPrint (LLoaded input_file (Z.of_nat (List.length data)))).
  destruct (sections_loop_general (Z.of_nat (List.length data)) data [] 0
              (after w [loaded])) as (res & evs & Hloop & Hp & Hres).
  rewrite after_after in Hloop. cbn [app] in Hloop.
  destruct res as [[sm p]|e].
  - pose proof (process_all_sections_after_loop groq self input_file output_file
                  data w sm p evs Hfile Hloop) as Hrun.
    fold loaded in Hrun. rewrite Hrun.
    destruct Hres as (Hin & Hwf & Hlen & Hv).
    assert (Hin' : forall k v, In (k, v) sm ->
                     kept_summary v
                     /\ exists ps, In (k, ps) data /\ too_short self (k, ps) = false).
    { intros k v Hkv. destruct (Hin k v Hkv) as [[]|H]. exact H. }
    assert (Hwf' : Dict.wf sm) by (apply Hwf; constructor).
    assert (Hposts : forall tail,
               posts tail = 0%nat ->
               (posts (loaded :: evs ++ tail)
                <= List.length data * Z.to_nat (max_retries self))%nat).
    { intros tail Ht. change (loaded :: evs ++ tail) with ([loaded] ++ evs ++ tail).
      rewrite !posts_app, Ht. unfold posts at 1. simpl. lia. }
    assert (Hvis : forall tail,
               visited tail = [] -> visited (loaded :: evs ++ tail) = Dict.keys data).
    { intros tail Ht. change (loaded :: evs ++ tail) with ([loaded] ++ evs ++ tail).
      rewrite !visited_app, Hv, Ht. simpl. now rewrite app_nil_r. }
    destruct (Dict.truthy sm) eqn:T; [destruct (save_failure output_file) as [e|] eqn:S|].
    + eexists (Raise e), _, _. split; [reflexivity|]. split; [reflexivity|].
      split; [now apply Hposts|]. split; [reflexivity|now right].
    + eexists (Ok sm), _, _. split; [reflexivity|]. split; [reflexivity|].
      split; [now apply Hposts|].
      rewrite T. split; [exact Hin'|]. split; [exact Hwf'|].
      split; [simpl in Hlen; lia|]. split; [now apply Hvis|]. split; reflexivity.
    + eexists (Ok sm), _, _. split; [reflexivity|]. split; [reflexivity|].
      split; [now apply Hposts|].
      rewrite T. split; [exact Hin'|]. split; [exact Hwf'|].
      split; [simpl in Hlen; lia|]. split; [now apply Hvis|].
      split; [reflexivity|discriminate].
  - exists (Raise e), (after w (loaded :: evs)), (loaded :: evs).
    split.
    + unfold process_all_sections. unfold bind at 1.
      rewrite (load_json_data_found _ _ _ Hfile). unfold bind at 1.
      fold loaded. rewrite Hloop. reflexivity.
    + split; [reflexivity|]. split; [|split; [reflexivity|left; exact Hres]].
      change (loaded :: evs) with ([loaded] ++ evs).
      rewrite posts_app. unfold posts at 1. simpl. lia.
Qed.

End BatchGeneral.

(** X6. Whatever the service answers, [summarize_section] makes at most
    [max_retries] calls, each one to [base_url] with the two-message
    prompt built from the section's joined and trimmed text; what it
    returns is [None] or a summary that is not empty and is trimmed, the
    latter only for a section that is not too short; and the only
    exceptions it lets out are those of reading a 200 body of an
    unexpected shape. *)
Theorem summarize_section_outcome :
  forall groq self section_name paragraphs w,
    0 <= base_delay self ->
    exists res evs,
      summarize_section groq self section_name paragraphs w = (res, after w evs)
      /\ (posts evs <= Z.to_nat (max_retries self))%nat
      /\ requests evs
         = repeat (base_url self, create_prompt (prepare_section_text paragraphs))
             (posts evs)
      /\ match res with
         | Ok (Some s) =>
             kept_summary s /\ too_short self (section_name, paragraphs) = false
         | Ok None => True
         | Raise e =>
             e = KeyError \/ e = IndexError \/ e = TypeError \/ e = AttributeError
         end.
Proof.
  intros groq self section_name paragraphs w Hd.
  destruct (summarize_section_general groq self Hd section_name paragraphs w)
    as (res & evs & Hrun & _ & Hp & Hreq & Hres).
  exists res, evs. auto.
Qed.

Lemma summarize_section_outcome_witness :
  exists res evs,
    summarize_section Sample.twice_429 (init (lit "key")) (lit "A")
      [Sample.long_text] Sample.world0 = (res, after Sample.world0 evs)
    /\ (posts evs <= 3)%nat
    /\ requests evs
       = repeat (base_url (init (lit "key")),
                 create_prompt (prepare_section_text [Sample.long_text]))
           (posts evs)
    /\ match res with
       | Ok (Some s) =>
           kept_summary s
           /\ too_short (init (lit "key")) (lit "A", [Sample.long_text]) = false
       | Ok None => True
       | Raise e =>
           e = KeyError \/ e = IndexError \/ e = TypeError \/ e = AttributeError
       end.
Proof.
  apply (summarize_section_outcome Sample.twice_429 (init (lit "key")) (lit "A")
           [Sample.long_text] Sample.world0).
  simpl. lia.
Defined.

(** X7. A 200 answer whose content is blank once trimmed is not retried:
    for a section long enough to be sent, [summarize_section] makes that
    one call, reports the section as failed and returns [None]. *)
Theorem blank_completion_not_retried :
  forall groq self section_name paragraphs w,
    0 <= base_delay self ->
    1 <= max_retries self ->
    too_short self (section_name, paragraphs) = false ->
    verdict_of (groq (posts (trace w))
                  (create_prompt (prepare_section_text paragraphs))) = Returns [] ->
    summarize_section groq self section_name paragraphs w
    = (Ok None,
       after w [EPrint (LCalling section_name);
                EPost (base_url self) (create_prompt (prepare_section_text paragraphs));
                EPrint (LFailedToSummarize section_name)]).
Proof.
  intros groq self name ps w Hd Hn Hts Hv.
  unfold too_short in Hts. simpl snd in Hts. apply negb_false_iff in Hts.
  unfold summarize_section. rewrite Hts. cbn [negb].
  unfold bind at 1. rewrite print_after. unfold bind at 1, call_groq_api.
  destruct (range (max_retries self)) as [|a rest] eqn:R.
  { apply (f_equal (@List.length Z)) in R. rewrite length_range in R.
    simpl in R. lia. }
  rewrite retry_loop_cons by assumption.
  replace (posts (trace (after w [EPrint (LCalling name)]))) with (posts (trace w))
    by (simpl; rewrite posts_app; unfold posts at 3; simpl; lia).
  rewrite Hv. cbn [truthy]. unfold bind. rewrite print_after, !after_after.
  unfold ret.
  unfold attempt_events. unfold verdict_of in Hv.
  destruct (groq (posts (trace w)) (create_prompt (prepare_section_text ps)))
    as [r| |msg]; try discriminate.
  destruct (status_code r =? 200); [|discriminate].
  destruct (body r); [reflexivity|discriminate].
Qed.

Lemma blank_completion_not_retried_witness :
  summarize_section (Sample.always (Sample.reply 200 (Some (Sample.completion (lit "  ")))))
    (init (lit "key")) (lit "A") [Sample.long_text] Sample.world0
  = (Ok None,
     after Sample.world0
       [EPrint (LCalling (lit "A"));
        EPost (base_url (init (lit "key")))
          (create_prompt (prepare_section_text [Sample.long_text]));
        EPrint (LFailedToSummarize (lit "A"))]).
Proof.
  apply (blank_completion_not_retried
           (Sample.always (Sample.reply 200 (Some (Sample.completion (lit "  ")))))
           (init (lit "key")) (lit "A") [Sample.long_text] Sample.world0);
    try reflexivity; simpl; lia.
Defined.

(** X8. A run of [process_all_sections] over an input of [n] sections
    makes at most [n * max_retries] calls to the completion service,
    whatever the service answers and however the run ends. *)
Theorem process_all_sections_call_bound :
  forall groq self input_file output_file data w,
    0 <= base_delay self ->
    Dict.get (files w) input_file = Some (FJson data) ->
    (posts (trace (snd (process_all_sections groq self input_file output_file w)))
     <= posts (trace w) + List.length data * Z.to_nat (max_retries self))%nat.
Proof.
  intros groq self input_file output_file data w Hd Hfile.
  destruct (process_all_sections_general groq self Hd input_file output_file data w Hfile)
    as (res & w' & evs & Hrun & Ht & Hp & _).
  rewrite Hrun. simpl. rewrite Ht, posts_app. lia.
Qed.

Lemma process_all_sections_call_bound_witness :
  (posts (trace (snd (process_all_sections Sample.first_only (init (lit "key"))
                        json_file markdown_file
                        (Sample.with_input Sample.three_sections))))
   <= posts (trace (Sample.with_input Sample.three_sections))
      + List.length Sample.three_sections * Z.to_nat (max_retries (init (lit "key"))))%nat.
Proof.
  apply (process_all_sections_call_bound Sample.first_only (init (lit "key"))
           json_file markdown_file Sample.three_sections
           (Sample.with_input Sample.three_sections)).
  - simpl. lia.
  - reflexivity.
Defined.



(** ** The two entry points and the files *)

Section EntryPoints.

Variable groq : nat -> list (str * str) -> http_outcome.

Lemma get_set_same {V} (d : Dict.t V) (k : str) (v : V) :
  Dict.get (Dict.set d k v) k = Some v.
Proof.
  induction d as [|[k0 v0] d IH]; simpl.
  - now rewrite eqb_refl.
  - destruct (Py.eqb k0 k) eqn:E; simpl; rewrite E; [reflexivity|exact IH].
Qed.

Lemma get_set_other {V} (d : Dict.t V) (k k' : str) (v : V) :
  k <> k' -> Dict.get (Dict.set d k v) k' = Dict.get d k'.
Proof.
  intros Hne. induction d as [|[k0 v0] d IH]; simpl.
  - destruct (Py.eqb k k') eqn:E; [|reflexivity]. apply eqb_eq in E. tauto.
  - destruct (Py.eqb k0 k) eqn:E; simpl.
    + apply eqb_eq in E. subst k0.
      destruct (Py.eqb k k') eqn:E'; [|reflexivity]. apply eqb_eq in E'. tauto.
    + destruct (Py.eqb k0 k'); [reflexivity|exact IH].
Qed.

(** [process_all_sections] when the input file is missing or is not
    JSON: the exception of [load_json_data], and nothing else. *)
Lemma process_all_sections_no_input (self : GroqSummarizer)
    (input_file output_file : str) (w : world) :
  (forall data, Dict.get (files w) input_file <> Some (FJson data)) ->
  exists msg,
    process_all_sections groq self input_file output_file w
    = (Raise (Exception msg), w).
Proof.
  intros H. unfold process_all_sections, bind, load_json_data, bind, read_file.
  destruct (Dict.get (files w) input_file) as [[data|t]|].
  - destruct (H data eq_refl).
  - eexists. reflexivity.
  - eexists. reflexivity.
Qed.

(** [main] of the summarizer once the key is there. *)
Lemma main_with_key (k : str) (w : world) :
  truthy k = true ->
  main groq (Some k) w
  = match process_all_sections groq (init k) json_file markdown_file w with
    | (Ok summaries, w1) => (Ok (if Dict.truthy summaries then 0 else 1), w1)
    | (Raise e, w1) => (Ok 1, after w1 [EPrint (LError e)])
    end.
Proof.
  intros T. unfold main, try_except. unfold bind at 1. unfold load_environment.
  rewrite T. unfold ret at 1.
  change (lit "data/raw_wiki_content.json") with json_file.
  change (lit "data/summarized_output.md") with markdown_file.
  unfold bind at 1.
  destruct (process_all_sections groq (init k) json_file markdown_file w)
    as [[sm|e] w1].
  - reflexivity.
  - unfold bind. now rewrite print_after.
Qed.

(** A run of [process_all_sections] from [main]: what it leaves in the
    files. *)
Lemma main_run_files (k : str) (w : world) :
  match process_all_sections groq (init k) json_file markdown_file w with
  | (Ok summaries, w1) =>
      files w1
      = (if Dict.truthy summaries
         then Dict.set (files w) markdown_file
                (FText (format_markdown_output (init k) summaries))
         else files w)
  | (Raise e, w1) => files w1 = files w
  end.
Proof.
  assert (Hd : 0 <= base_delay (init k)) by (simpl; lia).
  destruct (Dict.get (files w) json_file) as [[data|t]|] eqn:F.
  - destruct (process_all_sections_general groq (init k) Hd json_file markdown_file
                data w F) as (res & w1 & evs & Hrun & _ & _ & Hres).
    rewrite Hrun. destruct res as [sm|e].
    + destruct Hres as (_ & _ & _ & _ & Hfiles & _). exact Hfiles.
    + destruct Hres as [Hfiles _]. exact Hfiles.
  - destruct (process_all_sections_no_input (init k) json_file markdown_file w)
      as [msg Hrun].
    { intros data. rewrite F. discriminate. }
    rewrite Hrun. reflexivity.
  - destruct (process_all_sections_no_input (init k) json_file markdown_file w)
      as [msg Hrun].
    { intros data. rewrite F. discriminate. }
    rewrite Hrun. reflexivity.
Qed.

(** [main] of the summarizer, in every case. *)
Lemma main_general (key : option str) (w : world) :
  exists code w',
    main groq key w = (Ok code, w')
    /\ (code = 0 \/ code = 1)
    /\ (code = 0
        <-> exists k summaries w1,
              key = Some k
              /\ truthy k = true
              /\ process_all_sections groq (init k) json_file markdown_file w
                 = (Ok summaries, w1)
              /\ Dict.truthy summaries = true)
    /\ (forall k summaries w1,
          key = Some k ->
          truthy k = true ->
          process_all_sections groq (init k) json_file markdown_file w
          = (Ok summaries, w1) ->
          w' = w1
          /\ files w'
             = (if Dict.truthy summaries
                then Dict.set (files w) markdown_file
                       (FText (format_markdown_output (init k) summaries))
                else files w))
    /\ (code = 1 -> files w' = files w).
Proof.
  destruct (key_absent key) eqn:A.
  - exists 1, (after w [EPrint (LError missing_key_error)]). split.
    { unfold main, try_except, bind.
      rewrite (load_environment_absent key w A). now rewrite print_after. }
    split; [now right|]. split; [|split; [|reflexivity]].
    + split; [discriminate|].
      intros (k & sm & w1 & -> & T & _). simpl in A. rewrite T in A. discriminate.
    + intros k sm w1 -> T _. simpl in A. rewrite T in A. discriminate.
  - destruct key as [k|]; [|discriminate]. simpl in A. apply negb_false_iff in A.
    rewrite (main_with_key k w A).
    pose proof (main_run_files k w) as Hfiles.
    destruct (process_all_sections groq (init k) json_file markdown_file w)
      as [[sm|e] w1] eqn:Hrun.
    + exists (if Dict.truthy sm then 0 else 1), w1. split; [reflexivity|].
      split; [destruct (Dict.truthy sm); auto|]. split; [|split].
      * split.
        -- intros C. exists k, sm, w1. repeat split; auto.
           destruct (Dict.truthy sm); [reflexivity|discriminate].
        -- intros (k' & sm' & w1' & [= <-] & _ & R & T).
           rewrite Hrun in R. injection R as <- <-. now rewrite T.
      * intros k' sm' w1' [= <-] _ R. rewrite Hrun in R. injection R as <- <-.
        split; [reflexivity|exact Hfiles].
      * destruct (Dict.truthy sm); [discriminate|]. intros _. exact Hfiles.
    + exists 1, (after w1 [EPrint (LError e)]). split; [reflexivity|].
      split; [now right|]. split; [|split].
      * split; [discriminate|].
        intros (k' & sm' & w1' & [= <-] & _ & R & _).
        rewrite Hrun in R. discriminate.
      * intros k' sm' w1' [= <-] _ R. rewrite Hrun in R. discriminate.
      * intros _. exact Hfiles.
Qed.

End EntryPoints.


(** X11. With the key there but the input file missing or not JSON,
    [main] of the summarizer prints one error line and returns 1: no
    call is made and no file is written. *)
Theorem main_without_input :
  forall groq key w,
    key_absent (Some key) = false ->
    (forall data, Dict.get (files w) json_file <> Some (FJson data)) ->
    exists msg,
      main groq (Some key) w = (Ok 1, after w [EPrint (LError (Exception msg))]).
Proof.
  intros groq key w A Hfile. simpl in A. apply negb_false_iff in A.
  destruct (process_all_sections_no_input groq (init key) json_file markdown_file w
              Hfile) as [msg Hrun].
  exists msg. unfold main, try_except. unfold bind at 1. unfold load_environment.
  rewrite A. unfold ret at 1.
  change (lit "data/raw_wiki_content.json") with json_file.
  change (lit "data/summarized_output.md") with markdown_file.
  unfold bind at 1. rewrite Hrun. unfold bind. now rewrite print_after.
Qed.

Lemma main_without_input_witness :
  exists msg,
    main (Sample.always TimesOut) (Some (lit "key")) Sample.world0
    = (Ok 1, after Sample.world0 [EPrint (LError (Exception msg))]).
Proof.
  apply (main_without_input (Sample.always TimesOut) (lit "key") Sample.world0).
  - reflexivity.
  - intros data. discriminate.
Defined.

(** ** The pipeline, step by step *)

(** Counting the calls in a trace that ends in known events. *)
Ltac count_posts :=
  unfold posts; cbn [after trace];
  repeat (rewrite filter_app || rewrite length_app);
  simpl; lia.

Lemma paths_differ :
  txt_file <> json_file /\ txt_file <> markdown_file /\ json_file <> markdown_file.
Proof. repeat split; discriminate. Qed.

(** The files after a successful step 1. *)
Lemma step_1_files (content : Dict.t (list str)) (d : Dict.t file) :
  let d' := Dict.set
              (Dict.set (Dict.set d txt_file (FText (format_output content)))
                 json_file (FJson content))
              json_file (FJson content) in
  Dict.get d' json_file = Some (FJson content)
  /\ Dict.get d' txt_file = Some (FText (format_output content))
  /\ (forall path, path <> json_file -> path <> txt_file ->
                   Dict.get d' path = Dict.get d path).
Proof.
  destruct paths_differ as (H1 & H2 & H3). cbv zeta. split; [|split].
  - apply get_set_same.
  - rewrite !get_set_other by (intros E; symmetry in E; tauto).
    apply get_set_same.
  - intros path Hj Ht.
    now rewrite !get_set_other by (intros E; symmetry in E; tauto).
Qed.

Section PipelineSteps.

Variable groq : nat -> list (str * str) -> http_outcome.
Variable wikipedia : str -> fetch_result.

(** Step 1, by what the fetch comes to. *)
Lemma step_1_general (url : str) (w : world) :
  step_1_scraping wikipedia url w
  = match wikipedia url with
    | Fetched (ContentArea content) =>
        (Ok true,
         {| trace := trace w
                     ++ [EGet url;
                         EPrint (LScrapingDone (Z.of_nat (List.length content)))];
            files := Dict.set
                       (Dict.set
                          (Dict.set (files w) txt_file (FText (format_output content)))
                          json_file (FJson content))
                       json_file (FJson content) |})
    | Fetched NoContentArea =>
        (Ok false,
         after w [EGet url;
                  EPrint (LScrapingFailed
                            (Exception (lit "Could not find main content area")))])
    | FetchFails msg =>
        (Ok false,
         after w [EGet url;
                  EPrint (LScrapingFailed
                            (Exception (lit "Failed to fetch page: " ++ msg)))])
    end.
Proof.
  unfold step_1_scraping, try_except, bind, scrape, fetch_page, bind.
  rewrite emit_after.
  destruct (wikipedia url) as [msg|[|content]]; simpl;
    unfold after; simpl; rewrite <- ?app_assoc; reflexivity.
Qed.

(** Step 3 on an input file that holds a mapping: it never raises, and
    returns [True] exactly when it has written the output file. *)
Lemma step_3_general (k : str) (content : Dict.t (list str)) (w : world) :
  Dict.get (files w) json_file = Some (FJson content) ->
  exists b w',
    step_3_summarization groq k w = (Ok b, w')
    /\ if b then
         exists summaries,
           Dict.truthy summaries = true
           /\ (forall n v, In (n, v) summaries ->
                           kept_summary v /\ exists ps, In (n, ps) content)
           /\ files w'
              = Dict.set (files w) markdown_file
                  (FText (format_markdown_output (init k) summaries))
       else files w' = files w.
Proof.
  intros F.
  assert (Hd : 0 <= base_delay (init k)) by (simpl; lia).
  destruct (process_all_sections_general groq (init k) Hd json_file markdown_file
              content w F) as (res & w1 & evs & Hrun & _ & _ & Hres).
  unfold step_3_summarization, try_except. unfold bind at 1. unfold read_file.
  rewrite F. unfold bind at 1. rewrite Hrun.
  destruct res as [sm|e].
  - destruct Hres as (Hin & _ & _ & _ & Hfiles & _).
    destruct (Dict.truthy sm) eqn:T.
    + unfold bind. rewrite print_after. unfold ret.
      eexists true, _. split; [reflexivity|].
      exists sm. split; [exact T|]. split; [|exact Hfiles].
      intros n v H. destruct (Hin n v H) as (Hk & ps & Hps & _). eauto.
    + unfold bind. rewrite print_after. unfold ret.
      eexists false, _. split; [reflexivity|]. exact Hfiles.
  - destruct Hres as [Hfiles _]. unfold bind. rewrite print_after. unfold ret.
    eexists false, _. split; [reflexivity|]. exact Hfiles.
Qed.

(** [run_pipeline], in every case. *)
Lemma run_pipeline_general (key : option str) (url : str) (w : world) :
  exists b w',
    run_pipeline groq key wikipedia url w = (Ok b, w')
    /\ (posts (trace w') = posts (trace w) \/ key_absent key = false)
    /\ if b then
         exists content k summaries,
           wikipedia url = Fetched (ContentArea content)
           /\ key = Some k
           /\ Dict.truthy summaries = true
           /\ (forall n v, In (n, v) summaries ->
                           kept_summary v /\ exists ps, In (n, ps) content)
           /\ Dict.get (files w') markdown_file
              = Some (FText (format_markdown_output (init k) summaries))
           /\ Dict.get (files w') json_file = Some (FJson content)
       else
         Dict.get (files w') markdown_file = Dict.get (files w) markdown_file.
Proof.
  destruct paths_differ as (P1 & P2 & P3).
  unfold run_pipeline. unfold bind at 1. rewrite WikiPipeline_built.
  unfold try_except. unfold bind at 1. rewrite step_1_general.
  destruct (wikipedia url) as [msg|[|content]] eqn:W.
  - cbn [negb]. unfold bind, generate_pipeline_report. rewrite print_after.
    unfold ret. eexists false, _. split; [reflexivity|]. split; [|reflexivity].
    left. count_posts.
  - cbn [negb]. unfold bind, generate_pipeline_report. rewrite print_after.
    unfold ret. eexists false, _. split; [reflexivity|]. split; [|reflexivity].
    left. count_posts.
  - cbn [negb].
    set (w1 := {| trace := trace w
                           ++ [EGet url;
                               EPrint (LScrapingDone (Z.of_nat (List.length content)))];
                  files := Dict.set
                             (Dict.set
                                (Dict.set (files w) txt_file
                                   (FText (format_output content)))
                                json_file (FJson content))
                             json_file (FJson content) |}).
    destruct (step_1_files content (files w)) as (Fj & Ft & Fo). cbv zeta in Fj, Ft, Fo.
    assert (Hmd1 : Dict.get (files w1) markdown_file = Dict.get (files w) markdown_file).
    { apply Fo; intros E; symmetry in E; tauto. }
    assert (Hp1 : posts (trace w1) = posts (trace w)).
    { subst w1. count_posts. }
    unfold bind at 1.
    change (time_sleep (inject_Z 1) w1) with (Ok tt, after w1 [ESleep (inject_Z 1)]).
    unfold bind at 1.
    destruct (key_absent key) eqn:A.
    + rewrite (step_2_absent key _ A).
      unfold bind, generate_pipeline_report. rewrite !print_after. unfold ret.
      eexists false, _. split; [reflexivity|]. split.
      * left. rewrite <- Hp1. count_posts.
      * exact Hmd1.
    + destruct key as [k|]; [|discriminate]. simpl in A. apply negb_false_iff in A.
      unfold step_2_load_api_key, try_except, bind at 1, load_environment.
      rewrite A. unfold ret at 1. unfold bind at 1. rewrite print_after.
      unfold ret at 1. unfold bind at 1.
      rewrite !after_after. cbn [app].
      set (w2 := after w1 [ESleep (inject_Z 1); EPrint LKeyLoaded]).
      change (time_sleep (inject_Z 1) w2) with (Ok tt, after w2 [ESleep (inject_Z 1)]).
      unfold bind at 1.
      set (w3 := after w2 [ESleep (inject_Z 1)]).
      assert (F3 : Dict.get (files w3) json_file = Some (FJson content)) by exact Fj.
      destruct (step_3_general k content w3 F3) as (b & w4 & H3 & Hb).
      rewrite H3. unfold bind, generate_pipeline_report. rewrite print_after.
      unfold ret. eexists b, _. split; [reflexivity|]. split; [now right|].
      destruct b.
      * destruct Hb as (sm & T & Hin & Hfiles).
        exists content, k, sm.
        split; [reflexivity|]. split; [reflexivity|]. split; [exact T|].
        split; [exact Hin|]. cbn [after files]. rewrite Hfiles. split.
        -- apply get_set_same.
        -- rewrite get_set_other by (intros E; symmetry in E; tauto). exact Fj.
      * cbn [after files]. rewrite Hb. exact Hmd1.
Qed.

End PipelineSteps.

(** X12. When the article is fetched and has a content area, step 1
    returns [True] and leaves the extracted mapping in the JSON file and
    its rendering in the text file, touching no other file; reading the
    JSON file back, as step 3 does, gives the extracted mapping again. *)
Theorem scraped_mapping_is_loaded :
  forall wikipedia url content w,
    wikipedia url = Fetched (ContentArea content) ->
    exists w1,
      step_1_scraping wikipedia url w = (Ok true, w1)
      /\ Dict.get (files w1) json_file = Some (FJson content)
      /\ Dict.get (files w1) txt_file = Some (FText (format_output content))
      /\ (forall path, path <> json_file -> path <> txt_file ->
                       Dict.get (files w1) path = Dict.get (files w) path)
      /\ fst (load_json_data json_file w1) = Ok content.
Proof.
  intros wikipedia url content w W.
  rewrite step_1_general, W. eexists. split; [reflexivity|].
  destruct (step_1_files content (files w)) as (Fj & Ft & Fo).
  cbv zeta in Fj, Ft, Fo. cbn [files].
  split; [exact Fj|]. split; [exact Ft|]. split; [exact Fo|].
  match goal with
  | |- context [load_json_data json_file ?x] =>
      rewrite (load_json_data_found json_file content x Fj)
  end.
  reflexivity.
Qed.

Lemma scraped_mapping_is_loaded_witness :
  exists w1,
    step_1_scraping (fun _ => Fetched (ContentArea Sample.two_sections))
      Sample.article Sample.world0 = (Ok true, w1)
    /\ Dict.get (files w1) json_file = Some (FJson Sample.two_sections)
    /\ Dict.get (files w1) txt_file = Some (FText (format_output Sample.two_sections))
    /\ (forall path, path <> json_file -> path <> txt_file ->
                     Dict.get (files w1) path = Dict.get (files Sample.world0) path)
    /\ fst (load_json_data json_file w1) = Ok Sample.two_sections.
Proof.
  apply (scraped_mapping_is_loaded (fun _ => Fetched (ContentArea Sample.two_sections))
           Sample.article Sample.two_sections Sample.world0).
  reflexivity.
Defined.



(** X14. When the article cannot be fetched or has no content area,
    [run_pipeline] stops after step 1: it reports the failure and
    returns [False] without looking up the key, calling the completion
    service, sleeping or writing a file. *)
Theorem run_pipeline_scrape_fails :
  forall groq key wikipedia url w,
    (forall content, wikipedia url <> Fetched (ContentArea content)) ->
    exists e,
      run_pipeline groq key wikipedia url w
      = (Ok false,
         after w [EGet url; EPrint (LScrapingFailed e); EPrint (LReport false)]).
Proof.
  intros groq key wikipedia url w H.
  unfold run_pipeline. unfold bind at 1. rewrite WikiPipeline_built.
  unfold try_except. unfold bind at 1. rewrite step_1_general.
  destruct (wikipedia url) as [msg|[|content]].
  - eexists. cbn [negb]. unfold bind, generate_pipeline_report.
    rewrite print_after, after_after. reflexivity.
  - eexists. cbn [negb]. unfold bind, generate_pipeline_report.
    rewrite print_after, after_after. reflexivity.
  - destruct (H content eq_refl).
Qed.

Lemma run_pipeline_scrape_fails_witness :
  exists e,
    run_pipeline (Sample.always TimesOut) (Some (lit "key"))
      (fun _ => FetchFails (lit "404 Client Error")) Sample.article Sample.world0
    = (Ok false,
       after Sample.world0
         [EGet Sample.article; EPrint (LScrapingFailed e); EPrint (LReport false)]).
Proof.
  apply (run_pipeline_scrape_fails (Sample.always TimesOut) (Some (lit "key"))
           (fun _ => FetchFails (lit "404 Client Error")) Sample.article Sample.world0).
  intros content. discriminate.
Defined.



(** ** The layout of the Markdown text *)

Section Layout.

Lemma rstrip_app_blank (a b : str) : rstrip b = [] -> rstrip (a ++ b) = rstrip a.
Proof.
  intros H. induction a as [|c a IH]; simpl; [exact H|]. now rewrite IH.
Qed.

Lemma strip_fixed (v : str) :
  strip v = v -> v <> [] -> lstrip v = v /\ rstrip v = v.
Proof.
  unfold strip. intros H Hne.
  assert (L : lstrip v = v).
  { destruct (lstrip_head v) as [E|(c & r & E & Hc)].
    - rewrite E in H. simpl in H. congruence.
    - rewrite E in H. destruct (rstrip_head c r Hc) as [r' E'].
      rewrite E' in H. subst v. simpl. now rewrite Hc. }
  split; [exact L|]. now rewrite L in H.
Qed.

Lemma join_cons (sep x : str) (xs : list str) :
  xs <> [] -> join sep (x :: xs) = x ++ sep ++ join sep xs.
Proof. destruct xs; [tauto|reflexivity]. Qed.

(** Joining lines that each end in a newline, by newlines. *)
Lemma join_lines (xs : list str) :
  xs <> [] ->
  join nl (map (fun x => x ++ nl) xs) = join (nl ++ nl) xs ++ nl.
Proof.
  induction xs as [|x xs IH]; [tauto|]. intros _.
  destruct xs as [|y xs]; [reflexivity|].
  change (join nl (map (fun x0 => x0 ++ nl) (x :: y :: xs)))
    with ((x ++ nl) ++ nl ++ join nl (map (fun x0 => x0 ++ nl) (y :: xs))).
  rewrite IH by discriminate.
  change (join (nl ++ nl) (x :: y :: xs))
    with (x ++ (nl ++ nl) ++ join (nl ++ nl) (y :: xs)).
  now rewrite <- !app_assoc.
Qed.

Lemma join_last (sep v : str) (xs : list str) :
  exists prefix, join sep (xs ++ [v]) = prefix ++ v.
Proof.
  induction xs as [|x xs [prefix IH]].
  - now exists [].
  - exists (x ++ sep ++ prefix). cbn [app]. rewrite join_cons.
    + rewrite IH. now rewrite <- !app_assoc.
    + destruct xs; discriminate.
Qed.

Lemma output_lines_layout (summaries : Dict.t str) :
  output_lines summaries
  = map (fun x => x ++ nl)
      (flat_map (fun e => [heading (fst e); snd e]) summaries).
Proof.
  induction summaries as [|[k v] rest IH]; [reflexivity|].
  rewrite output_lines_cons, IH. cbn [flat_map map app fst snd].
  unfold entry_lines, heading. destruct (contains (lit ">") k);
    cbn [app]; now rewrite <- ?app_assoc.
Qed.

Lemma heading_starts (section_name : str) :
  exists r, heading section_name = 35%N :: r.
Proof. unfold heading. destruct (contains _ _); eexists; reflexivity. Qed.

Lemma format_markdown_output_kept (self : GroqSummarizer) (summaries : Dict.t str) :
  summaries <> [] ->
  (forall k v, In (k, v) summaries -> kept_summary v) ->
  format_markdown_output self summaries = layout summaries.
Proof.
  intros Hne Hkept. unfold format_markdown_output, layout.
  rewrite output_lines_layout.
  set (xs := flat_map (fun e => [heading (fst e); snd e]) summaries).
  assert (Hxs : xs <> []).
  { subst xs. destruct summaries as [|[k v] rest]; [tauto|discriminate]. }
  rewrite (join_lines xs Hxs).
  assert (Hhead : exists r, join (nl ++ nl) xs = 35%N :: r).
  { subst xs. destruct summaries as [|[k v] rest]; [tauto|].
    cbn [flat_map app fst snd]. rewrite join_cons by (simpl; discriminate).
    destruct (heading_starts k) as [r ->]. eexists. reflexivity. }
  assert (Hlast : exists prefix v, join (nl ++ nl) xs = prefix ++ v /\ kept_summary v).
  { subst xs. destruct (exists_last Hne) as (front & [k v] & ->).
    rewrite flat_map_app. cbn [flat_map app fst snd].
    change [heading k; v] with ([heading k] ++ [v]). rewrite app_assoc.
    destruct (join_last (nl ++ nl) v (flat_map (fun e => [heading (fst e); snd e]) front
                                       ++ [heading k])) as [prefix E].
    exists prefix, v. split; [exact E|].
    apply (Hkept k). apply in_or_app. right. now left. }
  destruct Hhead as [r Hr]. destruct Hlast as (prefix & v & Hv & [Ht Hs]).
  unfold strip. rewrite Hr. cbn [app lstrip]. change (isspace 35%N) with false.
  cbv iota. change (35%N :: r ++ nl) with ((35%N :: r) ++ nl). rewrite <- Hr.
  rewrite rstrip_app_blank by reflexivity. rewrite Hv.
  assert (Hvne : v <> []) by (destruct v; [discriminate|discriminate]).
  destruct (strip_fixed v Hs Hvne) as [_ Hrv].
  rewrite rstrip_app by (rewrite Hrv; exact Hvne). now rewrite Hrv.
Qed.

End Layout.

(** X16. For a mapping that is not empty and whose summaries are not
    empty and trimmed, as those the orchestrator keeps, the Markdown text
    is exactly: for each entry in the mapping's order its heading, a
    blank line and its summary, with a blank line between entries;
    nothing of a summary is lost to the final trimming. *)
Theorem format_markdown_output_layout :
  forall self summaries,
    summaries <> [] ->
    (forall k v, In (k, v) summaries -> kept_summary v) ->
    format_markdown_output self summaries
    = join (nl ++ nl) (flat_map (fun e => [heading (fst e); snd e]) summaries).
Proof.
  intros self summaries Hne Hkept.
  exact (format_markdown_output_kept self summaries Hne Hkept).
Qed.

Lemma format_markdown_output_layout_witness :
  format_markdown_output (init (lit "key"))
    [(lit "History", lit "It began."); (lit "History > Early", lit "It went on.")]
  = join (nl ++ nl)
      (flat_map (fun e => [heading (fst e); snd e])
         [(lit "History", lit "It began."); (lit "History > Early", lit "It went on.")]).
Proof.
  apply (format_markdown_output_layout (init (lit "key"))
           [(lit "History", lit "It began."); (lit "History > Early", lit "It went on.")]).
  - discriminate.
  - intros k v [[= <- <-]|[[= <- <-]|[]]]; split; reflexivity.
Defined.

Section HeadingLevel.

Lemma has_gt_In (section_name : str) : has_gt section_name = true <-> In 62%N section_name.
Proof.
  unfold has_gt. rewrite existsb_exists. split.
  - intros (c & Hin & E). apply N.eqb_eq in E. now subst c.
  - intros Hin. exists 62%N. split; [exact Hin|reflexivity].
Qed.

Lemma heading_is_by_gt (section_name : str) :
  heading section_name = heading_by_gt section_name.
Proof.
  unfold heading, heading_by_gt. change (lit ">") with [62%N].
  destruct (has_gt section_name) eqn:G.
  - apply has_gt_In, contains_char in G.
    destruct (contains _ section_name) eqn:E; [reflexivity|discriminate].
  - destruct (contains _ section_name) eqn:E; [|reflexivity].
    apply contains_char, has_gt_In in E. congruence.
Qed.

(** The text returned, for any mapping: the final trimming takes
    nothing from the front, which is a heading's first character. *)
Lemma format_markdown_output_rstrip (self : GroqSummarizer) (summaries : Dict.t str) :
  format_markdown_output self summaries = rstrip (layout summaries).
Proof.
  unfold format_markdown_output, layout. rewrite output_lines_layout.
  destruct summaries as [|[k v] rest]; [reflexivity|].
  set (xs := flat_map (fun e => [heading (fst e); snd e]) ((k, v) :: rest)).
  assert (Hxs : xs <> []) by discriminate.
  rewrite (join_lines xs Hxs).
  assert (Hhead : exists r, join (nl ++ nl) xs = 35%N :: r).
  { subst xs. cbn [flat_map app fst snd]. rewrite join_cons by (simpl; discriminate).
    destruct (heading_starts k) as [r ->]. eexists. reflexivity. }
  destruct Hhead as [r Hr]. unfold strip. rewrite Hr.
  cbn [app lstrip]. change (isspace 35%N) with false. cbv iota.
  change (35%N :: r ++ nl) with ((35%N :: r) ++ nl).
  now rewrite rstrip_app_blank by reflexivity.
Qed.

End HeadingLevel.

(** C10. The text [format_markdown_output] returns is, for each entry in
    order, its heading and its summary, with blank lines between, and
    the whole trimmed at the end; the heading of an entry is ["### "]
    and the key when the character '>' occurs anywhere in the key, and
    ["## "] and the key otherwise.  So the key ["A>B"], which does not
    hold the separator [" > "], gets a level-3 heading, next to a
    level-2 heading for ["Top"]. *)
Theorem heading_level_by_gt_character :
  (forall self summaries,
      format_markdown_output self summaries
      = rstrip (join (nl ++ nl)
                  (flat_map (fun e => [heading_by_gt (fst e); snd e]) summaries)))
  /\ (forall section_name,
        (In 62%N section_name ->
         heading_by_gt section_name = lit "### " ++ section_name)
        /\ (~ In 62%N section_name ->
            heading_by_gt section_name = lit "## " ++ section_name))
  /\ contains (lit " > ") (lit "A>B") = false
  /\ format_markdown_output (init (lit "key"))
       [(lit "Top", lit "One."); (lit "A>B", lit "Two.")]
     = lit "## Top" ++ nl ++ nl ++ lit "One." ++ nl ++ nl
       ++ lit "### A>B" ++ nl ++ nl ++ lit "Two.".
Proof.
  split; [|split; [|split; reflexivity]].
  - intros self summaries. rewrite format_markdown_output_rstrip. unfold layout.
    do 2 f_equal. apply flat_map_ext. intros [k v]. cbn [fst snd].
    now rewrite heading_is_by_gt.
  - intros k. unfold heading_by_gt. split.
    + intros Hin. apply has_gt_In in Hin. now rewrite Hin.
    + intros Hin. destruct (has_gt k) eqn:G; [|reflexivity].
      apply has_gt_In in G. tauto.
Qed.

(** ** The scraper's cleaning of text *)

Section Cleaning.

Variable is_decimal : char -> bool.

Lemma spaceless_app (a b : str) :
  spaceless (a ++ b) = spaceless a && spaceless b.
Proof. apply forallb_app. Qed.

Lemma split_from_words (s : str) :
  forall cur, spaceless cur = true -> Forall word (split_from cur s).
Proof.
  induction s as [|c s IH]; intros cur Hcur; simpl.
  - destruct cur; constructor; [|constructor]. split; [discriminate|exact Hcur].
  - destruct (isspace c) eqn:E.
    + destruct cur as [|a cur]; [now apply IH|].
      constructor; [split; [discriminate|exact Hcur]|now apply IH].
    + apply IH. rewrite spaceless_app, Hcur. simpl. now rewrite E.
Qed.

Lemma split_from_spaceless (w : str) :
  forall cur rest,
    spaceless w = true -> split_from cur (w ++ rest) = split_from (cur ++ w) rest.
Proof.
  induction w as [|c w IH]; intros cur rest H.
  - now rewrite app_nil_r.
  - simpl in H. apply andb_true_iff in H. destruct H as [Hc Hw].
    apply negb_true_iff in Hc. cbn [app split_from]. rewrite Hc.
    rewrite IH by assumption. now rewrite <- app_assoc.
Qed.

(** Splitting what was joined by single spaces gives the words back. *)
Lemma split_join (ws : list str) :
  Forall word ws -> split (join (lit " ") ws) = ws.
Proof.
  unfold split. induction ws as [|w ws IH]; intros H; [reflexivity|].
  apply Forall_cons_iff in H. destruct H as [[Hne Hw] Hws].
  destruct ws as [|w' ws].
  - cbn [join]. rewrite <- (app_nil_r w) at 1.
    rewrite split_from_spaceless by assumption. simpl.
    destruct w; [tauto|reflexivity].
  - change (join (lit " ") (w :: w' :: ws))
      with (w ++ 32%N :: join (lit " ") (w' :: ws)).
    rewrite split_from_spaceless by assumption. cbn [app split_from].
    change (isspace 32%N) with true. cbv iota.
    destruct w; [tauto|]. f_equal. now apply IH.
Qed.

Lemma rstrip_spaceless (w : str) : spaceless w = true -> rstrip w = w.
Proof.
  induction w as [|c w IH]; [reflexivity|]. simpl. intros H.
  apply andb_true_iff in H. destruct H as [Hc Hw]. apply negb_true_iff in Hc.
  rewrite IH by assumption. destruct w; [now rewrite Hc|reflexivity].
Qed.

(** Words joined by single spaces are already trimmed. *)
Lemma strip_join_words (ws : list str) :
  Forall word ws -> strip (join (lit " ") ws) = join (lit " ") ws.
Proof.
  intros H. destruct ws as [|w ws]; [reflexivity|].
  assert (Hhead : exists c r, join (lit " ") (w :: ws) = c :: r /\ isspace c = false).
  { apply Forall_cons_iff in H. destruct H as [[Hne Hw] _].
    destruct w as [|c w]; [tauto|]. simpl in Hw. apply andb_true_iff in Hw.
    destruct Hw as [Hc _]. apply negb_true_iff in Hc.
    destruct ws; eexists c, _; (split; [reflexivity|exact Hc]). }
  assert (Hlast : exists prefix v, join (lit " ") (w :: ws) = prefix ++ v /\ word v).
  { assert (Hne : w :: ws <> []) by discriminate.
    destruct (exists_last Hne) as (front & v & E). rewrite E in *.
    destruct (join_last (lit " ") v front) as [prefix Ep].
    exists prefix, v. split; [exact Ep|].
    apply Forall_app in H. destruct H as [_ H]. now apply Forall_cons_iff in H. }
  destruct Hhead as (c & r & Hcr & Hc). destruct Hlast as (prefix & v & Hv & Hne & Hw).
  unfold strip. rewrite Hcr. cbn [lstrip]. rewrite Hc. rewrite <- Hcr, Hv.
  rewrite rstrip_app; rewrite (rstrip_spaceless v Hw); [reflexivity|exact Hne].
Qed.

Lemma join_split_length (s : str) :
  forall cur,
    (List.length (join (lit " ") (split_from cur s))
     <= List.length cur + List.length s)%nat.
Proof.
  induction s as [|c s IH]; intros cur; simpl.
  - destruct cur; simpl; lia.
  - destruct (isspace c).
    + destruct cur as [|a cur].
      * specialize (IH []). simpl in IH. lia.
      * specialize (IH []). cbn [List.length app] in IH.
        destruct (split_from [] s) as [|x xs] eqn:E.
        -- cbn [join List.length]. lia.
        -- change (join (lit " ") ((a :: cur) :: x :: xs))
             with ((a :: cur) ++ 32%N :: join (lit " ") (x :: xs)).
           rewrite length_app. cbn [List.length]. cbn [List.length] in IH. lia.
    + specialize (IH (cur ++ [c])). rewrite length_app in IH. simpl in IH. lia.
Qed.

Lemma remove_citations_length (s : str) :
  forall pending,
    (List.length (remove_citations_from is_decimal pending s)
     <= match pending with
        | None => 0
        | Some ds => S (List.length ds)
        end + List.length s)%nat.
Proof.
  induction s as [|c s IH]; intros [ds|]; cbn [remove_citations_from].
  - cbn [List.length]. lia.
  - cbn [List.length]. lia.
  - pose proof (IH None) as I0. pose proof (IH (Some [])) as I1.
    pose proof (IH (Some (ds ++ [c]))) as I2.
    cbv beta iota in I0, I1, I2.
    rewrite length_app in I2. cbn [List.length] in I0, I1, I2.
    destruct (c =? 93)%N.
    + destruct ds as [|d ds]; cbn [List.length]; lia.
    + destruct (c =? 91)%N.
      * cbn [List.length]. rewrite length_app. lia.
      * destruct (is_decimal c); [cbn [List.length]; lia|].
        cbn [List.length]. rewrite length_app. cbn [List.length]. lia.
  - pose proof (IH None) as I0. pose proof (IH (Some [])) as I1.
    cbv beta iota in I0, I1. cbn [List.length] in I0, I1.
    destruct (c =? 91)%N; cbn [List.length]; lia.
Qed.

Lemma clean_text_words (text : str) :
  clean_text is_decimal text
  = join (lit " ") (split (remove_citations is_decimal text))
  /\ Forall word (split (remove_citations is_decimal text)).
Proof.
  assert (H : Forall word (split (remove_citations is_decimal text))).
  { apply split_from_words. reflexivity. }
  split; [|exact H]. unfold clean_text. now apply strip_join_words.
Qed.

Lemma clean_text_trimmed (text : str) :
  strip (clean_text is_decimal text) = clean_text is_decimal text.
Proof. unfold clean_text. apply strip_idem. Qed.

End Cleaning.

(** X17. What [clean_text] returns is its words (the maximal runs
    without whitespace of the text once the citation marks are taken
    out) joined by single spaces: it has no whitespace but these spaces,
    none at either end, and splitting it gives the same words again. *)
Theorem clean_text_normal_form :
  forall is_decimal text,
    clean_text is_decimal text
    = join (lit " ") (split (remove_citations is_decimal text))
    /\ Forall (fun w => w <> [] /\ spaceless w = true)
         (split (remove_citations is_decimal text))
    /\ strip (clean_text is_decimal text) = clean_text is_decimal text
    /\ split (clean_text is_decimal text) = split (remove_citations is_decimal text).
Proof.
  intros is_decimal text.
  destruct (clean_text_words is_decimal text) as [E H].
  split; [exact E|]. split; [exact H|]. split; [apply clean_text_trimmed|].
  rewrite E. now apply split_join.
Qed.

(** X18. [clean_text] never returns a text longer than the one it was
    given. *)
Theorem clean_text_not_longer :
  forall is_decimal text, len (clean_text is_decimal text) <= len text.
Proof.
  intros is_decimal text.
  destruct (clean_text_words is_decimal text) as [E _]. rewrite E.
  unfold len, split, remove_citations.
  pose proof (join_split_length (remove_citations_from is_decimal None text) []) as H1.
  pose proof (remove_citations_length is_decimal text None) as H2.
  simpl in H1, H2. lia.
Qed.

(** ** The scraper's extraction of sections *)

Section Extraction.

Variable is_decimal : char -> bool.
Variable lower : str -> str.

Lemma get_None {V} (d : Dict.t V) (k : str) :
  Dict.get d k = None <-> ~ In k (Dict.keys d).
Proof.
  induction d as [|[k0 v0] d IH]; simpl; [tauto|].
  destruct (Py.eqb k0 k) eqn:E.
  - apply eqb_eq in E. split; [discriminate|tauto].
  - rewrite IH. split; [|tauto]. intros H [H0|H1]; [|tauto].
    subst. rewrite eqb_refl in E. discriminate.
Qed.

Lemma setdefault_wf {V} (d : Dict.t V) (k : str) (v : V) :
  Dict.wf d -> Dict.wf (setdefault d k v).
Proof.
  unfold setdefault, Dict.wf. intros H.
  destruct (Dict.get d k) eqn:E; [exact H|].
  apply get_None in E. unfold Dict.keys. rewrite map_app.
  apply NoDup_app; [exact H|repeat constructor; simpl; tauto|].
  intros x Hx [<-|[]]. tauto.
Qed.

Lemma setdefault_In {V} (d : Dict.t V) (k key : str) (v ps : V) :
  In (key, ps) (setdefault d k v) -> In (key, ps) d \/ ps = v.
Proof.
  unfold setdefault. destruct (Dict.get d k); [auto|].
  intros H. apply in_app_or in H. destruct H as [H|[[= _ <-]|[]]]; auto.
Qed.

Lemma setdefault_append_keys (d : Dict.t (list str)) (k x : str) :
  Dict.keys (setdefault_append d k x) = Dict.keys d
  \/ (~ In k (Dict.keys d)
      /\ Dict.keys (setdefault_append d k x) = Dict.keys d ++ [k]).
Proof.
  induction d as [|[k0 l] d IH]; simpl.
  - right. tauto.
  - destruct (Py.eqb k0 k) eqn:E; simpl; [now left|].
    destruct IH as [IH|[Hn IH]]; rewrite IH; [now left|].
    right. split; [|reflexivity]. intros [H|H]; [|tauto].
    subst. rewrite eqb_refl in E. discriminate.
Qed.

Lemma setdefault_append_wf (d : Dict.t (list str)) (k x : str) :
  Dict.wf d -> Dict.wf (setdefault_append d k x).
Proof.
  unfold Dict.wf. intros H.
  destruct (setdefault_append_keys d k x) as [E|[Hn E]]; rewrite E.
  - exact H.
  - apply NoDup_app; [exact H|repeat constructor; simpl; tauto|].
    intros y Hy [<-|[]]. tauto.
Qed.

Lemma setdefault_append_In (d : Dict.t (list str)) (k x key p : str) (ps : list str) :
  In (key, ps) (setdefault_append d k x) -> In p ps ->
  p = x \/ exists ps', In (key, ps') d /\ In p ps'.
Proof.
  induction d as [|[k0 l] d IH]; simpl.
  - intros [[= _ <-]|[]] [<-|[]]. now left.
  - destruct (Py.eqb k0 k); simpl.
    + intros [[= <- <-]|H] Hp.
      * apply in_app_or in Hp. destruct Hp as [Hp|[<-|[]]]; [|now left].
        right. exists l. auto.
      * right. exists ps. auto.
    + intros [[= <- <-]|H] Hp.
      * right. exists l. auto.
      * destruct (IH H Hp) as [E|(ps' & H1 & H2)]; [now left|].
        right. exists ps'. auto.
Qed.

Lemma extract_step_ok (all : list element) (st : extraction) (el : element) :
  In el all -> extraction_ok is_decimal lower all st ->
  extraction_ok is_decimal lower all (extract_step is_decimal lower st el).
Proof.
  intros Hel [Hwf Hps]. destruct el as [text|text|text]; cbn [extract_step].
  - destruct (mem _ SKIP_SECTIONS); [split; assumption|].
    split; cbn [content_dict]; [now apply setdefault_wf|].
    intros key ps p Hin Hp. destruct (setdefault_In _ _ _ _ _ Hin) as [H| ->].
    + eapply Hps; eassumption.
    + destruct Hp.
  - split; assumption.
  - destruct (is_content_significant (clean_text is_decimal text)) eqn:S;
      cbn [negb]; [|split; assumption].
    destruct (is_boilerplate lower (clean_text is_decimal text)) eqn:B;
      [split; assumption|].
    destruct (current_h2 st) as [h2|]; [|split; assumption].
    split; cbn [content_dict]; [now apply setdefault_append_wf|].
    intros key ps p Hin Hp.
    destruct (setdefault_append_In _ _ _ _ _ _ Hin Hp) as [-> |(ps' & H1 & H2)].
    + split; [exact S|]. split; [exact B|]. exists text. auto.
    + eapply Hps; eassumption.
Qed.

Lemma fold_extract_ok (all : list element) :
  forall els st,
    incl els all -> extraction_ok is_decimal lower all st ->
    extraction_ok is_decimal lower all (fold_left (extract_step is_decimal lower) els st).
Proof.
  induction els as [|el els IH]; intros st Hincl Hok; [exact Hok|].
  simpl. apply IH.
  - intros x Hx. apply Hincl. now right.
  - apply extract_step_ok; [|exact Hok]. apply Hincl. now left.
Qed.

Lemma extract_elements_ok (elements : list element) :
  Dict.wf (extract_elements is_decimal lower elements)
  /\ forall key ps p,
       In (key, ps) (extract_elements is_decimal lower elements) -> In p ps ->
       kept_paragraph is_decimal lower elements p.
Proof.
  apply (fold_extract_ok elements elements extraction0).
  - apply incl_refl.
  - split; [constructor|]. intros key ps p [].
Qed.

(** Under a heading that is skipped, nothing changes the mapping until
    the next [h2]. *)
Lemma fold_extract_skipped :
  forall mid st,
    current_h2 st = None ->
    forallb (fun el => negb (is_h2 el)) mid = true ->
    current_h2 (fold_left (extract_step is_decimal lower) mid st) = None
    /\ content_dict (fold_left (extract_step is_decimal lower) mid st)
       = content_dict st.
Proof.
  induction mid as [|el mid IH]; intros st Hst Hmid; [auto|].
  simpl in Hmid. apply andb_true_iff in Hmid. destruct Hmid as [Hel Hmid].
  cbn [fold_left].
  assert (Hstep : current_h2 (extract_step is_decimal lower st el) = None
                  /\ content_dict (extract_step is_decimal lower st el)
                     = content_dict st).
  { destruct el as [text|text|text]; [discriminate| |]; cbn [extract_step].
    - auto.
    - destruct (is_content_significant (clean_text is_decimal text));
        cbn [negb]; [|auto].
      destruct (is_boilerplate lower (clean_text is_decimal text)); [auto|].
      rewrite Hst. auto. }
  destruct Hstep as [H1 H2]. destruct (IH _ H1 Hmid) as [H3 H4].
  split; [exact H3|]. now rewrite H4.
Qed.

Lemma extract_step_h2 (st st' : extraction) (text : str) :
  content_dict st = content_dict st' ->
  extract_step is_decimal lower st (H2 text)
  = extract_step is_decimal lower st' (H2 text).
Proof. intros E. cbn [extract_step]. now rewrite E. Qed.

End Extraction.

Section Summarizable.

Lemma trimmed_ends (p : str) :
  strip p = p -> p <> [] ->
  (exists c r, p = c :: r /\ isspace c = false) /\ rstrip p = p.
Proof.
  intros Hs Hne. destruct (strip_fixed p Hs Hne) as [Hl Hr]. split; [|exact Hr].
  destruct (lstrip_head p) as [E|(c & r & E & Hc)].
  - rewrite Hl in E. tauto.
  - rewrite Hl in E. eauto.
Qed.

(** Trimmed texts, none empty, joined by any separator, are trimmed. *)
Lemma strip_join_trimmed (sep : str) (ps : list str) :
  (forall p, In p ps -> strip p = p /\ p <> []) ->
  strip (join sep ps) = join sep ps.
Proof.
  intros H. destruct ps as [|p1 ps]; [reflexivity|].
  assert (Hhead : exists c r, join sep (p1 :: ps) = c :: r /\ isspace c = false).
  { destruct (H p1 (or_introl eq_refl)) as [Hs Hne].
    destruct (trimmed_ends p1 Hs Hne) as [(c & r & -> & Hc) _].
    destruct ps; eexists c, _; (split; [reflexivity|exact Hc]). }
  assert (Hlast : exists prefix v, join sep (p1 :: ps) = prefix ++ v
                                   /\ rstrip v = v /\ v <> []).
  { assert (Hne : p1 :: ps <> []) by discriminate.
    destruct (exists_last Hne) as (front & v & E). rewrite E in *.
    destruct (join_last sep v front) as [prefix Ep].
    exists prefix, v. split; [exact Ep|].
    destruct (H v) as [Hs Hv]; [apply in_or_app; right; now left|].
    split; [apply (trimmed_ends v Hs Hv)|exact Hv]. }
  destruct Hhead as (c & r & Hcr & Hc).
  destruct Hlast as (prefix & v & Hv & Hrv & Hne).
  unfold strip. rewrite Hcr. cbn [lstrip]. rewrite Hc. rewrite <- Hcr, Hv.
  rewrite rstrip_app; rewrite Hrv; [reflexivity|exact Hne].
Qed.

Lemma join_length_head (sep p : str) (ps : list str) :
  (List.length p <= List.length (join sep (p :: ps)))%nat.
Proof.
  destruct ps as [|q ps]; [simpl; lia|].
  change (join sep (p :: q :: ps)) with (p ++ sep ++ join sep (q :: ps)).
  rewrite length_app. lia.
Qed.

Lemma kept_paragraph_long (is_decimal : char -> bool) (lower : str -> str)
    (all : list element) (p : str) :
  kept_paragraph is_decimal lower all p ->
  strip p = p /\ 50 <= len p /\ p <> [].
Proof.
  intros (Hs & _ & text & _ & E).
  assert (T : strip p = p) by (subst p; apply clean_text_trimmed).
  unfold is_content_significant in Hs. rewrite T in Hs. apply Z.leb_le in Hs.
  repeat split; auto. intros ->. unfold len in Hs. simpl in Hs. lia.
Qed.

End Summarizable.

(** X19. Every paragraph in the mapping [extract_content] builds is the
    cleaned text of a paragraph of the page; it is trimmed, has at least
    50 characters, and its lower-cased text holds none of the marks of
    boilerplate. *)
Theorem extract_elements_paragraphs :
  forall is_decimal lower elements key ps p,
    In (key, ps) (extract_elements is_decimal lower elements) ->
    In p ps ->
    (exists text, In (P text) elements /\ p = clean_text is_decimal text)
    /\ strip p = p
    /\ 50 <= len p
    /\ is_boilerplate lower p = false.
Proof.
  intros is_decimal lower elements key ps p Hin Hp.
  destruct (extract_elements_ok is_decimal lower elements) as [_ H].
  pose proof (H key ps p Hin Hp) as K.
  destruct (kept_paragraph_long _ _ _ _ K) as (Hs & Hl & _).
  destruct K as (_ & Hb & Ht). auto.
Qed.

Lemma extract_elements_paragraphs_witness :
  (exists text,
      In (P text) Page.elements
      /\ clean_text Page.ascii_digit Page.campaigns = clean_text Page.ascii_digit text)
  /\ strip (clean_text Page.ascii_digit Page.campaigns)
     = clean_text Page.ascii_digit Page.campaigns
  /\ 50 <= len (clean_text Page.ascii_digit Page.campaigns)
  /\ is_boilerplate Page.ascii_lower (clean_text Page.ascii_digit Page.campaigns) = false.
Proof.
  apply (extract_elements_paragraphs Page.ascii_digit Page.ascii_lower Page.elements
           (lit "Early life") [clean_text Page.ascii_digit Page.campaigns]).
  - vm_compute. right. left. reflexivity.
  - left. reflexivity.
Defined.

(** X20. A section the scraper extracts with at least one paragraph is
    never too short for the summarizer with its default threshold: the
    orchestrator does not skip it, it sends it to the completion
    service. *)
Theorem extracted_sections_are_summarizable :
  forall is_decimal lower elements key ps api_key,
    In (key, ps) (extract_elements is_decimal lower elements) ->
    ps <> [] ->
    too_short (init api_key) (key, ps) = false.
Proof.
  intros is_decimal lower elements key ps api_key Hin Hne.
  destruct (extract_elements_ok is_decimal lower elements) as [_ H].
  assert (K : forall p, In p ps -> strip p = p /\ 50 <= len p /\ p <> []).
  { intros p Hp. exact (kept_paragraph_long _ _ _ _ (H key ps p Hin Hp)). }
  unfold too_short, is_section_valid, prepare_section_text. cbn [snd].
  rewrite strip_idem.
  rewrite strip_join_trimmed by (intros p Hp; destruct (K p Hp); tauto).
  destruct ps as [|p1 ps]; [tauto|].
  destruct (K p1 (or_introl eq_refl)) as (_ & Hl & _).
  pose proof (join_length_head (nl ++ nl) p1 ps) as Hj.
  apply negb_false_iff. apply Z.leb_le. cbn [min_section_length init].
  unfold len in *. lia.
Qed.

Lemma extracted_sections_are_summarizable_witness :
  too_short (init (lit "key"))
    (lit "Early life", [clean_text Page.ascii_digit Page.campaigns]) = false.
Proof.
  apply (extracted_sections_are_summarizable Page.ascii_digit Page.ascii_lower
           Page.elements).
  - vm_compute. right. left. reflexivity.
  - discriminate.
Defined.

(** X21. A heading of [SKIP_SECTIONS] drops what stands under it: the
    paragraphs and subheadings between it and the next [h2] (or the end
    of the page) leave the extracted mapping as if they were not
    there. *)
Theorem skipped_heading_drops_its_content :
  forall is_decimal lower before text under rest,
    mem (remove_all (lit "[edit]") 0 text) SKIP_SECTIONS = true ->
    forallb (fun el => negb (is_h2 el)) under = true ->
    match rest with [] => true | el :: _ => is_h2 el end = true ->
    extract_elements is_decimal lower (before ++ H2 text :: under ++ rest)
    = extract_elements is_decimal lower (before ++ H2 text :: rest).
Proof.
  intros is_decimal lower before text under rest Hskip Hunder Hrest.
  unfold extract_elements. rewrite !fold_left_app. cbn [fold_left].
  rewrite fold_left_app.
  set (st := fold_left (extract_step is_decimal lower) before extraction0).
  set (s1 := extract_step is_decimal lower st (H2 text)).
  assert (H1 : current_h2 s1 = None).
  { subst s1. cbn [extract_step]. now rewrite Hskip. }
  destruct (fold_extract_skipped is_decimal lower under s1 H1 Hunder) as [_ Hd].
  destruct rest as [|el rest]; [exact Hd|].
  destruct el as [t|t|t]; try discriminate. cbn [fold_left].
  now rewrite (extract_step_h2 is_decimal lower _ s1 t Hd).
Qed.

Lemma skipped_heading_drops_its_content_witness :
  extract_elements Page.ascii_digit Page.ascii_lower
    ([H2 (lit "Early life[edit]"); P Page.campaigns]
       ++ H2 (lit "References") :: [P Page.campaigns; H3 (lit "Notes"); P Page.early_life]
       ++ [H2 (lit "Legacy")])
  = extract_elements Page.ascii_digit Page.ascii_lower
      ([H2 (lit "Early life[edit]"); P Page.campaigns]
         ++ H2 (lit "References") :: [H2 (lit "Legacy")]).
Proof.
  apply (skipped_heading_drops_its_content Page.ascii_digit Page.ascii_lower
           [H2 (lit "Early life[edit]"); P Page.campaigns] (lit "References")
           [P Page.campaigns; H3 (lit "Notes"); P Page.early_life]
           [H2 (lit "Legacy")]); reflexivity.
Defined.

Section ExtractionKeeps.

Variable is_decimal : char -> bool.
Variable lower : str -> str.

Lemma setdefault_keeps {V} (d : Dict.t V) (k key : str) (v ps : V) :
  In (key, ps) d -> In (key, ps) (setdefault d k v).
Proof.
  unfold setdefault. destruct (Dict.get d k); [auto|].
  intros H. apply in_or_app. now left.
Qed.

Lemma setdefault_append_keeps (d : Dict.t (list str)) (k x key : str) (ps : list str) :
  In (key, ps) d ->
  exists ps', In (key, ps') (setdefault_append d k x) /\ incl ps ps'.
Proof.
  induction d as [|[k0 l] d IH]; simpl; [tauto|].
  destruct (Py.eqb k0 k).
  - intros [[= <- <-]|H].
    + exists (l ++ [x]). split; [now left|]. apply incl_appl, incl_refl.
    + exists ps. split; [now right|apply incl_refl].
  - intros [[= <- <-]|H].
    + exists l. split; [now left|apply incl_refl].
    + destruct (IH H) as (ps' & H1 & H2). exists ps'. split; [now right|exact H2].
Qed.

Lemma setdefault_append_has (d : Dict.t (list str)) (k x : str) :
  exists ps, In (k, ps) (setdefault_append d k x) /\ In x ps.
Proof.
  induction d as [|[k0 l] d IH]; simpl.
  - exists [x]. split; left; reflexivity.
  - destruct (Py.eqb k0 k) eqn:E.
    + apply eqb_eq in E. subst k0. exists (l ++ [x]).
      split; [now left|]. apply in_or_app. right. now left.
    + destruct IH as (ps & H1 & H2). exists ps. split; [now right|exact H2].
Qed.

(** The loop never drops what it has filed. *)
Lemma extract_step_keeps (st : extraction) (el : element) (key : str) (ps : list str) :
  In (key, ps) (content_dict st) ->
  exists ps', In (key, ps') (content_dict (extract_step is_decimal lower st el))
              /\ incl ps ps'.
Proof.
  intros H. destruct el as [text|text|text]; cbn [extract_step].
  - destruct (mem _ SKIP_SECTIONS); cbn [content_dict].
    + exists ps. split; [exact H|apply incl_refl].
    + exists ps. split; [now apply setdefault_keeps|apply incl_refl].
  - exists ps. split; [exact H|apply incl_refl].
  - destruct (is_content_significant (clean_text is_decimal text)); cbn [negb];
      [|exists ps; split; [exact H|apply incl_refl]].
    destruct (is_boilerplate lower (clean_text is_decimal text));
      [exists ps; split; [exact H|apply incl_refl]|].
    destruct (current_h2 st); [|exists ps; split; [exact H|apply incl_refl]].
    cbn [content_dict]. now apply setdefault_append_keeps.
Qed.

Lemma fold_extract_keeps :
  forall els st key ps,
    In (key, ps) (content_dict st) ->
    exists ps',
      In (key, ps') (content_dict (fold_left (extract_step is_decimal lower) els st))
      /\ incl ps ps'.
Proof.
  induction els as [|el els IH]; intros st key ps H.
  - exists ps. split; [exact H|apply incl_refl].
  - cbn [fold_left]. destruct (extract_step_keeps st el key ps H) as (ps1 & H1 & I1).
    destruct (IH _ key ps1 H1) as (ps2 & H2 & I2).
    exists ps2. split; [exact H2|]. intros x Hx. auto.
Qed.

End ExtractionKeeps.

Section Citations.

Variable is_decimal : char -> bool.

(** Citation marks: once the opening bracket is read, the digits and
    the closing bracket go with it. *)
Lemma remove_citations_digits (ds b : str) :
  forall seen,
    Forall (fun d => is_decimal d = true /\ d <> 91%N /\ d <> 93%N) ds ->
    seen ++ ds <> [] ->
    remove_citations_from is_decimal (Some seen) (ds ++ 93%N :: b)
    = remove_citations_from is_decimal None b.
Proof.
  induction ds as [|d ds IH]; intros seen Hds Hne.
  - rewrite app_nil_r in Hne. cbn [app remove_citations_from].
    change (93 =? 93)%N with true. cbv iota. destruct seen; [tauto|reflexivity].
  - apply Forall_cons_iff in Hds. destruct Hds as [(Hd & H91 & H93) Hds].
    cbn [app remove_citations_from].
    apply N.eqb_neq in H91. apply N.eqb_neq in H93. rewrite H91, H93, Hd.
    apply IH; [exact Hds|]. rewrite <- app_assoc. destruct seen; discriminate.
Qed.

Lemma remove_citations_plain (a s : str) :
  ~ In 91%N a ->
  remove_citations_from is_decimal None (a ++ s)
  = a ++ remove_citations_from is_decimal None s.
Proof.
  induction a as [|c a IH]; intros H; [reflexivity|].
  cbn [app remove_citations_from].
  destruct (N.eqb_spec c 91) as [->|Hc]; [simpl in H; tauto|].
  f_equal. apply IH. simpl in H. tauto.
Qed.

End Citations.

(** X22. A paragraph that stands right after an [h2] heading which is
    not skipped, and that is significant and not boilerplate, is in the
    extracted mapping under that heading's cleaned text, whatever comes
    before and after on the page. *)
Theorem paragraph_after_heading_is_filed :
  forall is_decimal lower before h text after,
    mem (remove_all (lit "[edit]") 0 h) SKIP_SECTIONS = false ->
    is_content_significant (clean_text is_decimal text) = true ->
    is_boilerplate lower (clean_text is_decimal text) = false ->
    exists ps,
      In (clean_text is_decimal (remove_all (lit "[edit]") 0 h), ps)
         (extract_elements is_decimal lower (before ++ H2 h :: P text :: after))
      /\ In (clean_text is_decimal text) ps.
Proof.
  intros is_decimal lower before h text after Hskip Hsig Hboil.
  unfold extract_elements. rewrite fold_left_app. cbn [fold_left].
  set (st := fold_left (extract_step is_decimal lower) before extraction0).
  set (key := clean_text is_decimal (remove_all (lit "[edit]") 0 h)).
  set (s2 := extract_step is_decimal lower
               (extract_step is_decimal lower st (H2 h)) (P text)).
  assert (H2' : exists ps, In (key, ps) (content_dict s2)
                           /\ In (clean_text is_decimal text) ps).
  { subst s2. cbn [extract_step]. rewrite Hskip.
    cbn [extract_step current_h2 current_h3 content_dict].
    rewrite Hsig, Hboil. cbn [negb content_dict].
    apply setdefault_append_has. }
  destruct H2' as (ps & Hin & Hp).
  destruct (fold_extract_keeps is_decimal lower after s2 key ps Hin) as (ps' & H1 & I).
  exists ps'. split; [exact H1|]. apply I. exact Hp.
Qed.

Lemma paragraph_after_heading_is_filed_witness :
  exists ps,
    In (clean_text Page.ascii_digit (remove_all (lit "[edit]") 0 (lit "Early life[edit]")), ps)
       (extract_elements Page.ascii_digit Page.ascii_lower
          ([P Page.early_life] ++ H2 (lit "Early life[edit]") :: P Page.campaigns
             :: [H3 (lit "Youth"); P Page.early_life]))
    /\ In (clean_text Page.ascii_digit Page.campaigns) ps.
Proof.
  apply (paragraph_after_heading_is_filed Page.ascii_digit Page.ascii_lower
           [P Page.early_life] (lit "Early life[edit]") Page.campaigns
           [H3 (lit "Youth"); P Page.early_life]); reflexivity.
Defined.

(** X23. A citation mark (an opening bracket, one or more decimal
    digits, a closing bracket) is taken out of the text: after a stretch
    without opening brackets the mark leaves no trace, and the cleaning
    goes on with what follows it. *)
Theorem remove_citations_drops_mark :
  forall is_decimal a ds b,
    ~ In 91%N a ->
    ds <> [] ->
    Forall (fun d => is_decimal d = true /\ d <> 91%N /\ d <> 93%N) ds ->
    remove_citations is_decimal (a ++ 91%N :: ds ++ 93%N :: b)
    = a ++ remove_citations is_decimal b.
Proof.
  intros is_decimal a ds b Ha Hne Hds. unfold remove_citations.
  rewrite (remove_citations_plain is_decimal a _ Ha). f_equal.
  cbn [remove_citations_from]. change (91 =? 91)%N with true. cbv iota.
  apply remove_citations_digits; assumption.
Qed.

Lemma remove_citations_drops_mark_witness :
  remove_citations Page.ascii_digit
    (lit "born in Pella," ++ 91%N :: lit "12" ++ 93%N :: lit " the capital")
  = lit "born in Pella," ++ remove_citations Page.ascii_digit (lit " the capital").
Proof.
  apply (remove_citations_drops_mark Page.ascii_digit (lit "born in Pella,")
           (lit "12") (lit " the capital")).
  - vm_compute. intuition discriminate.
  - discriminate.
  - repeat constructor; discriminate.
Defined.

(** ** The orchestrator's pauses and its count *)

Section Throttle.

Variable groq : nat -> list (str * str) -> http_outcome.
Variable self : GroqSummarizer.
Hypothesis delay_nonneg : 0 <= base_delay self.

Lemma throttles_app (a b : list event) :
  throttles (a ++ b) = (throttles a + throttles b)%nat.
Proof. unfold throttles. now rewrite filter_app, length_app. Qed.

(** A backoff is a whole number of seconds, never half a second. *)
Lemma whole_seconds_no_throttle :
  forall evs zs, sleeps evs = map inject_Z zs -> throttles evs = 0%nat.
Proof.
  induction evs as [|e evs IH]; intros zs H; [reflexivity|].
  destruct e as [u m|u|d|l]; try (exact (IH zs H)).
  destruct zs as [|z zs]; [discriminate|].
  change (sleeps (ESleep d :: evs)) with (d :: sleeps evs) in H.
  cbn [map] in H. injection H as -> H.
  pose proof (IH zs H) as T. unfold throttles in *. cbn [filter is_throttle].
  destruct (Qeq_bool (inject_Z z) (1 # 2)) eqn:E; [|exact T].
  apply Qeq_bool_iff in E. unfold Qeq, inject_Z in E. simpl in E. lia.
Qed.

Lemma summarize_section_no_throttle (section_name : str) (paragraphs : list str)
    (w : world) :
  throttles (trace (snd (summarize_section groq self section_name paragraphs w)))
  = throttles (trace w).
Proof.
  unfold summarize_section.
  destruct (is_section_valid self (prepare_section_text paragraphs)); cbn [negb].
  - unfold bind at 1. rewrite print_after. unfold bind at 1, call_groq_api.
    destruct (retry_loop_general groq self
                (create_prompt (prepare_section_text paragraphs)) delay_nonneg
                (range (max_retries self)) (after w [EPrint (LCalling section_name)]))
      as (res & evs & zs & Hrun & _ & _ & _ & _ & _ & Hs & _).
    rewrite Hrun. pose proof (whole_seconds_no_throttle evs zs Hs) as T.
    destruct res as [[s|]|e]; [destruct (truthy s)| |];
      unfold bind; rewrite ?print_after; unfold ret; cbn [snd after trace];
      rewrite !throttles_app, T; unfold throttles; simpl; lia.
  - unfold bind. rewrite print_after. unfold ret. cbn [snd after trace].
    rewrite throttles_app. unfold throttles at 2. simpl. lia.
Qed.

Lemma sections_loop_throttles (total : Z) :
  forall items sm0 p0 w,
    (throttles (trace (snd (sections_loop groq self total items sm0 p0 w)))
     <= throttles (trace w) + List.length items)%nat
    /\ (forall r, fst (sections_loop groq self total items sm0 p0 w) = Ok r ->
          throttles (trace (snd (sections_loop groq self total items sm0 p0 w)))
          = (throttles (trace w) + List.length items)%nat).
Proof.
  induction items as [|[n ps] rest IH]; intros sm0 p0 w.
  - simpl. split; [lia|intros; lia].
  - rewrite sections_loop_cons by assumption.
    pose proof (summarize_section_no_throttle n ps
                  (after w [EPrint (LProcessing (p0 + 1) total n)])) as T.
    destruct (summarize_section groq self n ps _) as [res w1] eqn:E.
    cbn [snd] in T.
    assert (T1 : throttles (trace (after w1 [ESleep (1 # 2)]))
                 = S (throttles (trace w))).
    { cbn [after trace]. rewrite throttles_app, T. cbn [after trace].
      rewrite throttles_app. unfold throttles at 2 3. simpl. lia. }
    assert (T0 : throttles (trace w1) = throttles (trace w)).
    { rewrite T. cbn [after trace]. rewrite throttles_app.
      unfold throttles at 2. simpl. lia. }
    destruct res as [[s|]|e].
    + destruct (truthy s);
        [destruct (IH (Dict.set sm0 n s) (p0 + 1) (after w1 [ESleep (1 # 2)]))
           as [I1 I2]
        |destruct (IH sm0 p0 (after w1 [ESleep (1 # 2)])) as [I1 I2]];
        rewrite T1 in I1; cbn [List.length];
        (split; [lia|intros r Hr; rewrite (I2 r Hr), T1; lia]).
    + destruct (IH sm0 p0 (after w1 [ESleep (1 # 2)])) as [I1 I2].
      rewrite T1 in I1. cbn [List.length].
      split; [lia|intros r Hr; rewrite (I2 r Hr), T1; lia].
    + cbn [fst snd List.length]. rewrite T0. split; [lia|discriminate].
Qed.

End Throttle.

(** X24. The orchestrator pauses for half a second once per section it
    has gone through, whether the section was summarized, skipped as
    too short or failed, and after the last one too: a run that returns
    has paused exactly as many times as the input has sections, and a
    run that is cut short never more.  No pause of the retry loop is
    counted here, those being whole seconds. *)
Theorem process_all_sections_throttles :
  forall groq self input_file output_file data w,
    0 <= base_delay self ->
    Dict.get (files w) input_file = Some (FJson data) ->
    (throttles (trace (snd (process_all_sections groq self input_file output_file w)))
     <= throttles (trace w) + List.length data)%nat
    /\ (forall summaries,
          fst (process_all_sections groq self input_file output_file w) = Ok summaries ->
          throttles (trace (snd (process_all_sections groq self input_file output_file w)))
          = (throttles (trace w) + List.length data)%nat).
Proof.
  intros groq self input_file output_file data w Hd Hfile.
  set (loaded := EPrint (LLoaded input_file (Z.of_nat (List.length data)))).
  destruct (sections_loop_throttles groq self Hd (Z.of_nat (List.length data))
              data [] 0 (after w [loaded])) as [I1 I2].
  destruct (sections_loop_general groq self Hd (Z.of_nat (List.length data))
              data [] 0 (after w [loaded])) as (res & evs & Hloop & _).
  assert (T0 : throttles (trace (after w [loaded])) = throttles (trace w)).
  { cbn [after trace]. rewrite throttles_app. unfold throttles at 2. simpl. lia. }
  rewrite Hloop, T0 in I1, I2. cbn [fst snd] in I1, I2.
  rewrite after_after in Hloop, I1, I2. cbn [app] in Hloop, I1, I2.
  assert (T : forall tail,
             throttles tail = 0%nat ->
             throttles (trace w ++ loaded :: evs ++ tail)
             = throttles (trace (after w (loaded :: evs)))).
  { intros tail Ht. cbn [after trace].
    change (loaded :: evs ++ tail) with ((loaded :: evs) ++ tail).
    rewrite app_assoc, throttles_app, Ht. lia. }
  destruct res as [[sm p]|e].
  - rewrite (process_all_sections_after_loop groq self input_file output_file
               data w sm p evs Hfile Hloop).
    fold loaded. specialize (I2 _ eq_refl).
    destruct (Dict.truthy sm); [destruct (save_failure output_file)|];
      cbn [fst snd after trace]; rewrite T by reflexivity;
      (split; [lia|try discriminate; intros; lia]).
  - assert (Hrun : process_all_sections groq self input_file output_file w
                   = (Raise e, after w (loaded :: evs))).
    { unfold process_all_sections. unfold bind at 1.
      rewrite (load_json_data_found _ _ _ Hfile). unfold bind at 1.
      fold loaded. rewrite Hloop. reflexivity. }
    rewrite Hrun. cbn [fst snd]. split; [exact I1|discriminate].
Qed.

Lemma process_all_sections_throttles_witness :
  (throttles (trace (snd (process_all_sections Sample.first_only (init (lit "key"))
                            json_file markdown_file
                            (Sample.with_input Sample.three_sections))))
   <= throttles (trace (Sample.with_input Sample.three_sections))
      + List.length Sample.three_sections)%nat
  /\ (forall summaries,
        fst (process_all_sections Sample.first_only (init (lit "key"))
               json_file markdown_file (Sample.with_input Sample.three_sections))
        = Ok summaries ->
        throttles (trace (snd (process_all_sections Sample.first_only (init (lit "key"))
                                 json_file markdown_file
                                 (Sample.with_input Sample.three_sections))))
        = (throttles (trace (Sample.with_input Sample.three_sections))
           + List.length Sample.three_sections)%nat).
Proof.
  apply (process_all_sections_throttles Sample.first_only (init (lit "key"))
           json_file markdown_file Sample.three_sections
           (Sample.with_input Sample.three_sections)).
  - simpl. lia.
  - reflexivity.
Defined.



(** ** The batch, by what the service answers *)

Section ByPrompt.

Variable answer : list (str * str) -> http_outcome.
Variable self : GroqSummarizer.
Hypothesis delay_nonneg : 0 <= base_delay self.
Hypothesis no_escape : forall m, escapes (answer m) = false.

Lemma retry_loop_by_prompt (messages : list (str * str)) :
  verdict_of (answer messages) = NextAttempt ->
  forall attempts w,
  exists evs,
    retry_loop (fun _ => answer) self messages attempts w = (Ok None, after w evs)
    /\ forallb is_retry_event evs = true.
Proof.
  intros V. induction attempts as [|a rest IH]; intros w.
  - exists []. simpl. unfold ret. now rewrite after_nil.
  - rewrite retry_loop_cons by assumption. cbv beta. rewrite V.
    destruct (IH (after w (attempt_events self messages a (answer messages))))
      as (evs & Hrun & Hq).
    exists (attempt_events self messages a (answer messages) ++ evs).
    rewrite Hrun, after_after. split; [reflexivity|].
    rewrite forallb_app, Hq. now rewrite attempt_events_retry.
Qed.

Lemma summary_by_prompt_truthy (entry : str * list str) (s : str) :
  summary_by_prompt self answer entry = Some s -> truthy s = true.
Proof.
  unfold summary_by_prompt.
  destruct (too_short self entry); [discriminate|].
  destruct (max_retries self <? 1); [discriminate|].
  destruct (verdict_of _) as [s0| |e]; try discriminate.
  destruct (truthy s0) eqn:T; [|discriminate]. now intros [= <-].
Qed.

Lemma summarize_section_by_prompt (section_name : str) (paragraphs : list str)
    (w : world) :
  exists evs,
    summarize_section (fun _ => answer) self section_name paragraphs w
    = (Ok (summary_by_prompt self answer (section_name, paragraphs)), after w evs)
    /\ visited evs = [].
Proof.
  unfold summarize_section, summary_by_prompt, too_short. simpl snd.
  destruct (is_section_valid self (prepare_section_text paragraphs)) eqn:V;
    cbn [negb].
  2:{ exists [EPrint (LSkipping section_name (len (prepare_section_text paragraphs)))].
      split; reflexivity. }
  set (messages := create_prompt (prepare_section_text paragraphs)).
  unfold bind. rewrite print_after. unfold call_groq_api.
  destruct (max_retries self <? 1) eqn:M.
  - apply Z.ltb_lt in M. unfold range.
    replace (Z.to_nat (max_retries self)) with 0%nat by lia.
    cbn [seq map retry_loop]. unfold ret at 1. rewrite print_after, after_after.
    unfold ret. eexists. split; reflexivity.
  - apply Z.ltb_ge in M.
    destruct (range (max_retries self)) as [|a rest] eqn:R.
    { apply (f_equal (@List.length Z)) in R. rewrite length_range in R.
      simpl in R. lia. }
    rewrite retry_loop_cons by assumption. cbv beta.
    pose proof (no_escape messages) as Hesc. unfold escapes in Hesc.
    pose proof (attempt_events_retry self messages a (answer messages)) as Hq.
    destruct (verdict_of (answer messages)) as [s| |e] eqn:Ve; [| |discriminate].
    + destruct (retry_events_quiet _ Hq) as (Hv1 & _).
      destruct (truthy s); rewrite print_after, !after_after; unfold ret;
        (eexists; split; [reflexivity|]);
        rewrite !visited_app, Hv1; reflexivity.
    + destruct (retry_loop_by_prompt messages Ve rest
                  (after (after w [EPrint (LCalling section_name)])
                     (attempt_events self messages a (answer messages))))
        as (evs & Hrun & Hq').
      rewrite Hrun. rewrite print_after, !after_after. unfold ret.
      eexists. split; [reflexivity|].
      destruct (retry_events_quiet _ Hq) as (Hv1 & _).
      destruct (retry_events_quiet _ Hq') as (Hv2 & _).
      rewrite !visited_app, Hv1, Hv2. reflexivity.
Qed.

Lemma set_fresh {V} (d : Dict.t V) (k : str) (v : V) :
  ~ In k (Dict.keys d) -> Dict.set d k v = d ++ [(k, v)].
Proof.
  induction d as [|[k' v'] d IH]; simpl; intros H; [reflexivity|].
  destruct (Py.eqb k' k) eqn:E.
  - apply eqb_eq in E. tauto.
  - f_equal. apply IH. tauto.
Qed.

(** The loop over the sections: each section is announced, and those
    that get a summary are added, in order. *)
Lemma sections_loop_by_prompt (total : Z) :
  forall items sm0 p0 w,
    NoDup (Dict.keys items) ->
    (forall k, In k (Dict.keys sm0) -> ~ In k (Dict.keys items)) ->
    exists evs,
      sections_loop (fun _ => answer) self total items sm0 p0 w
      = (Ok (sm0 ++ summaries_by_prompt self answer items,
             p0 + Z.of_nat (List.length (summaries_by_prompt self answer items))),
         after w evs)
      /\ visited evs = Dict.keys items.
Proof.
  induction items as [|[n ps] rest IH]; intros sm0 p0 w Hnd Hfresh.
  - exists []. simpl. unfold ret. now rewrite after_nil, app_nil_r, Z.add_0_r.
  - rewrite sections_loop_cons by assumption.
    simpl in Hnd. apply NoDup_cons_iff in Hnd. destruct Hnd as [Hn Hnd].
    destruct (summarize_section_by_prompt n ps
                (after w [EPrint (LProcessing (p0 + 1) total n)]))
      as (evs1 & Hrun & Hv1).
    rewrite Hrun.
    change (summaries_by_prompt self answer ((n, ps) :: rest))
      with (match summary_by_prompt self answer (n, ps) with
            | Some s => [(n, s)]
            | None => []
            end ++ summaries_by_prompt self answer rest).
    destruct (summary_by_prompt self answer (n, ps)) as [s|] eqn:S.
    + rewrite (summary_by_prompt_truthy _ _ S).
      assert (Hn0 : ~ In n (Dict.keys sm0)).
      { intros Hin. apply (Hfresh n Hin). simpl. now left. }
      destruct (IH (Dict.set sm0 n s) (p0 + 1)
                  (after (after (after w [EPrint (LProcessing (p0 + 1) total n)]) evs1)
                     [ESleep (1 # 2)]) Hnd)
        as (evs & Hloop & Hv).
      { intros k. rewrite keys_set_fresh by assumption.
        rewrite in_app_iff. simpl. intros [Hin|[<-|[]]]; [|exact Hn].
        intros Hr. apply (Hfresh k Hin). simpl. now right. }
      exists ([EPrint (LProcessing (p0 + 1) total n)] ++ evs1 ++ [ESleep (1 # 2)] ++ evs).
      rewrite Hloop, !after_after. rewrite set_fresh by assumption.
      split.
      * rewrite <- app_assoc. do 3 f_equal.
        rewrite length_app. cbn [List.length]. lia.
      * cbn [app]. rewrite visited_processing.
        rewrite !visited_app, Hv1, visited_sleep, Hv. reflexivity.
    + destruct (IH sm0 p0
                  (after (after (after w [EPrint (LProcessing (p0 + 1) total n)]) evs1)
                     [ESleep (1 # 2)]) Hnd)
        as (evs & Hloop & Hv).
      { intros k Hin Hr. apply (Hfresh k Hin). simpl. now right. }
      exists ([EPrint (LProcessing (p0 + 1) total n)] ++ evs1 ++ [ESleep (1 # 2)] ++ evs).
      rewrite Hloop, !after_after. split; [reflexivity|].
      cbn [app]. rewrite visited_processing.
      rewrite !visited_app, Hv1, visited_sleep, Hv. reflexivity.
Qed.

End ByPrompt.



(** The run of the sample: of S1, S2, S3 the second is answered by
    server errors, and the mapping returned and saved is that of S1 and
    S3. *)
Example three_texts_middle_fails :
  summaries_by_prompt (init (lit "key")) Sample.by_prompt Sample.three_texts
  = [(lit "S1", lit "Done."); (lit "S3", lit "Done.")]
  /\ fst (process_all_sections (fun _ => Sample.by_prompt) (init (lit "key"))
            json_file markdown_file (Sample.with_input Sample.three_texts))
     = Ok [(lit "S1", lit "Done."); (lit "S3", lit "Done.")]
  /\ Dict.get
       (files (snd (process_all_sections (fun _ => Sample.by_prompt) (init (lit "key"))
                      json_file markdown_file (Sample.with_input Sample.three_texts))))
       markdown_file
     = Some (FText (lit "## S1" ++ nl ++ nl ++ lit "Done." ++ nl ++ nl
                    ++ lit "## S3" ++ nl ++ nl ++ lit "Done.")).
Proof. vm_compute. repeat split. Qed.



(** X28. An output path without a directory part, a bare file name,
    cannot be saved to: [os.makedirs] is given the empty name and raises
    [FileNotFoundError] before the file is opened.  Whatever the service
    answers, a run of [process_all_sections] to such a path writes no
    file and returns no summary: it returns the empty mapping when no
    section was summarized, and otherwise raises, [FileNotFoundError] if
    it got as far as saving. *)
Theorem bare_output_name_saves_nothing :
  forall groq self input_file output_file data w,
    0 <= base_delay self ->
    Dict.get (files w) input_file = Some (FJson data) ->
    dirname output_file = [] ->
    exists res w',
      process_all_sections groq self input_file output_file w = (res, w')
      /\ files w' = files w
      /\ match res with
         | Ok summaries => summaries = []
         | Raise e =>
             e = FileNotFoundError
             \/ e = KeyError \/ e = IndexError \/ e = TypeError \/ e = AttributeError
         end.
Proof.
  intros groq self input_file output_file data w Hd Hfile Hdir.
  assert (Hsave : save_failure output_file = Some FileNotFoundError).
  { unfold save_failure. now rewrite Hdir. }
  destruct (process_all_sections_general groq self Hd input_file output_file data w Hfile)
    as (res & w' & evs & Hrun & _ & _ & Hres).
  exists res, w'. split; [exact Hrun|].
  destruct res as [sm|e].
  - destruct Hres as (_ & _ & _ & _ & Hfiles & Hnone).
    destruct sm as [|entry sm]; [split; [exact Hfiles|reflexivity]|].
    specialize (Hnone eq_refl). congruence.
  - destruct Hres as [Hfiles [He|He]]; split; try exact Hfiles.
    + now right.
    + left. congruence.
Qed.

Lemma bare_output_name_saves_nothing_witness :
  exists res w',
    process_all_sections Sample.first_only (init (lit "key")) json_file (lit "out.md")
      (Sample.with_input Sample.three_sections) = (res, w')
    /\ files w' = files (Sample.with_input Sample.three_sections)
    /\ match res with
       | Ok summaries => summaries = []
       | Raise e =>
           e = FileNotFoundError
           \/ e = KeyError \/ e = IndexError \/ e = TypeError \/ e = AttributeError
       end.
Proof.
  apply (bare_output_name_saves_nothing Sample.first_only (init (lit "key"))
           json_file (lit "out.md") Sample.three_sections
           (Sample.with_input Sample.three_sections)).
  - simpl. lia.
  - reflexivity.
  - reflexivity.
Defined.

(** The run of that sample: five calls are made, two sections are
    summarized, and the summaries are lost to the failing save. *)
Example bare_output_name_loses_the_summaries :
  let '(res, w') :=
    process_all_sections Sample.first_only (init (lit "key")) json_file (lit "out.md")
      (Sample.with_input Sample.three_sections) in
  res = Raise FileNotFoundError
  /\ summarized (trace w') = [lit "S1"; lit "S3"]
  /\ posts (trace w') = 5%nat
  /\ files w' = files (Sample.with_input Sample.three_sections).
Proof. vm_compute. repeat split. Qed.
